(** * Storage-array polling scripts: a shallow embedding and its properties

    The development follows the three scripts of the repository:
    - [Rdf]     : rdf.py, the batch scheduler writing JSON and CSV reports;
    - [RdfSql]  : rdf_sql.py, the long-running collector with a MySQL sink;
    - [UniVmax] : uniVmax_rdf.py, the API client with its pagination helper.

    Python values coming from [response.json()] are modelled by the type
    [json]; Python exceptions deriving from [Exception] by [exn]; code that
    talks to the outside world (HTTP, files, database, clock, console) runs
    in a small monad [M] that records the calls made, in order, next to the
    value returned or the exception raised.

    What the outside world does is a parameter of each script ([env]): the
    answer of the API to each request, the readings of the clock, which
    rows the database accepts. The following is fixed:
    - writing a file, printing, sleeping, opening the database
      connection and committing succeed: such a call is logged with its
      arguments and returns;
    - the requests of the workers of a pool are logged in the order of the
      targets, the order in which [executor.map] and the loop over the
      futures deliver their results; the pool itself fixes no order
      among its requests, and what is stated of the requests of a batch
      or of a pass is stated up to their order;
    - numbers that are not integers, clock readings among them, are
      binary64 floats with the arithmetic of IEEE 754, as in Python;
    - targets are strings. *)

From Stdlib Require Import ZArith Floats.
From stdpp Require Import base option list strings pretty gmap.

Local Open Scope string_scope.
Local Open Scope list_scope.
Local Open Scope nat_scope.

(** ** Exceptions and results *)

Record exn := Exn { exn_class : string; exn_msg : string }.

Inductive result (A : Type) : Type :=
| Ok (a : A)
| Raise (e : exn).
Arguments Ok {A} a.
Arguments Raise {A} e.

Definition bind_result {A B} (r : result A) (f : A → result B) : result B :=
  match r with
  | Ok a => f a
  | Raise e => Raise e
  end.

Notation "'let?' x := r 'in' k" := (bind_result r (λ x, k))
  (at level 10, x binder, r at level 100, k at level 200).

Definition is_ok {A} (r : result A) : bool :=
  match r with Ok _ => true | Raise _ => false end.

(** ** The effect monad: a log of the calls made and an outcome *)

Record M (E A : Type) : Type := MkM { trace : list E; outcome : result A }.
Arguments MkM {E A} trace outcome.
Arguments trace {E A} m.
Arguments outcome {E A} m.

Section Monad.
Context {E : Type}.

Definition m_ret {A} (a : A) : M E A := MkM [] (Ok a).

Definition m_bind {A B} (m : M E A) (f : A → M E B) : M E B :=
  match outcome m with
  | Ok a => let m' := f a in MkM (trace m ++ trace m') (outcome m')
  | Raise e => MkM (trace m) (Raise e)
  end.

(** One call to the outside world, logged as [e]. *)
Definition emit (e : E) : M E unit := MkM [e] (Ok tt).

(** [raise] and the lifting of a pure computation that may raise. *)
Definition raise {A} (e : exn) : M E A := MkM [] (Raise e).
Definition lift {A} (r : result A) : M E A := MkM [] r.

(** [try: m except Exception as e: h e]. What [m] did before raising
    stays done. *)
Definition try_except {A} (m : M E A) (h : exn → M E A) : M E A :=
  match outcome m with
  | Ok a => m
  | Raise e => let m' := h e in MkM (trace m ++ trace m') (outcome m')
  end.

(** [for x in xs: body x] *)
Fixpoint for_each {A} (xs : list A) (body : A → M E unit) : M E unit :=
  match xs with
  | [] => m_ret tt
  | x :: xs' => m_bind (body x) (λ _, for_each xs' body)
  end.

(** [[f x for x in xs]], also the shape of [executor.map f xs] once
    its results are collected into a list. *)
Fixpoint map_m {A B} (f : A → M E B) (xs : list A) : M E (list B) :=
  match xs with
  | [] => m_ret []
  | x :: xs' =>
      m_bind (f x) (λ y, m_bind (map_m f xs') (λ ys, m_ret (y :: ys)))
  end.
End Monad.

Arguments m_bind : simpl never.

Notation "'let!' x := m 'in' k" := (m_bind m (λ x, k))
  (at level 10, x binder, m at level 100, k at level 200).
Notation "m >> k" := (m_bind m (λ _, k))
  (at level 100, k at level 200, right associativity).

(** ** Python list primitives used by the scripts *)

(** [range(start, stop, step)] for non-negative arguments: the values
    [start, start + step, ...] below [stop]. A zero step raises
    [ValueError]. At most [stop] values are produced when [step > 0]. *)
Fixpoint range_from (fuel start stop step : nat) : list nat :=
  match fuel with
  | 0 => []
  | S fuel' =>
      if start <? stop
      then start :: range_from fuel' (start + step) stop step
      else []
  end.

Definition py_range (start stop step : nat) : result (list nat) :=
  if step =? 0
  then Raise (Exn "ValueError" "range() arg 3 must not be zero")
  else Ok (range_from stop start stop step).

(** [l[i:j]] for non-negative [i] and [j]; both ends are clamped to the
    length of [l]. *)
Definition py_slice {A} (l : list A) (i j : nat) : list A :=
  take (j - i) (drop i l).

(** [[storage_groups[i:i + BATCH_SIZE]
      for i in range(0, len(storage_groups), BATCH_SIZE)]] *)
Definition split_batches {A} (batch_size : nat) (targets : list A)
  : result (list (list A)) :=
  let? starts := py_range 0 (length targets) batch_size in
  Ok ((λ i, py_slice targets i (i + batch_size)) <$> starts).

(** ** Traces made of blocks *)

(** The blocks one after the other, with [sep] between two consecutive
    blocks: not before the first, not after the last. *)
Fixpoint join_with {E} (sep : list E) (blocks : list (list E)) : list E :=
  match blocks with
  | [] => []
  | [block] => block
  | block :: rest => block ++ sep ++ join_with sep rest
  end.

(** ** JSON values and the Python operations applied to them *)

(** What [response.json()] can return. [None] is [JNull]; a Python [dict]
    keeps its insertion order, so it is an association list. *)
#[warnings="-register-all"]
Inductive json : Type :=
| JNull
| JBool (b : bool)
| JInt (n : Z)
| JFloat (x : float)
| JStr (s : string)
| JList (xs : list json)
| JDict (kvs : list (string * json)).

Definition type_name (v : json) : string :=
  match v with
  | JNull => "NoneType"
  | JBool _ => "bool"
  | JInt _ => "int"
  | JFloat _ => "float"
  | JStr _ => "str"
  | JList _ => "list"
  | JDict _ => "dict"
  end.

Definition TypeError (msg : string) : exn := Exn "TypeError" msg.

(** Lookup in a [dict]. *)
Fixpoint assoc (k : string) (kvs : list (string * json)) : option json :=
  match kvs with
  | [] => None
  | (k', v) :: kvs' => if String.eqb k k' then Some v else assoc k kvs'
  end.

(** [bool(v)], the test of [if v] and [a and v]. *)
Definition truthy (v : json) : bool :=
  match v with
  | JNull => false
  | JBool b => b
  | JInt n => negb (n =? 0)%Z
  | JFloat x => negb (x =? 0)%float
  | JStr s => negb (String.eqb s "")
  | JList xs => negb (Nat.eqb (length xs) 0)
  | JDict kvs => negb (Nat.eqb (length kvs) 0)
  end.

Definition isinstance_dict (v : json) : bool :=
  match v with JDict _ => true | _ => false end.

Fixpoint is_substring (k s : string) : bool :=
  String.prefix k s
  || match s with
     | EmptyString => false
     | String _ s' => is_substring k s'
     end.

Definition is_str (k : string) (v : json) : bool :=
  match v with JStr s => String.eqb k s | _ => false end.

Fixpoint chars (s : string) : list json :=
  match s with
  | EmptyString => []
  | String c s' => JStr (String c EmptyString) :: chars s'
  end.

(** [k in v] for a string [k]. *)
Definition py_contains (k : string) (v : json) : result bool :=
  match v with
  | JDict kvs => Ok (bool_decide (is_Some (assoc k kvs)))
  | JList xs => Ok (existsb (is_str k) xs)
  | JStr s => Ok (is_substring k s)
  | _ => Raise (TypeError ("argument of type '" +:+ type_name v
                           +:+ "' is not iterable"))
  end.

(** [v[k]] for a string [k]. *)
Definition py_getitem (v : json) (k : string) : result json :=
  match v with
  | JDict kvs =>
      match assoc k kvs with
      | Some x => Ok x
      | None => Raise (Exn "KeyError" ("'" +:+ k +:+ "'"))
      end
  | JList _ =>
      Raise (TypeError "list indices must be integers or slices, not str")
  | JStr _ => Raise (TypeError "string indices must be integers, not 'str'")
  | _ => Raise (TypeError ("'" +:+ type_name v
                           +:+ "' object is not subscriptable"))
  end.

(** [v.get(k, default)]; only a [dict] has the method. *)
Definition py_get (v : json) (k : string) (dflt : json) : result json :=
  match v with
  | JDict kvs => Ok (default dflt (assoc k kvs))
  | _ => Raise (Exn "AttributeError"
                  ("'" +:+ type_name v +:+ "' object has no attribute 'get'"))
  end.

(** The items a [for x in v] loop, or [list.extend(v)], goes through. *)
Definition py_iter (v : json) : result (list json) :=
  match v with
  | JList xs => Ok xs
  | JDict kvs => Ok ((λ kv, JStr kv.1) <$> kvs)
  | JStr s => Ok (chars s)
  | _ => Raise (TypeError ("'" +:+ type_name v
                           +:+ "' object is not iterable"))
  end.

(** [v.items()] *)
Definition py_items (v : json) : result (list (string * json)) :=
  match v with
  | JDict kvs => Ok kvs
  | _ => Raise (Exn "AttributeError"
                  ("'" +:+ type_name v +:+ "' object has no attribute 'items'"))
  end.

(** ** HTTP as the scripts see it *)

(** What [session.get] does: it raises (timeout, refused connection, ...)
    or returns a response with a status code and a body, which parses as
    JSON or does not. *)
Record response := Response { status_code : Z; body : option json }.

Inductive http_outcome : Type :=
| Fails (e : exn)
| Responds (r : response).

(** [response.json()] *)
Definition response_json (r : response) : result json :=
  match body r with
  | Some v => Ok v
  | None => Raise (Exn "JSONDecodeError" "Expecting value: line 1 column 1 (char 0)")
  end.

(** ** rdf.py: the batch scheduler *)

Module Rdf.

Definition UNISPHERE_IP : string := "your_unisphere_ip".
Definition SYMMETRIX_ID : string := "000123456789".
Definition BATCH_SIZE : nat := 20.
Definition OUTPUT_DIR : string := "/tmp/rdf_reports".
Definition MAX_WORKERS : nat := 5.

(** The calls the script makes to the outside world. *)
Inductive event : Type :=
| EGet (url : string) (timeout : option nat)
| EPrint (line : string)
| EJsonDump (path : string) (results : list json)
| ECsvRow (path : string) (row : list json)
| ESleep (seconds : nat).

(** The outside world: what the shared session answers for a URL, and
    what [time.strftime] returns while batch [batch_num] is processed. *)
Record env := Env {
  session_get : string → http_outcome;
  strftime : nat → string
}.

Definition http_get (w : env) (url : string) (timeout : option nat)
  : M event response :=
  emit (EGet url timeout) >>
  match session_get w url with
  | Fails e => raise e
  | Responds r => m_ret r
  end.

Definition rdf_url (sg_name : string) : string :=
  "https://" +:+ UNISPHERE_IP
  +:+ "/univmax/restapi/90/replication/symmetrix/" +:+ SYMMETRIX_ID
  +:+ "/storagegroup/" +:+ sg_name +:+ "/rdf".

(** [get_rdf_status(sg_name)] *)
Definition get_rdf_status (w : env) (sg_name : string) : M event json :=
  let url := rdf_url sg_name in
  try_except
    (let! response := http_get w url (Some 30) in
     if (status_code response =? 200)%Z
     then let! data := lift (response_json response) in
          m_ret (JDict [(sg_name, data)])
     else m_ret (JDict [(sg_name,
                         JStr ("Error: " +:+ pretty (status_code response)))]))
    (λ e, m_ret (JDict [(sg_name, JStr ("Exception: " +:+ exn_msg e))])).

(** [list(executor.map(get_rdf_status, batch))]: the results come back
    in the order of [batch], whatever the order in which the workers
    finish; the [with] block returns once all of them have. The calls
    are logged in the order of [batch]. *)
Definition fetch_batch (w : env) (batch : list string)
  : M event (list json) :=
  map_m (get_rdf_status w) batch.

Definition csv_header : list json :=
  [JStr "Storage Group"; JStr "RDFG Number"; JStr "State"; JStr "Mode";
   JStr "Status"].

(** The body of [for sg, data in result.items()]. *)
Definition csv_rows_of_item (csv_file : string) (item : string * json)
  : M event unit :=
  let '(sg, data) := item in
  if isinstance_dict data
  then
    let! info := lift (py_get data "rdfGroupInfo" (JList [])) in
    let! rdf_groups := lift (py_iter info) in
    for_each rdf_groups (λ rdf_group,
      let! number := lift (py_get rdf_group "rdfgNumber" JNull) in
      let! state := lift (py_get rdf_group "state" JNull) in
      let! mode := lift (py_get rdf_group "mode" JNull) in
      let! status := lift (py_get rdf_group "status" JNull) in
      emit (ECsvRow csv_file [JStr sg; number; state; mode; status]))
  else m_ret tt.

(** The CSV summary of [process_batch]. *)
Definition write_csv (csv_file : string) (results : list json)
  : M event unit :=
  emit (ECsvRow csv_file csv_header) >>
  for_each results (λ result,
    let! items := lift (py_items result) in
    for_each items (csv_rows_of_item csv_file)).

(** The two files of a batch. *)
Definition output_file (batch_num : nat) (timestamp : string) : string :=
  OUTPUT_DIR +:+ "/rdf_batch_" +:+ pretty batch_num +:+ "_"
  +:+ timestamp +:+ ".json".

Definition csv_file (batch_num : nat) (timestamp : string) : string :=
  OUTPUT_DIR +:+ "/rdf_summary_" +:+ pretty batch_num +:+ "_"
  +:+ timestamp +:+ ".csv".

(** [process_batch(batch, batch_num)] *)
Definition process_batch (w : env) (batch : list string) (batch_num : nat)
  : M event nat :=
  let timestamp := strftime w batch_num in
  let! results := fetch_batch w batch in
  emit (EJsonDump (output_file batch_num timestamp) results) >>
  write_csv (csv_file batch_num timestamp) results >>
  m_ret (length results).

(** A value the CSV summary goes through without raising: not a
    mapping (the summary skips it), or a mapping whose 'rdfGroupInfo',
    when there is one, is a list of mappings. *)
Definition csv_ready (data : json) : bool :=
  match data with
  | JDict kvs =>
      match assoc "rdfGroupInfo" kvs with
      | None => true
      | Some (JList rdf_groups) => forallb isinstance_dict rdf_groups
      | Some _ => false
      end
  | _ => true
  end.

Definition is_csv_row (e : event) : bool :=
  match e with ECsvRow _ _ => true | _ => false end.
Definition is_sleep (e : event) : bool :=
  match e with ESleep _ => true | _ => false end.

(** The body of [for i, batch in enumerate(batches, 1)], for the batch
    numbered [i] out of [total]: first the work on the batch, *)
Definition batch_work (w : env) (total i : nat) (batch : list string)
  : M event unit :=
  emit (EPrint ("Processing batch " +:+ pretty i +:+ " of " +:+ pretty total
                +:+ " with " +:+ pretty (length batch) +:+ " groups")) >>
  let! processed := process_batch w batch i in
  emit (EPrint ("Completed batch " +:+ pretty i +:+ ", processed "
                +:+ pretty processed +:+ " groups")).

(** then [if i < len(batches): time.sleep(10)]. *)
Definition batch_step (w : env) (total i : nat) (batch : list string)
  : M event unit :=
  batch_work w total i batch >>
  if i <? total then emit (ESleep 10) else m_ret tt.

(** The loop over [enumerate(batches, 1)], from the batch numbered [i]. *)
Fixpoint run_from (w : env) (total i : nat) (batches : list (list string))
  : M event unit :=
  match batches with
  | [] => m_ret tt
  | batch :: rest => batch_step w total i batch >> run_from w total (S i) rest
  end.

Definition run_batches (w : env) (batches : list (list string))
  : M event unit :=
  run_from w (length batches) 1 batches.

(** The targets a parsed inventory stands for. The loops of the script
    go through [storage_groups] with [len], slices and iteration: a list
    gives its items, a string its characters, an empty mapping nothing;
    a value without a length makes [len] raise. The script expects
    names, so a list holding something that is not a string is outside
    this model; so is a mapping with keys, where the exception of the
    first slice depends on the version of Python. *)
Fixpoint names_of (xs : list json) : option (list string) :=
  match xs with
  | [] => Some []
  | JStr s :: xs' => cons s <$> names_of xs'
  | _ => None
  end.

Definition inventory (storage_groups : json) : option (result (list string)) :=
  match storage_groups with
  | JList xs => Ok <$> names_of xs
  | JStr s => Ok <$> names_of (chars s)
  | JDict [] => Some (Ok [])
  | JDict _ => None
  | _ => Some (Raise (TypeError ("object of type '"
                                 +:+ type_name storage_groups
                                 +:+ "' has no len()")))
  end.

(** [main()] once [storage_groups] is known. *)
Definition main_from (w : env) (storage_groups : list string)
  : M event unit :=
  let! batches := lift (split_batches BATCH_SIZE storage_groups) in
  run_batches w batches.

(** [main()]; [None] when the inventory is outside the model. *)
Definition main (w : env) : option (M event unit) :=
  let url := "https://" +:+ UNISPHERE_IP
             +:+ "/univmax/restapi/90/replication/symmetrix/"
             +:+ SYMMETRIX_ID +:+ "/storagegroup?rdf=true" in
  let fetched :=
    let! response := http_get w url None in
    let! data := lift (response_json response) in
    lift (py_getitem data "name") in
  match outcome fetched with
  | Raise e => Some (MkM (trace fetched) (Raise e))
  | Ok storage_groups =>
      (λ targets,
         fetched >> let! names := lift targets in main_from w names)
      <$> inventory storage_groups
  end.

End Rdf.

(** ** rdf_sql.py: the collector loop and its MySQL sink *)

Module RdfSql.

Definition UNISPHERE_IP : string := "your_unisphere_ip".
Definition SYMMETRIX_ID : string := "000123456789".
Definition BATCH_SIZE : nat := 20.
Definition MAX_WORKERS : nat := 5.
(** The [int] 3600, as the float the subtraction in [main] converts it
    to. *)
Definition COLLECTION_INTERVAL : float := 3600.

(** A [datetime], as seconds since the epoch. *)
Definition datetime : Type := Z.

(** The parameters of the [INSERT INTO rdf_status] statement. *)
Record row := Row {
  collection_time : datetime;
  symmetrix_id : string;
  storage_group : string;
  rdf_group_number : json;
  rdf_state : json;
  rdf_mode : json;
  rdf_status : json;
  volume_config : json;
  ra_group : json;
  ra_capacity : json;
  consistency_state : json;
  last_sync_time : option datetime;
  is_protected : json;
  is_consistent : json
}.

(** The pieces of a formatted line given to [print]. *)
Inductive fragment : Type :=
| FText (s : string)
| FJson (v : json)
| FNat (n : nat)
| FDatetime (t : datetime)
| FMinutes (x : float).

(** The calls the script makes to the outside world. [EExecute] carries
    whether the server accepted the statement. *)
Inductive event : Type :=
| EGet (url : string) (timeout : option nat)
| EPrint (line : list fragment)
| EConnect
| EExecute (r : row) (accepted : bool)
| ECommit
| ECursorClose
| EClose
| ESleep (seconds : float).

(** The outside world. [time_time] and [now_utc] give the successive
    readings of [time.time()] and [datetime.now(pytz.utc)], each read
    twice per pass; [pass_get k] is what the API answers during pass
    [k]. Opening the connection and committing are taken to succeed. *)
Record env := Env {
  startup_get : string → http_outcome;
  pass_get : nat → string → http_outcome;
  time_time : nat → float;
  now_utc : nat → datetime;
  strptime : string → option datetime;
  insert_ok : row → bool
}.

Definition http_get (answer : string → http_outcome) (url : string)
    (timeout : option nat) : M event response :=
  emit (EGet url timeout) >>
  match answer url with
  | Fails e => raise e
  | Responds r => m_ret r
  end.

Definition rdf_url (sg_name : string) : string :=
  "https://" +:+ UNISPHERE_IP
  +:+ "/univmax/restapi/90/replication/symmetrix/" +:+ SYMMETRIX_ID
  +:+ "/storagegroup/" +:+ sg_name +:+ "/rdf".

(** [get_rdf_status(session, sg_name)] *)
Definition get_rdf_status (session : string → http_outcome)
    (sg_name : string) : M event json :=
  let url := rdf_url sg_name in
  try_except
    (let! response := http_get session url (Some 30) in
     if (status_code response =? 200)%Z
     then lift (response_json response)
     else m_ret (JDict [("error",
                         JStr ("HTTP " +:+ pretty (status_code response)))]))
    (λ e, m_ret (JDict [("error", JStr (exn_msg e))])).

(** [datetime.strptime(last_sync, '%Y-%m-%d %H:%M:%S') if last_sync
    else None] *)
Definition parse_last_sync (w : env) (last_sync : json)
  : result (option datetime) :=
  if truthy last_sync
  then match last_sync with
       | JStr s =>
           match strptime w s with
           | Some t => Ok (Some t)
           | None =>
               Raise (Exn "ValueError"
                        ("time data '" +:+ s
                         +:+ "' does not match format '%Y-%m-%d %H:%M:%S'"))
           end
       | _ => Raise (TypeError ("strptime() argument 1 must be str, not "
                                +:+ type_name last_sync))
       end
  else Ok None.

(** [create_rdf_status_record(cursor, collection_time, sg_name,
    rdf_data)] *)
Definition create_rdf_status_record (w : env) (now : datetime)
    (sg_name : string) (rdf_data : json) : M event unit :=
  let! last_sync := lift (py_get rdf_data "lastSyncTime" JNull) in
  let! last_sync_time := lift (parse_last_sync w last_sync) in
  let! number := lift (py_get rdf_data "rdfgNumber" JNull) in
  let! state := lift (py_get rdf_data "state" JNull) in
  let! mode := lift (py_get rdf_data "mode" JNull) in
  let! status := lift (py_get rdf_data "status" JNull) in
  let! config := lift (py_get rdf_data "volumeConfig" JNull) in
  let! group := lift (py_get rdf_data "raGroup" JNull) in
  let! capacity := lift (py_get rdf_data "raCapacity" JNull) in
  let! consistency := lift (py_get rdf_data "consistencyState" JNull) in
  let! protected := lift (py_get rdf_data "protected" (JBool false)) in
  let! consistent := lift (py_get rdf_data "consistent" (JBool false)) in
  let r := Row now SYMMETRIX_ID sg_name number state mode status config
             group capacity consistency last_sync_time protected
             consistent in
  emit (EExecute r (insert_ok w r)) >>
  if insert_ok w r
  then m_ret tt
  else raise (Exn "DatabaseError" "statement rejected by the server").

(** The [try] block in the body of [for future in futures], with
    [processed] threaded through. The request of a target is logged
    where the main thread collects its result. *)
Definition process_one_try (w : env) (session : string → http_outcome)
    (now : datetime) (processed : nat) (sg_name : string) : M event nat :=
  let! result := get_rdf_status session sg_name in
  let! has_info := lift (py_contains "rdfGroupInfo" result) in
  if has_info : bool
  then
    let! info := lift (py_getitem result "rdfGroupInfo") in
    let! rdf_groups := lift (py_iter info) in
    for_each rdf_groups (create_rdf_status_record w now sg_name) >>
    m_ret (processed + 1)
  else
    let! err := lift (py_get result "error" (JStr "Unknown error")) in
    emit (EPrint [FText "Error processing "; FText sg_name; FText ": ";
                  FJson err]) >>
    m_ret processed.

(** The body of [for future in futures]. *)
Definition process_one (w : env) (session : string → http_outcome)
    (now : datetime) (processed : nat) (sg_name : string) : M event nat :=
  try_except
    (process_one_try w session now processed sg_name)
    (λ e,
       emit (EPrint [FText "Exception processing "; FText sg_name;
                     FText ": "; FText (exn_msg e)]) >>
       m_ret processed).

(** A loop that threads a value through its iterations. *)
Fixpoint fold_m {A S} (body : S → A → M event S) (s : S) (xs : list A)
  : M event S :=
  match xs with
  | [] => m_ret s
  | x :: xs' => let! s' := body s x in fold_m body s' xs'
  end.

(** [process_storage_groups(storage_groups)], for pass number [pass]. *)
Definition process_storage_groups (w : env) (pass : nat)
    (storage_groups : list string) : M event nat :=
  let now := now_utc w (2 * pass + 1) in
  let session := pass_get w pass in
  emit EConnect >>
  let! processed := fold_m (process_one w session now) 0 storage_groups in
  emit ECommit >>
  emit ECursorClose >>
  emit EClose >>
  m_ret processed.

(** [max(a, b)]: the first argument unless the second is greater, which
    a NaN is not. The [int] 0 of [max(0, x)] is the float 0.0, what
    [time.sleep] and the division by 60 take it for. *)
Definition py_max (a b : float) : float := if (a <? b)%float then b else a.

(** [time.time() - start_time] in pass number [pass]: a subtraction of
    floats, rounded. *)
Definition processing_time (w : env) (pass : nat) : float :=
  let start_time := time_time w (2 * pass) in
  (time_time w (2 * pass + 1) - start_time)%float.

(** One iteration of [while True], for pass number [pass]. *)
Definition collect_once (w : env) (interval : float) (pass : nat)
    (storage_groups : list string) : M event unit :=
  emit (EPrint [FText "Starting collection at ";
                FDatetime (now_utc w (2 * pass))]) >>
  let! processed := process_storage_groups w pass storage_groups in
  emit (EPrint [FText "Completed collection. Processed "; FNat processed;
                FText " storage groups"]) >>
  let sleep_time := py_max 0 (interval - processing_time w pass)%float in
  emit (EPrint [FText "Next collection in "; FMinutes (sleep_time / 60)%float;
                FText " minutes"]) >>
  emit (ESleep sleep_time).

(** [while True]: the loop never ends by itself; [passes] is the number
    of iterations observed, starting with pass number [pass]. *)
Fixpoint collector_loop (w : env) (interval : float) (pass passes : nat)
    (storage_groups : list string) : M event unit :=
  match passes with
  | 0 => m_ret tt
  | S passes' =>
      collect_once w interval pass storage_groups >>
      collector_loop w interval (S pass) passes' storage_groups
  end.

Fixpoint names_of (xs : list json) : option (list string) :=
  match xs with
  | [] => Some []
  | JStr s :: xs' => cons s <$> names_of xs'
  | _ => None
  end.

(** The targets a parsed inventory stands for: [main] takes its [len]
    and [process_storage_groups] iterates over it. A list gives its
    items, a string its characters, a mapping its keys; anything else
    has no [len]. The script expects names, so a list holding something
    that is not a string is outside this model. *)
Definition inventory (storage_groups : json) : option (result (list string)) :=
  match storage_groups with
  | JList xs => Ok <$> names_of xs
  | JStr s => Ok <$> names_of (chars s)
  | JDict kvs => Some (Ok (fst <$> kvs))
  | _ => Some (Raise (TypeError ("object of type '"
                                 +:+ type_name storage_groups
                                 +:+ "' has no len()")))
  end.

Definition inventory_url : string :=
  "https://" +:+ UNISPHERE_IP
  +:+ "/univmax/restapi/90/replication/symmetrix/" +:+ SYMMETRIX_ID
  +:+ "/storagegroup?rdf=true".

(** [main()], observed for [passes] iterations of its loop; [None] when
    the inventory is outside the model. *)
Definition main_with (w : env) (interval : float) (passes : nat)
  : option (M event unit) :=
  let requested := http_get (startup_get w) inventory_url None in
  match outcome requested with
  | Raise e => Some (MkM (trace requested) (Raise e))
  | Ok response =>
      if negb (status_code response =? 200)%Z
      then Some (requested >>
                 emit (EPrint [FText "Failed to get storage groups: HTTP ";
                               FJson (JInt (status_code response))]))
      else
        let parsed :=
          requested >>
          let! data := lift (response_json response) in
          lift (py_get data "name" (JList [])) in
        match outcome parsed with
        | Raise e => Some (MkM (trace parsed) (Raise e))
        | Ok storage_groups =>
            (λ targets,
               parsed >>
               let! names := lift targets in
               emit (EPrint [FText "Found "; FNat (length names);
                             FText " RDF storage groups"]) >>
               collector_loop w interval 0 passes names)
            <$> inventory storage_groups
        end
  end.

Definition main (w : env) (passes : nat) : option (M event unit) :=
  main_with w COLLECTION_INTERVAL passes.

(** *** The table behind the connection

    MySQL with autocommit off, the connector's default: an accepted
    [INSERT] is pending on the connection until [commit] makes it part
    of the table; closing or losing the connection drops what is
    pending. *)
Record db := Db { table : list row; pending : list row }.

Definition db_step (d : db) (e : event) : db :=
  match e with
  | EConnect => Db (table d) []
  | EExecute r true => Db (table d) (pending d ++ [r])
  | ECommit => Db (table d ++ pending d) []
  | EClose => Db (table d) []
  | _ => d
  end.

Definition db_run (d : db) (t : list event) : db := foldl db_step d t.

(** The process dies: the connection is lost. *)
Definition crash (d : db) : db := Db (table d) [].

(** The rows of the accepted [INSERT]s of a trace. *)
Definition accepted (t : list event) : list row :=
  omap (λ e, match e with EExecute r true => Some r | _ => None end) t.

(** The target answers 200 with a mapping that has an 'rdfGroupInfo'
    key. *)
Definition has_rdf_info (session : string → http_outcome) (sg_name : string)
  : bool :=
  match session (rdf_url sg_name) with
  | Responds r =>
      (status_code r =? 200)%Z
      && match body r with
         | Some (JDict kvs) => bool_decide (is_Some (assoc "rdfGroupInfo" kvs))
         | _ => false
         end
  | Fails _ => false
  end.

(** The target is one [process_storage_groups] counts: it answers 200
    with a mapping, and none of the values under its 'rdfGroupInfo' key
    makes [create_rdf_status_record] raise. *)
Definition stored (w : env) (session : string → http_outcome)
    (now : datetime) (sg_name : string) : bool :=
  match session (rdf_url sg_name) with
  | Responds r =>
      (status_code r =? 200)%Z
      && match body r with
         | Some (JDict kvs) =>
             match assoc "rdfGroupInfo" kvs with
             | Some info =>
                 match py_iter info with
                 | Ok rdf_groups =>
                     forallb
                       (λ rdf_group,
                          is_ok (outcome (create_rdf_status_record
                                            w now sg_name rdf_group)))
                       rdf_groups
                 | Raise _ => false
                 end
             | None => false
             end
         | _ => false
         end
  | Fails _ => false
  end.

(** The startup request did not give an inventory: it raised, or its
    status is not 200. *)
Definition inventory_failed (w : env) : Prop :=
  match startup_get w inventory_url with
  | Fails _ => True
  | Responds r => status_code r ≠ 200%Z
  end.

(** What the work on one target may log. *)
Definition is_target_event (e : event) : bool :=
  match e with
  | EGet _ _ | EPrint _ | EExecute _ _ => true
  | _ => false
  end.
Definition is_sleep (e : event) : bool :=
  match e with ESleep _ => true | _ => false end.
Definition is_execute (e : event) : bool :=
  match e with EExecute _ _ => true | _ => false end.
Definition is_commit (e : event) : bool :=
  match e with ECommit => true | _ => false end.
Definition is_db_write (e : event) : bool := is_execute e || is_commit e.
Definition is_pass_start (e : event) : bool :=
  match e with EConnect => true | _ => false end.

End RdfSql.

(** ** uniVmax_rdf.py: the API client's pagination helper *)

Module UniVmax.

(** A request of the client: the URL and the query parameters. *)
Inductive event : Type :=
| EGet (url : string) (params : gmap string json).

(** [response.raise_for_status()] *)
Definition raise_for_status (r : response) : result unit :=
  if ((400 <=? status_code r) && (status_code r <? 600))%Z
  then Raise (Exn "HTTPError" (pretty (status_code r) +:+ " Error"))
  else Ok tt.

(** [isinstance(data, dict) and 'resultList' in data] *)
Definition is_paginated (data : json) : bool :=
  match data with
  | JDict kvs => bool_decide (is_Some (assoc "resultList" kvs))
  | _ => false
  end.

(** How one iteration of [while True] ends: with the next iteration, on
    [break] (the function then returns [results]), or on [return data]. *)
Inductive control : Type :=
| Continue (params : gmap string json) (results : list json)
| Break (results : list json)
| Return (data : json).

(** What the body of [while True] in [_get_paginated] does with the
    answer to its request. *)
Definition next_step (answer : http_outcome) (params : gmap string json)
    (results : list json) : result control :=
  let? response :=
    match answer with
    | Fails e => Raise e
    | Responds r => Ok r
    end in
  let? _ := raise_for_status response in
  let? data := response_json response in
  if is_paginated data
  then
    let? result_list := py_getitem data "resultList" in
    let? result := py_getitem result_list "result" in
    let? items := py_iter result in
    let results := results ++ items in
    let? has_key := py_contains "nextPageKey" result_list in
    let? next :=
      if has_key : bool
      then let? key := py_getitem result_list "nextPageKey" in
           Ok (if truthy key then Some key else None)
      else Ok None in
    match next with
    | Some key => Ok (Continue (<["pageKey" := key]> params) results)
    | None => Ok (Break results)
    end
  else Ok (Return data).

(** The body of [while True]: the request, then the above; [answer] is
    what the session answers to this request. *)
Definition page_step (answer : http_outcome) (url : string)
    (params : gmap string json) (results : list json) : M event control :=
  emit (EGet url params) >>
  lift (next_step answer params results).

(** The loop of [_get_paginated] from request number [n] on;
    [session k] is the answer to the [k]-th request. [None]: the loop is
    still running after [fuel] requests. *)
Fixpoint paginate (session : nat → http_outcome) (url : string)
    (fuel n : nat) (params : gmap string json) (results : list json)
  : option (M event json) :=
  match fuel with
  | 0 => None
  | S fuel' =>
      let step := page_step (session n) url params results in
      match outcome step with
      | Raise e => Some (MkM (trace step) (Raise e))
      | Ok (Return data) => Some (MkM (trace step) (Ok data))
      | Ok (Break results') => Some (MkM (trace step) (Ok (JList results')))
      | Ok (Continue params' results') =>
          (λ rest, MkM (trace step ++ trace rest) (outcome rest))
          <$> paginate session url fuel' (S n) params' results'
      end
  end.

(** [_get_paginated(url, params, limit)]; the defaults are [params =
    None] and [limit = 1000]. *)
Definition _get_paginated (session : nat → http_outcome) (url : string)
    (params : option (gmap string json)) (limit : Z) (fuel : nat)
  : option (M event json) :=
  let params := default ∅ params in
  let params := <["pageSize" := JInt limit]> params in
  paginate session url fuel 0 params [].

(** *** Pages

    A page is a mapping whose 'resultList' is a mapping; its items are
    the list under 'result', its next-page key the value under
    'nextPageKey'. *)
Definition result_list (data : json) : option (list (string * json)) :=
  match data with
  | JDict kvs =>
      match assoc "resultList" kvs with
      | Some (JDict fields) => Some fields
      | _ => None
      end
  | _ => None
  end.

Definition page_items (data : json) : option (list json) :=
  match result_list data with
  | Some fields =>
      match assoc "result" fields with
      | Some (JList items) => Some items
      | _ => None
      end
  | None => None
  end.

Definition next_page_key (data : json) : option json :=
  match result_list data with
  | Some fields => assoc "nextPageKey" fields
  | None => None
  end.

(** The step after a page: another request when the page has a truthy
    next-page key, the end of the loop otherwise. *)
Definition after_page (data : json) (params : gmap string json)
    (results : list json) : control :=
  match next_page_key data with
  | Some key =>
      if truthy key
      then Continue (<["pageKey" := key]> params) results
      else Break results
  | None => Break results
  end.

(** Request number [k] is answered with the body [data], under a status
    that [raise_for_status] lets through. *)
Definition answers (session : nat → http_outcome) (k : nat) (data : json)
  : Prop :=
  ∃ r, session k = Responds r
       ∧ raise_for_status r = Ok tt ∧ body r = Some data.

(** A page with a list of items that is followed by another one: its
    next-page key is truthy. *)
Definition continues (data : json) : Prop :=
  is_Some (page_items data)
  ∧ ∃ key, next_page_key data = Some key ∧ truthy key = true.

(** A page with a list of items that is the last one: it has no
    next-page key, or a falsy one. *)
Definition ends (data : json) : Prop :=
  is_Some (page_items data)
  ∧ ∀ key, next_page_key data = Some key → truthy key = false.

(** The requests from number [n] on are answered with [pages], each
    followed by another one. *)
Definition continuing (session : nat → http_outcome) (n : nat)
    (pages : list json) : Prop :=
  ∀ k data, pages !! k = Some data →
    answers session (n + k) data ∧ continues data.

(** The items of the pages, in page order. *)
Definition all_items (pages : list json) : list json :=
  concat (omap page_items pages).

(** The parameters of the request that follows the answer [data]. *)
Definition next_params (data : json) (params : gmap string json)
  : gmap string json :=
  match next_page_key data with
  | Some key => <["pageKey" := key]> params
  | None => params
  end.

Fixpoint params_after (params : gmap string json) (answers : list json)
  : gmap string json :=
  match answers with
  | [] => params
  | data :: rest => params_after (next_params data params) rest
  end.

(** One request per answer: the first with [params], each next one with
    the next-page key of the answer before as 'pageKey'. *)
Fixpoint requests (url : string) (params : gmap string json)
    (answers : list json) : list event :=
  match answers with
  | [] => []
  | data :: rest =>
      EGet url params :: requests url (next_params data params) rest
  end.

(** A page with its items, and a next-page key when one is given. *)
Definition page (items : list json) (key : option json) : json :=
  JDict [("resultList",
          JDict (("result", JList items)
                 :: match key with
                    | Some k => [("nextPageKey", k)]
                    | None => []
                    end))].

(** A session that answers the successive requests with [pages], each
    with status 200, and times out after the last one. *)
Definition serve (pages : list json) : nat → http_outcome :=
  λ n, match pages !! n with
       | Some data => Responds (Response 200 (Some data))
       | None => Fails (Exn "ReadTimeout" "read timed out")
       end.

End UniVmax.

(** ** Sample worlds

    Concrete answers of the API, used to run the definitions. *)

Module Sample.

Definition rdf_info (groups : list json) : json :=
  JDict [("rdfGroupInfo", JList groups)].

Definition pairing (number : Z) : json :=
  JDict [("rdfgNumber", JInt number); ("state", JStr "Synchronized");
         ("mode", JStr "Synchronous"); ("status", JStr "Ready")].

Definition timeout : exn := Exn "ConnectTimeout" "connection timed out".

(** A server that answers every request with the same status and body. *)
Definition constant (status : Z) (data : option json) : string → http_outcome :=
  λ _, Responds (Response status data).

(** A server that answers [200] with one pairing for every target but
    [bad], whose request times out. *)
Definition all_but (bad : string) : string → http_outcome :=
  λ url, if String.eqb url (Rdf.rdf_url bad)
         then Fails timeout
         else Responds (Response 200 (Some (rdf_info [pairing 1]))).

Definition rdf_world (answer : string → http_outcome) : Rdf.env :=
  Rdf.Env answer (λ _, "20240101_120000").

(** The inventory ["SG1"; "SG2"]. *)
Definition two_groups : json :=
  JDict [("name", JList [JStr "SG1"; JStr "SG2"])].

(** A collector world: [startup] answers the inventory request, every
    target answers with one pairing, the clock advances by [elapsed]
    seconds during a pass, and the server accepts every row. *)
Definition sql_world (startup : string → http_outcome) (elapsed : float)
  : RdfSql.env :=
  RdfSql.Env startup
    (λ _, constant 200 (Some (rdf_info [pairing 1])))
    (λ n, if Nat.even n then 1704110400 else 1704110400 + elapsed)%float
    (λ _, 1704110400%Z)
    (λ _, None)
    (λ _, true).

End Sample.

(** ** rdf.py: what a run requests and reports *)

Module RdfReport.

Definition is_get (e : Rdf.event) : bool :=
  match e with Rdf.EGet _ _ => true | _ => false end.

(** The request [get_rdf_status] makes for a target. *)
Definition poll (sg_name : string) : Rdf.event :=
  Rdf.EGet (Rdf.rdf_url sg_name) (Some 30).

(** The URL [main] asks the inventory from. *)
Definition inventory_url : string :=
  "https://" +:+ Rdf.UNISPHERE_IP
  +:+ "/univmax/restapi/90/replication/symmetrix/"
  +:+ Rdf.SYMMETRIX_ID +:+ "/storagegroup?rdf=true".

(** [rdf_group.get(k)] on a mapping. *)
Definition field (rdf_group : json) (k : string) : json :=
  match rdf_group with
  | JDict kvs => default JNull (assoc k kvs)
  | _ => JNull
  end.

(** The CSV row of one RDF pairing of the target [sg]. *)
Definition pairing_row (sg : string) (rdf_group : json) : list json :=
  [JStr sg; field rdf_group "rdfgNumber"; field rdf_group "state";
   field rdf_group "mode"; field rdf_group "status"].

(** The CSV rows of one result [{sg: data}]: one per pairing listed under
    'rdfGroupInfo', none for an error string or a mapping without the
    key. *)
Definition item_rows (item : string * json) : list (list json) :=
  match item.2 with
  | JDict kvs =>
      match assoc "rdfGroupInfo" kvs with
      | Some (JList rdf_groups) => pairing_row item.1 <$> rdf_groups
      | _ => []
      end
  | _ => []
  end.

Definition result_rows (result : json) : list (list json) :=
  match result with
  | JDict items => concat (item_rows <$> items)
  | _ => []
  end.

(** The rows of the CSV summary of a batch: the header, then the rows of
    the results in order. *)
Definition summary (results : list json) : list (list json) :=
  Rdf.csv_header :: concat (result_rows <$> results).

End RdfReport.

(** ** More sample worlds *)

Module Sample2.

(** A server for rdf.py: [inventory] answers the inventory request, with
    the status [status]; every target answers 200 with one pairing. *)
Definition rdf_server (status : Z) (inventory : option json)
  : string → http_outcome :=
  λ url, if String.eqb url RdfReport.inventory_url
         then Responds (Response status inventory)
         else Responds (Response 200 (Some (Sample.rdf_info [Sample.pairing 1]))).

End Sample2.

(** ** rdf_sql.py: what a pass requests and inserts *)

Module RdfSqlPass.

Definition is_get (e : RdfSql.event) : bool :=
  match e with RdfSql.EGet _ _ => true | _ => false end.

(** A request made with no timeout: the startup request of [main]. *)
Definition is_untimed_get (e : RdfSql.event) : bool :=
  match e with RdfSql.EGet _ None => true | _ => false end.

(** The request [get_rdf_status] makes for a target. *)
Definition poll (sg_name : string) : RdfSql.event :=
  RdfSql.EGet (RdfSql.rdf_url sg_name) (Some 30).

(** A pairing [create_rdf_status_record] makes a row of: a mapping whose
    'lastSyncTime' is missing, falsy, or a string in the expected
    format. *)
Definition well_formed (w : RdfSql.env) (rdf_data : json) : bool :=
  match rdf_data with
  | JDict kvs =>
      match assoc "lastSyncTime" kvs with
      | None => true
      | Some last_sync =>
          if truthy last_sync
          then match last_sync with
               | JStr s => bool_decide (is_Some (RdfSql.strptime w s))
               | _ => false
               end
          else true
      end
  | _ => false
  end.

(** The line printed for a target that is left out of the count. *)
Definition error_line (sg_name : string) (err : json) : RdfSql.event :=
  RdfSql.EPrint [RdfSql.FText "Error processing "; RdfSql.FText sg_name;
                 RdfSql.FText ": "; RdfSql.FJson err].

Definition exception_line (sg_name : string) (e : exn) : RdfSql.event :=
  RdfSql.EPrint [RdfSql.FText "Exception processing "; RdfSql.FText sg_name;
                 RdfSql.FText ": "; RdfSql.FText (exn_msg e)].

(** The events of a pass over no target at all. *)
Definition idle_pass : list RdfSql.event :=
  [RdfSql.EConnect; RdfSql.ECommit; RdfSql.ECursorClose; RdfSql.EClose].

End RdfSqlPass.

(** ** Sample servers for rdf_sql.py *)

Module RdfSqlRun.

Definition is_print (e : RdfSql.event) : bool :=
  match e with RdfSql.EPrint _ => true | _ => false end.

(** The target answers 200 with a mapping whose 'rdfGroupInfo' is the
    list [pairings]. *)
Definition answers_with (session : string → http_outcome) (sg_name : string)
    (pairings : list json) : Prop :=
  ∃ r kvs, session (RdfSql.rdf_url sg_name) = Responds r
           ∧ status_code r = 200%Z
           ∧ body r = Some (JDict kvs)
           ∧ assoc "rdfGroupInfo" kvs = Some (JList pairings).

(** A collector world where every request, at startup and in every
    pass, is answered by [server], the clock stands still, no date
    parses, and the database accepts every row. *)
Definition world (server : string → http_outcome) : RdfSql.env :=
  RdfSql.Env server (λ _, server) (λ _, 1704110400%float)
    (λ _, 1704110400%Z)
    (λ _, None) (λ _, true).

End RdfSqlRun.

(** ** The inventory answer of rdf_sql.py *)

Module RdfSqlStartup.

(** A body of a 200 answer that [main] cannot take targets from: it is
    not JSON, or not a mapping, or its 'name' is a value without a
    length. *)
Definition unusable (body : option json) : bool :=
  match body with
  | None => true
  | Some (JDict kvs) =>
      match assoc "name" kvs with
      | Some (JNull | JBool _ | JInt _ | JFloat _) => true
      | _ => false
      end
  | Some _ => true
  end.

(** The value [main] reads the targets from. *)
Definition listed (kvs : list (string * json)) : json :=
  default (JList []) (assoc "name" kvs).

End RdfSqlStartup.

(** ** Requests of the paginated fetch *)

Module UniVmaxRequests.

(** The parameters a request of [_get_paginated(url, params, limit)] may
    carry: the page size asked for, and the caller's parameters under
    every key but 'pageKey'. *)
Definition carries (limit : Z) (caller : option (gmap string json))
    (sent : gmap string json) : Prop :=
  sent !! "pageSize" = Some (JInt limit)
  ∧ ∀ k, k ≠ "pageSize" → k ≠ "pageKey" → sent !! k = default ∅ caller !! k.

Definition request_carries (url : string) (limit : Z)
    (caller : option (gmap string json)) (e : UniVmax.event) : Prop :=
  match e with
  | UniVmax.EGet url' sent => url' = url ∧ carries limit caller sent
  end.

(** The requests the loop of [_get_paginated] makes in its first [fuel]
    iterations, from request number [n] on: all its requests when it
    ends within them, and [fuel] requests when it is still running. *)
Fixpoint requests_made (session : nat → http_outcome) (url : string)
    (fuel n : nat) (params : gmap string json) (results : list json)
  : list UniVmax.event :=
  match fuel with
  | 0 => []
  | S fuel' =>
      let step := UniVmax.page_step (session n) url params results in
      trace step
      ++ match outcome step with
         | Ok (UniVmax.Continue params' results') =>
             requests_made session url fuel' (S n) params' results'
         | _ => []
         end
  end.

(** The requests of [_get_paginated(url, params, limit)] within its first
    [fuel] iterations. *)
Definition sent (session : nat → http_outcome) (url : string)
    (params : option (gmap string json)) (limit : Z) (fuel : nat)
  : list UniVmax.event :=
  let params := default ∅ params in
  let params := <["pageSize" := JInt limit]> params in
  requests_made session url fuel 0 params [].

(** A server that answers every request with the same page, whose
    next-page key is [key]. *)
Definition stuck (key : json) : nat → http_outcome :=
  λ _, Responds (Response 200 (Some (UniVmax.page [JInt 1] (Some key)))).

End UniVmaxRequests.

(** ** uniVmax_rdf.py: the reports

    The [print_*] functions, with a line given to [print] as the list
    of its pieces: a value put in an f-string stays the value, and a
    number formatted with a precision stays the float that is
    formatted. *)

Module UniVmaxReport.

Inductive piece : Type :=
| Text (s : string)
| Str (v : json)
| Fixed (grouped : bool) (digits : nat) (x : float)
| Joined (sep : string) (vs : list json).

(** [EGet]: a request made with no query parameters. *)
Inductive event : Type :=
| EGet (url : list piece)
| EPrint (line : list piece).

(** The newline character, code 10. *)
Definition nl : string :=
  String (Ascii.Ascii false true false true false false false false) "".

(** [s * n] *)
Fixpoint py_mul (s : string) (n : nat) : string :=
  match n with
  | 0 => ""
  | S n' => s +:+ py_mul s n'
  end.

Definition heading (title : string) : M event unit :=
  emit (EPrint [Text (nl +:+ title)]) >>
  emit (EPrint [Text (py_mul "=" 50)]).

(** A Python number: an [int] of any size, or a float. *)
Inductive number : Type :=
| NInt (n : Z)
| NFloat (x : float).

(** The number a value is; a [bool] is an [int]. *)
Definition number_of (v : json) : option number :=
  match v with
  | JBool b => Some (NInt (if b then 1 else 0))
  | JInt n => Some (NInt n)
  | JFloat x => Some (NFloat x)
  | _ => None
  end.

(** [float(n)] for an [int]: the nearest float, ties to even; an [int]
    that rounds beyond the largest float raises. *)
Definition float_of_int (n : Z) : result float :=
  match binary_normalize prec emax n 0 false with
  | S754_infinity _ =>
      Raise (Exn "OverflowError" "int too large to convert to float")
  | x => Ok (SF2Prim x)
  end.

Definition to_float (n : number) : result float :=
  match n with
  | NInt z => float_of_int z
  | NFloat x => Ok x
  end.

(** [a / b] for two [int]s, [b] not 0: the float nearest to the
    quotient, with the sign of the quotient also when it is 0. *)
Definition int_truediv (a b : Z) : result float :=
  let negative := xorb (a <? 0)%Z (b <? 0)%Z in
  let '(q, e, l) :=
    SFdiv_core_binary prec emax (Z.abs a) 0 (Z.abs b) 0 in
  match binary_round_aux prec emax negative q e l with
  | S754_infinity _ =>
      Raise (Exn "OverflowError"
               "integer division result too large for a float")
  | x => Ok (SF2Prim x)
  end.

(** [v[0]] *)
Definition py_index0 (v : json) : result json :=
  match v with
  | JList [] => Raise (Exn "IndexError" "list index out of range")
  | JList (x :: _) => Ok x
  | JStr EmptyString => Raise (Exn "IndexError" "string index out of range")
  | JStr (String c _) => Ok (JStr (String c EmptyString))
  | JDict _ => Raise (Exn "KeyError" "0")
  | _ => Raise (TypeError ("'" +:+ type_name v
                           +:+ "' object is not subscriptable"))
  end.

(** [f"{v:,.2f}"] and the like: [format(v, spec)] with a spec in [f].
    An [int] is formatted as the float it converts to. *)
Definition format_f (grouped : bool) (digits : nat) (v : json)
  : result piece :=
  match number_of v with
  | Some n => let? x := to_float n in Ok (Fixed grouped digits x)
  | None =>
      match v with
      | JStr _ =>
          Raise (Exn "ValueError"
                   "Unknown format code 'f' for object of type 'str'")
      | _ =>
          Raise (TypeError ("unsupported format string passed to "
                            +:+ type_name v +:+ ".__format__"))
      end
  end.

(** [a / b]: between two [int]s the quotient is rounded once; with a
    float on either side both are converted, the left one first, and
    divided as floats. *)
Definition py_truediv (a b : json) : result float :=
  match number_of a, number_of b with
  | Some (NInt x), Some (NInt y) =>
      if (y =? 0)%Z
      then Raise (Exn "ZeroDivisionError" "division by zero")
      else int_truediv x y
  | Some x, Some y =>
      let? x' := to_float x in
      let? y' := to_float y in
      if (y' =? 0)%float
      then Raise (Exn "ZeroDivisionError" "float division by zero")
      else Ok (x' / y')%float
  | _, _ =>
      Raise (TypeError ("unsupported operand type(s) for /: '"
                        +:+ type_name a +:+ "' and '" +:+ type_name b
                        +:+ "'"))
  end.

(** [v > 0] *)
Definition py_gt0 (v : json) : result bool :=
  match number_of v with
  | Some (NInt n) => Ok (0 <? n)%Z
  | Some (NFloat x) => Ok (0 <? x)%float
  | None =>
      Raise (TypeError ("'>' not supported between instances of '"
                        +:+ type_name v +:+ "' and 'int'"))
  end.

(** [f"{a:,.2f} ({a/b*100:.1f}%)"] *)
Definition with_share (a b : json) : result (list piece) :=
  let? amount := format_f true 2 a in
  let? share := py_truediv a b in
  Ok [amount; Text " ("; Fixed false 1 (share * 100)%float; Text "%)"].

(** [print_capacity_info(capacity_data)] *)
Definition print_capacity_info (capacity_data : json) : M event unit :=
  heading "Array Capacity Information:" >>
  let! symmetrix :=
    lift (py_get capacity_data "symmetrix" (JList [JDict []])) in
  let! symmetrix_info := lift (py_index0 symmetrix) in
  let! total_cap := lift (py_get symmetrix_info "total_cap_gb" (JInt 0)) in
  let! used_cap := lift (py_get symmetrix_info "used_cap_gb" (JInt 0)) in
  let! free_cap := lift (py_get symmetrix_info "free_cap_gb" (JInt 0)) in
  let! sub_cap :=
    lift (py_get symmetrix_info "subscribed_cap_gb" (JInt 0)) in
  let! total := lift (format_f true 2 total_cap) in
  emit (EPrint [Text "Total Capacity (GB): "; total]) >>
  let! used := lift (with_share used_cap total_cap) in
  emit (EPrint (Text "Used Capacity (GB): " :: used)) >>
  let! free := lift (with_share free_cap total_cap) in
  emit (EPrint (Text "Free Capacity (GB): " :: free)) >>
  let! subscribed := lift (with_share sub_cap total_cap) in
  emit (EPrint (Text "Subscribed Capacity (GB): " :: subscribed)) >>
  let! in_use := lift (py_gt0 used_cap) in
  if in_use : bool
  then
    let! ratio := lift (py_truediv sub_cap used_cap) in
    emit (EPrint [Text "Subscription Ratio: "; Fixed false 2 ratio;
                  Text ":1"])
  else emit (EPrint [Text "N/A"]).

(** [print_health_status(health_data)] *)
Definition print_health_status (health_data : json) : M event unit :=
  heading "Array Health Status:" >>
  let! health_info := lift (py_get health_data "health" (JDict [])) in
  let! score := lift (py_get health_info "health_score" (JDict [])) in
  let! status := lift (py_get score "symmetrix_health" (JStr "Unknown")) in
  let! num_alerts :=
    lift (py_get health_info "num_failed_components" (JInt 0)) in
  emit (EPrint [Text "Overall Health Status: "; Str status]) >>
  emit (EPrint [Text "Number of Active Alerts: "; Str num_alerts]) >>
  let! components :=
    lift (py_get health_info "component_health" (JList [])) in
  if truthy components
  then
    emit (EPrint [Text (nl +:+ "Component Health:")]) >>
    let! comps := lift (py_iter components) in
    for_each comps (λ comp,
      let! name := lift (py_get comp "name" (JStr "Unknown")) in
      let! status := lift (py_get comp "status" (JStr "Unknown")) in
      emit (EPrint [Text "  "; Str name; Text ": "; Str status]))
  else m_ret tt.

(** The client, as the reports use it: where it sends its requests,
    and what the session answers to the request for the details of a
    replication group. *)
Record client := Client {
  base_url : string;
  api_version : string;
  details_get : json → http_outcome
}.

Definition details_url (c : client) (array_id : string)
    (rdf_group_number : json) : list piece :=
  [Text (base_url c +:+ "/" +:+ api_version c
         +:+ "/replication/symmetrix/" +:+ array_id +:+ "/rdf_group/");
   Str rdf_group_number].

(** [client.get_replication_group_details(array_id, rdf_group_number)] *)
Definition get_replication_group_details (c : client) (array_id : string)
    (rdf_group_number : json) : M event json :=
  emit (EGet (details_url c array_id rdf_group_number)) >>
  let! response :=
    match details_get c rdf_group_number with
    | Fails e => raise e
    | Responds r => m_ret r
    end in
  let! _ := lift (UniVmax.raise_for_status response) in
  lift (response_json response).

(** The body of [for group in replication_groups]. *)
Definition print_replication_group (c : client) (array_id : string)
    (group : json) : M event unit :=
  let! rdfg_number := lift (py_get group "rdfgNumber" JNull) in
  if truthy rdfg_number
  then
    let! details := get_replication_group_details c array_id rdfg_number in
    emit (EPrint [Text (nl +:+ "RDF Group "); Str rdfg_number; Text ":"]) >>
    let! label := lift (py_get group "label" (JStr "N/A")) in
    emit (EPrint [Text "  Label: "; Str label]) >>
    let! type := lift (py_get group "type" (JStr "N/A")) in
    emit (EPrint [Text "  Type: "; Str type]) >>
    let! states := lift (py_get details "states" (JDict [])) in
    let! state := lift (py_get states "state" (JStr "N/A")) in
    emit (EPrint [Text "  State: "; Str state]) >>
    let! modes := lift (py_get details "modes" (JDict [])) in
    let! mode := lift (py_get modes "mode" (JStr "N/A")) in
    emit (EPrint [Text "  Mode: "; Str mode]) >>
    let! remote := lift (py_get details "remoteSymmetrix" (JStr "N/A")) in
    emit (EPrint [Text "  Remote Symmetrix: "; Str remote]) >>
    let! pairs := lift (py_get details "numDevices" (JInt 0)) in
    emit (EPrint [Text "  Number of Pairs: "; Str pairs])
  else m_ret tt.

(** [print_replication_groups(replication_groups, client, array_id)] *)
Definition print_replication_groups (replication_groups : json)
    (c : client) (array_id : string) : M event unit :=
  heading "Replication Groups Status:" >>
  if negb (truthy replication_groups)
  then emit (EPrint [Text "No replication groups found"])
  else
    let! groups := lift (py_iter replication_groups) in
    for_each groups (print_replication_group c array_id).

(** The body of [for sg in storage_groups]. *)
Definition print_storage_group (sg : json) : M event unit :=
  let! id := lift (py_get sg "storageGroupId" JNull) in
  emit (EPrint [Text (nl +:+ "Storage Group: "); Str id]) >>
  let! srp := lift (py_get sg "srp" (JStr "N/A")) in
  emit (EPrint [Text "  SRP: "; Str srp]) >>
  let! level := lift (py_get sg "service_level" (JStr "N/A")) in
  emit (EPrint [Text "  Service Level: "; Str level]) >>
  let! rdfgs := lift (py_get sg "rdfgs" (JList [])) in
  let! numbers := lift (py_iter rdfgs) in
  emit (EPrint [Text "  RDF Groups: "; Joined ", " numbers]) >>
  let! mode := lift (py_get sg "replication_mode" (JStr "N/A")) in
  emit (EPrint [Text "  Replication Mode: "; Str mode]).

(** [print_storage_groups_with_replication(storage_groups)] *)
Definition print_storage_groups_with_replication (storage_groups : json)
  : M event unit :=
  heading "Storage Groups with Replication:" >>
  if negb (truthy storage_groups)
  then emit (EPrint [Text "No storage groups with replication found"])
  else
    let! groups := lift (py_iter storage_groups) in
    for_each groups print_storage_group.

Definition is_get (e : event) : bool :=
  match e with EGet _ => true | _ => false end.
Definition is_print (e : event) : bool :=
  match e with EPrint _ => true | _ => false end.

(** The first entry under 'symmetrix', where the capacities are read:
    an empty mapping when the key is missing. *)
Definition capacities (capacity_data : json) : option json :=
  match capacity_data with
  | JDict kvs =>
      match default (JList [JDict []]) (assoc "symmetrix" kvs) with
      | JList (info :: _) => Some info
      | _ => None
      end
  | _ => None
  end.

(** The value under [key] of an entry, 0 when the key is missing. *)
Definition capacity (info : json) (key : string) : option json :=
  match info with
  | JDict kvs => Some (default (JInt 0) (assoc key kvs))
  | _ => None
  end.

(** A zero: 0, [False], 0.0 or -0.0. *)
Definition is_zero (v : json) : bool :=
  match number_of v with
  | Some (NInt n) => (n =? 0)%Z
  | Some (NFloat x) => (x =? 0)%float
  | None => false
  end.

(** A number that can be formatted: a float, or an [int] that converts
    to one. *)
Definition formats (v : json) : bool :=
  match number_of v with
  | Some n => is_ok (to_float n)
  | None => false
  end.

(** The groups a report asks the details of: those with a truthy
    'rdfgNumber'. *)
Definition numbered (groups : list json) : list json :=
  omap (λ group,
          match group with
          | JDict kvs =>
              match assoc "rdfgNumber" kvs with
              | Some n => if truthy n then Some n else None
              | None => None
              end
          | _ => None
          end) groups.

(** Details the report can print: a mapping whose 'states' and
    'modes', when it has them, are mappings. *)
Definition printable_details (details : json) : bool :=
  match details with
  | JDict kvs =>
      isinstance_dict (default (JDict []) (assoc "states" kvs))
      && isinstance_dict (default (JDict []) (assoc "modes" kvs))
  | _ => false
  end.

(** The request for the details of group [number] is answered, under a
    status that [raise_for_status] lets through, with details the
    report can print. *)
Definition details_ok (c : client) (number : json) : Prop :=
  ∃ r details,
    details_get c number = Responds r
    ∧ UniVmax.raise_for_status r = Ok tt
    ∧ body r = Some details
    ∧ printable_details details = true.

(** The request for the details of group [number] raises [e]: in the
    session, or in [raise_for_status]. *)
Definition details_fail (c : client) (number : json) (e : exn) : Prop :=
  details_get c number = Fails e
  ∨ ∃ r, details_get c number = Responds r
         ∧ UniVmax.raise_for_status r = Raise e.

(** A client whose every details request gets the same answer. *)
Definition sample_client (answer : http_outcome) : client :=
  Client "https://unisphere/univmax/restapi" "90" (λ _, answer).

End UniVmaxReport.

(** * Properties *)

(** ** The effect monad *)

Section MonadFacts.
Context {E : Type}.

Lemma m_bind_ok {A B} (m : M E A) (f : A → M E B) a :
  outcome m = Ok a →
  m_bind m f = MkM (trace m ++ trace (f a)) (outcome (f a)).
Proof. unfold m_bind. by intros ->. Qed.

Lemma m_bind_raise {A B} (m : M E A) (f : A → M E B) e :
  outcome m = Raise e → m_bind m f = MkM (trace m) (Raise e).
Proof. unfold m_bind. by intros ->. Qed.

Lemma trace_bind {A B} (m : M E A) (f : A → M E B) :
  trace (m_bind m f)
  = match outcome m with
    | Ok a => trace m ++ trace (f a)
    | Raise _ => trace m
    end.
Proof. unfold m_bind. by destruct (outcome m). Qed.

Lemma outcome_bind {A B} (m : M E A) (f : A → M E B) :
  outcome (m_bind m f)
  = match outcome m with
    | Ok a => outcome (f a)
    | Raise e => Raise e
    end.
Proof. unfold m_bind. by destruct (outcome m). Qed.

Lemma bind_emit {B} (e : E) (k : M E B) :
  (emit e >> k) = MkM (e :: trace k) (outcome k).
Proof. reflexivity. Qed.

Lemma bind_lift_ok {A B} (a : A) (f : A → M E B) :
  m_bind (lift (Ok a)) f = MkM (trace (f a)) (outcome (f a)).
Proof. reflexivity. Qed.

(** Events of one kind only: the property goes through [bind] and
    loops. *)
Lemma trace_bind_Forall {A B} (P : E → Prop) (m : M E A) (f : A → M E B) :
  Forall P (trace m) →
  (∀ a, outcome m = Ok a → Forall P (trace (f a))) →
  Forall P (trace (m_bind m f)).
Proof.
  intros Hm Hf. rewrite trace_bind.
  destruct (outcome m) as [a|]; [|done].
  apply Forall_app_2; [done | by apply Hf].
Qed.

Lemma for_each_Forall {A} (P : E → Prop) (xs : list A) body :
  (∀ x, x ∈ xs → Forall P (trace (body x))) →
  Forall P (trace (for_each xs body)).
Proof.
  induction xs as [|x xs IH]; intros Hb; simpl; [constructor|].
  apply trace_bind_Forall.
  - apply Hb. by left.
  - intros _ _. apply IH. intros x' Hx'. apply Hb. by right.
Qed.

Lemma lift_Forall {A} (P : E → Prop) (r : result A) :
  Forall P (trace (lift (E:=E) r)).
Proof. constructor. Qed.

Lemma trace_try_except {A} (m : M E A) (h : exn → M E A) :
  trace (try_except m h)
  = match outcome m with
    | Ok _ => trace m
    | Raise e => trace m ++ trace (h e)
    end.
Proof. unfold try_except. by destruct (outcome m). Qed.

Lemma outcome_try_except {A} (m : M E A) (h : exn → M E A) :
  outcome (try_except m h)
  = match outcome m with
    | Ok a => Ok a
    | Raise e => outcome (h e)
    end.
Proof. unfold try_except. by destruct (outcome m) eqn:Hm. Qed.

Lemma try_except_Forall {A} (P : E → Prop) (m : M E A) h :
  Forall P (trace m) → (∀ e, Forall P (trace (h e))) →
  Forall P (trace (try_except m h)).
Proof.
  intros Hm Hh. rewrite trace_try_except.
  destruct (outcome m); [done | by apply Forall_app_2].
Qed.

Lemma join_with_cons (sep block : list E) (blocks : list (list E)) :
  blocks ≠ [] →
  join_with sep (block :: blocks) = block ++ sep ++ join_with sep blocks.
Proof. by destruct blocks. Qed.

Lemma filter_none (P : E → Prop) `{!∀ e, Decision (P e)} (l : list E) :
  Forall (λ e, ¬ P e) l → filter P l = [].
Proof.
  induction l as [|e l IH]; [done|]. intros [He Hl]%Forall_cons.
  rewrite filter_cons_False by done. by apply IH.
Qed.

(** A separator occurs between two blocks, and only there. *)
Lemma join_with_count (P : E → Prop) `{!∀ e, Decision (P e)}
    (s : E) (blocks : list (list E)) :
  P s → Forall (Forall (λ e, ¬ P e)) blocks →
  length (filter P (join_with [s] blocks)) = length blocks - 1.
Proof.
  intros Hs. induction blocks as [|block blocks IH]; [done|].
  intros [Hb Hbs]%Forall_cons. destruct blocks as [|block' blocks].
  - cbn [join_with]. by rewrite filter_none.
  - rewrite join_with_cons by done.
    rewrite filter_app, filter_none, app_nil_l by done.
    cbn [app]. rewrite filter_cons_True by done.
    cbn [length] in *. rewrite IH by done. lia.
Qed.

(** The trace ends as its last block does. *)
Lemma join_with_last (sep : list E) (blocks : list (list E)) (b : list E) :
  last blocks = Some b → b ≠ [] → last (join_with sep blocks) = last b.
Proof.
  intros Hlast Hb. induction blocks as [|block blocks IH]; [done|].
  destruct blocks as [|block' blocks].
  - by injection Hlast as ->.
  - rewrite join_with_cons by done. rewrite last_cons_cons in Hlast.
    specialize (IH Hlast).
    assert (is_Some (last b)) as [e He] by by apply last_is_Some.
    rewrite He in IH. rewrite !last_app, IH. done.
Qed.

(** Mapping a function that never raises gives one result per item, in
    the order of the items. *)
Lemma map_m_total {A B} (f : A → M E B) (xs : list A) :
  (∀ x, x ∈ xs → is_ok (outcome (f x)) = true) →
  ∃ ys, outcome (map_m f xs) = Ok ys
        ∧ Forall2 (λ x y, outcome (f x) = Ok y) xs ys.
Proof.
  induction xs as [|x xs IH]; intros Hf; simpl.
  - by exists [].
  - destruct IH as (ys & Hys & Hall).
    { intros x' Hx'. apply Hf. by right. }
    pose proof (Hf x (list_elem_of_here x xs)) as Hx.
    destruct (outcome (f x)) as [y|] eqn:Hy; [|done].
    exists (y :: ys). split.
    + rewrite (m_bind_ok _ _ y Hy). simpl.
      by rewrite (m_bind_ok _ _ ys Hys).
    + by constructor.
Qed.

Lemma for_each_total {A} (body : A → M E unit) (xs : list A) :
  (∀ x, x ∈ xs → outcome (body x) = Ok tt) →
  outcome (for_each xs body) = Ok tt.
Proof.
  induction xs as [|x xs IH]; intros Hb; simpl; [done|].
  rewrite (m_bind_ok _ _ tt); [|apply Hb; by left]. simpl.
  apply IH. intros x' Hx'. apply Hb. by right.
Qed.
End MonadFacts.

(** ** Batching: lemmas *)

Section Batching.
Context {A : Type}.
Implicit Types (l : list A) (B k n : nat).

Lemma range_from_length fuel start stop step :
  0 < step → stop ≤ start + fuel →
  length (range_from fuel start stop step) * step < (stop - start) + step
  ∧ stop - start ≤ length (range_from fuel start stop step) * step.
Proof.
  revert start. induction fuel as [|fuel IH]; intros start Hs Hf; simpl.
  - lia.
  - destruct (Nat.ltb_spec start stop); simpl; [|lia].
    destruct (IH (start + step)) as [H1 H2]; [lia..|].
    destruct (length (range_from fuel (start + step) stop step));
      simpl in *; lia.
Qed.

Lemma range_from_lookup fuel start stop step k i :
  range_from fuel start stop step !! k = Some i → i = start + k * step.
Proof.
  revert start k. induction fuel as [|fuel IH]; intros start k; simpl.
  - by rewrite lookup_nil.
  - destruct (start <? stop); [|by rewrite lookup_nil].
    destruct k as [|k]; simpl.
    + intros [= <-]. lia.
    + intros H%IH. lia.
Qed.

Lemma range_from_concat fuel start stop step l :
  0 < step → stop ≤ start + fuel → stop = length l →
  concat ((λ i, py_slice l i (i + step)) <$> range_from fuel start stop step)
  = drop start l.
Proof.
  intros Hs. revert start.
  induction fuel as [|fuel IH]; intros start Hf Hl; simpl.
  - rewrite drop_ge; [done | lia].
  - destruct (Nat.ltb_spec start stop); simpl.
    + rewrite IH by lia. unfold py_slice.
      replace (start + step - start) with step by lia.
      rewrite <- (take_drop step (drop start l)) at 2.
      by rewrite drop_drop.
    + rewrite drop_ge; [done | lia].
Qed.
End Batching.

(** C1. For every list of N targets and every batch size B > 0, the
    splitting step yields exactly ceil(N/B) batches; the k-th batch is the
    contiguous slice of B targets starting at position k*B (shorter at the
    end of the list); and the batches concatenated in order are the
    original list. *)
Theorem split_batches_partition {A} (B : nat) (l : list A) :
  0 < B →
  ∃ batches,
    split_batches B l = Ok batches
    ∧ length batches = (length l + (B - 1)) / B
    ∧ (∀ k b, batches !! k = Some b → b = take B (drop (k * B) l))
    ∧ concat batches = l.
Proof.
  intros HB. unfold split_batches, py_range.
  destruct (Nat.eqb_spec B 0) as [->|_]; [lia|]. simpl.
  eexists; split; [reflexivity|]. split; [|split].
  - rewrite length_fmap.
    destruct (range_from_length (length l) 0 (length l) B) as [H1 H2];
      [lia..|].
    set (n := length (range_from _ _ _ _)) in *.
    apply (Nat.div_unique _ _ _ (length l + (B - 1) - n * B)); lia.
  - intros k b. rewrite list_lookup_fmap.
    destruct (range_from _ _ _ _ !! k) as [i|] eqn:Hk; simpl; [|done].
    intros [= <-]. apply range_from_lookup in Hk as ->. unfold py_slice.
    f_equal. lia.
  - by rewrite (range_from_concat _ 0 (length l) B l) by lia.
Qed.

Lemma split_batches_partition_witness :
  ∃ batches,
    split_batches 2 ["SG1"; "SG2"; "SG3"] = Ok batches
    ∧ length batches = (3 + (2 - 1)) / 2
    ∧ (∀ k b, batches !! k = Some b
              → b = take 2 (drop (k * 2) ["SG1"; "SG2"; "SG3"]))
    ∧ concat batches = ["SG1"; "SG2"; "SG3"].
Proof. apply (split_batches_partition 2 ["SG1"; "SG2"; "SG3"]). lia. Defined.


(** ** rdf.py: one fetch *)

Section RdfFetch.
Import Rdf.
Variable w : env.

Lemma rdf_fetch_fails sg e :
  session_get w (rdf_url sg) = Fails e →
  get_rdf_status w sg
  = MkM [EGet (rdf_url sg) (Some 30)]
        (Ok (JDict [(sg, JStr ("Exception: " +:+ exn_msg e))])).
Proof.
  intros H. unfold get_rdf_status, http_get, try_except, m_bind. simpl.
  by rewrite H.
Qed.

Lemma rdf_fetch_200 sg r v :
  session_get w (rdf_url sg) = Responds r →
  status_code r = 200%Z → body r = Some v →
  get_rdf_status w sg
  = MkM [EGet (rdf_url sg) (Some 30)] (Ok (JDict [(sg, v)])).
Proof.
  intros H Hs Hb.
  unfold get_rdf_status, http_get, try_except, m_bind, response_json. simpl.
  rewrite H. simpl. rewrite Hs. simpl. by rewrite Hb.
Qed.

Lemma rdf_fetch_other_status sg r :
  session_get w (rdf_url sg) = Responds r →
  status_code r ≠ 200%Z →
  get_rdf_status w sg
  = MkM [EGet (rdf_url sg) (Some 30)]
        (Ok (JDict [(sg, JStr ("Error: " +:+ pretty (status_code r)))])).
Proof.
  intros H Hs. apply Z.eqb_neq in Hs.
  unfold get_rdf_status, http_get, try_except, m_bind. simpl.
  rewrite H. simpl. by rewrite Hs.
Qed.

(** Whatever the session does, the fetch returns a mapping with the
    target as its only key, after exactly one request. *)
Lemma rdf_fetch_shape sg :
  ∃ v, get_rdf_status w sg
       = MkM [EGet (rdf_url sg) (Some 30)] (Ok (JDict [(sg, v)])).
Proof.
  destruct (session_get w (rdf_url sg)) as [e|r] eqn:H.
  - eexists. by apply rdf_fetch_fails.
  - destruct (decide (status_code r = 200%Z)) as [Hs|Hs].
    + destruct (body r) as [v|] eqn:Hb.
      * eexists. by eapply rdf_fetch_200.
      * eexists.
        unfold get_rdf_status, http_get, try_except, m_bind, response_json.
        simpl. rewrite H. simpl. rewrite Hs. simpl. rewrite Hb. simpl.
        reflexivity.
    + eexists. by apply rdf_fetch_other_status.
Qed.

(** The value paired with the target is the body of a 200 answer, or an
    error string made by the fetch itself. *)
Lemma rdf_entry_cases sg result :
  outcome (get_rdf_status w sg) = Ok result →
  ∃ data, result = JDict [(sg, data)]
          ∧ ((∃ r, session_get w (rdf_url sg) = Responds r
                   ∧ status_code r = 200%Z ∧ body r = Some data)
             ∨ (∃ msg, data = JStr msg)).
Proof.
  destruct (session_get w (rdf_url sg)) as [e|r] eqn:H.
  - rewrite (rdf_fetch_fails sg e H). simpl. intros [= <-]. eauto.
  - destruct (decide (status_code r = 200%Z)) as [Hs|Hs].
    + destruct (body r) as [v|] eqn:Hb.
      * rewrite (rdf_fetch_200 sg r v H Hs Hb). simpl. intros [= <-].
        eauto 10.
      * unfold get_rdf_status, http_get, try_except, m_bind, response_json.
        simpl. rewrite H. simpl. rewrite Hs. simpl. rewrite Hb. simpl.
        intros [= <-]. eauto.
    + rewrite (rdf_fetch_other_status sg r H Hs). simpl. intros [= <-].
      eauto.
Qed.

Lemma rdf_fetch_total sg : is_ok (outcome (get_rdf_status w sg)) = true.
Proof. destruct (rdf_fetch_shape sg) as [v ->]. done. Qed.

(** The results of a batch: one per target, in the order of the batch. *)
Lemma fetch_batch_results batch :
  ∃ results,
    outcome (fetch_batch w batch) = Ok results
    ∧ Forall2 (λ sg result, outcome (get_rdf_status w sg) = Ok result)
        batch results.
Proof. apply map_m_total. intros sg _. apply rdf_fetch_total. Qed.
End RdfFetch.

(** ** rdf_sql.py: one fetch *)

Section RdfSqlFetch.
Import RdfSql.
Variable session : string → http_outcome.

Lemma sql_fetch_fails sg e :
  session (rdf_url sg) = Fails e →
  get_rdf_status session sg
  = MkM [EGet (rdf_url sg) (Some 30)]
        (Ok (JDict [("error", JStr (exn_msg e))])).
Proof.
  intros H. unfold get_rdf_status, http_get, try_except, m_bind. simpl.
  by rewrite H.
Qed.

Lemma sql_fetch_200 sg r v :
  session (rdf_url sg) = Responds r →
  status_code r = 200%Z → body r = Some v →
  get_rdf_status session sg = MkM [EGet (rdf_url sg) (Some 30)] (Ok v).
Proof.
  intros H Hs Hb.
  unfold get_rdf_status, http_get, try_except, m_bind, response_json, lift.
  simpl. rewrite H. simpl. rewrite Hs. simpl. by rewrite Hb.
Qed.

Lemma sql_fetch_200_no_json sg r :
  session (rdf_url sg) = Responds r →
  status_code r = 200%Z → body r = None →
  ∃ msg, get_rdf_status session sg
         = MkM [EGet (rdf_url sg) (Some 30)]
               (Ok (JDict [("error", JStr msg)])).
Proof.
  intros H Hs Hb. eexists.
  unfold get_rdf_status, http_get, try_except, m_bind, response_json, lift.
  simpl. rewrite H. simpl. rewrite Hs. simpl. rewrite Hb. simpl.
  reflexivity.
Qed.

Lemma sql_fetch_other_status sg r :
  session (rdf_url sg) = Responds r →
  status_code r ≠ 200%Z →
  get_rdf_status session sg
  = MkM [EGet (rdf_url sg) (Some 30)]
        (Ok (JDict [("error", JStr ("HTTP " +:+ pretty (status_code r)))])).
Proof.
  intros H Hs. apply Z.eqb_neq in Hs.
  unfold get_rdf_status, http_get, try_except, m_bind. simpl.
  rewrite H. simpl. by rewrite Hs.
Qed.

(** The fetch makes one request and returns a value. *)
Lemma sql_fetch_shape sg :
  ∃ v, get_rdf_status session sg = MkM [EGet (rdf_url sg) (Some 30)] (Ok v).
Proof.
  destruct (session (rdf_url sg)) as [e|r] eqn:H.
  - eexists. by apply sql_fetch_fails.
  - destruct (decide (status_code r = 200%Z)) as [Hs|Hs].
    + destruct (body r) as [v|] eqn:Hb.
      * eexists. by eapply sql_fetch_200.
      * destruct (sql_fetch_200_no_json sg r H Hs Hb) as [msg ->]. eauto.
    + eexists. by apply sql_fetch_other_status.
Qed.
End RdfSqlFetch.

(** C4 (amended). A per-target fetch never raises. When the status code is
    200 and the body parses as JSON it returns the parsed body (in rdf.py
    under the target's name); for every other status code, 2xx or not, it
    returns an error value that embeds the status code. *)
Theorem fetch_by_status_code
    (w : Rdf.env) (session : string → http_outcome) (sg : string) :
  (is_ok (outcome (Rdf.get_rdf_status w sg)) = true
   ∧ is_ok (outcome (RdfSql.get_rdf_status session sg)) = true)
  ∧ (∀ r, Rdf.session_get w (Rdf.rdf_url sg) = Responds r →
       (status_code r = 200%Z → ∀ v, body r = Some v →
          outcome (Rdf.get_rdf_status w sg) = Ok (JDict [(sg, v)]))
       ∧ (status_code r ≠ 200%Z →
          outcome (Rdf.get_rdf_status w sg)
          = Ok (JDict [(sg, JStr ("Error: " +:+ pretty (status_code r)))])))
  ∧ (∀ r, session (RdfSql.rdf_url sg) = Responds r →
       (status_code r = 200%Z → ∀ v, body r = Some v →
          outcome (RdfSql.get_rdf_status session sg) = Ok v)
       ∧ (status_code r ≠ 200%Z →
          outcome (RdfSql.get_rdf_status session sg)
          = Ok (JDict [("error",
                        JStr ("HTTP " +:+ pretty (status_code r)))]))).
Proof.
  split; [split|split].
  - apply rdf_fetch_total.
  - destruct (sql_fetch_shape session sg) as [v ->]. done.
  - intros r H. split.
    + intros Hs v Hb. by rewrite (rdf_fetch_200 w sg r v).
    + intros Hs. by rewrite (rdf_fetch_other_status w sg r).
  - intros r H. split.
    + intros Hs v Hb. by rewrite (sql_fetch_200 session sg r v).
    + intros Hs. by rewrite (sql_fetch_other_status session sg r).
Qed.

(** The amended statement at a server that answers 404, and at one that
    answers 200. *)
Lemma fetch_by_status_code_witness :
  outcome (Rdf.get_rdf_status
             (Sample.rdf_world (Sample.constant 404 None)) "SG1")
  = Ok (JDict [("SG1", JStr "Error: 404")])
  ∧ outcome (RdfSql.get_rdf_status
               (Sample.constant 200 (Some (Sample.rdf_info []))) "SG1")
    = Ok (Sample.rdf_info []).
Proof.
  split.
  - pose proof (fetch_by_status_code
                  (Sample.rdf_world (Sample.constant 404 None))
                  (Sample.constant 404 None) "SG1") as (_ & H & _).
    destruct (H (Response 404 None) eq_refl) as [_ H404].
    rewrite H404; [reflexivity | discriminate].
  - pose proof (fetch_by_status_code
                  (Sample.rdf_world (Sample.constant 404 None))
                  (Sample.constant 200 (Some (Sample.rdf_info []))) "SG1")
      as (_ & _ & H).
    destruct (H (Response 200 (Some (Sample.rdf_info []))) eq_refl)
      as [H200 _].
    by apply H200.
Defined.

(** C4 as stated fails: a 201 answer is in the 2xx range, and both
    scripts turn it into an error value instead of returning its body. *)
Lemma fetch_201_is_an_error :
  let data := Sample.rdf_info [] in
  let r := Response 201 (Some data) in
  (200 ≤ status_code r < 300)%Z
  ∧ outcome (Rdf.get_rdf_status
               (Sample.rdf_world (Sample.constant 201 (Some data))) "SG1")
    = Ok (JDict [("SG1", JStr "Error: 201")])
  ∧ outcome (Rdf.get_rdf_status
               (Sample.rdf_world (Sample.constant 201 (Some data))) "SG1")
    ≠ Ok (JDict [("SG1", data)])
  ∧ outcome (RdfSql.get_rdf_status (Sample.constant 201 (Some data)) "SG1")
    = Ok (JDict [("error", JStr "HTTP 201")])
  ∧ outcome (RdfSql.get_rdf_status (Sample.constant 201 (Some data)) "SG1")
    ≠ Ok data.
Proof.
  simpl. split; [lia|]. repeat split; try reflexivity; discriminate.
Qed.

(** ** rdf.py: one batch *)

Section RdfBatch.
Import Rdf.
Variable w : env.

Lemma fetch_batch_trace batch :
  trace (fetch_batch w batch) = (λ sg, EGet (rdf_url sg) (Some 30)) <$> batch.
Proof.
  unfold fetch_batch. induction batch as [|sg batch IH]; simpl; [done|].
  destruct (rdf_fetch_shape w sg) as [v Hv].
  destruct (fetch_batch_results w batch) as (results & Hr & _).
  unfold fetch_batch in Hr.
  rewrite (m_bind_ok _ _ (JDict [(sg, v)])) by (by rewrite Hv).
  simpl. rewrite (m_bind_ok _ _ results Hr). simpl.
  rewrite Hv, IH. simpl. by rewrite app_nil_r.
Qed.

(** A batch, once fetched: the requests, the JSON report, then the CSV
    summary, which decides alone whether [process_batch] returns. *)
Lemma process_batch_unfold batch batch_num results :
  outcome (fetch_batch w batch) = Ok results →
  trace (process_batch w batch batch_num)
  = ((λ sg, EGet (rdf_url sg) (Some 30)) <$> batch)
    ++ EJsonDump (output_file batch_num (strftime w batch_num)) results
       :: trace (write_csv (csv_file batch_num (strftime w batch_num)) results)
  ∧ outcome (process_batch w batch batch_num)
    = match outcome (write_csv (csv_file batch_num (strftime w batch_num)) results) with
      | Ok _ => Ok (length results)
      | Raise e => Raise e
      end.
Proof.
  intros Hr. unfold process_batch.
  rewrite (m_bind_ok _ _ results Hr). cbn [trace outcome].
  rewrite fetch_batch_trace, bind_emit. cbn [trace outcome].
  rewrite trace_bind, outcome_bind.
  destruct (outcome (write_csv _ results)); simpl.
  - by rewrite app_nil_r.
  - done.
Qed.

Lemma results_lookup batch results i sg :
  Forall2 (λ sg result, outcome (get_rdf_status w sg) = Ok result)
    batch results →
  batch !! i = Some sg →
  ∃ v, results !! i = Some (JDict [(sg, v)])
       ∧ outcome (get_rdf_status w sg) = Ok (JDict [(sg, v)]).
Proof.
  intros Hall Hi.
  destruct (Forall2_lookup_l _ _ _ _ _ Hall Hi) as (result & Hres & Hout).
  destruct (rdf_fetch_shape w sg) as [v Hv].
  rewrite Hv in Hout. simpl in Hout. injection Hout as <-.
  exists v. by rewrite Hv.
Qed.
Lemma write_csv_only_rows file results :
  Forall (λ e, is_csv_row e = true) (trace (write_csv file results)).
Proof.
  unfold write_csv. rewrite bind_emit. cbn [trace].
  constructor; [done|]. apply for_each_Forall. intros result _.
  apply trace_bind_Forall; [apply lift_Forall|]. intros items _.
  apply for_each_Forall. intros [sg data] _. unfold csv_rows_of_item.
  destruct (isinstance_dict data); [|constructor].
  repeat (apply trace_bind_Forall; [apply lift_Forall|]; intros ? _).
  apply for_each_Forall. intros rdf_group _.
  repeat (apply trace_bind_Forall; [apply lift_Forall|]; intros ? _).
  by repeat constructor.
Qed.
End RdfBatch.

(** C9. The results of a batch, as written to the JSON report, have the
    length and the order of the batch: the i-th result is a mapping whose
    only key is the i-th target, whether its fetch succeeded or not. *)
Theorem process_batch_results_aligned
    (w : Rdf.env) (batch : list string) (batch_num : nat) :
  ∃ results,
    outcome (Rdf.fetch_batch w batch) = Ok results
    ∧ length results = length batch
    ∧ (∀ i sg, batch !! i = Some sg →
         ∃ v, results !! i = Some (JDict [(sg, v)]))
    ∧ Rdf.EJsonDump (Rdf.output_file batch_num (Rdf.strftime w batch_num))
        results
        ∈ trace (Rdf.process_batch w batch batch_num)
    ∧ (∀ path dumped,
         Rdf.EJsonDump path dumped ∈ trace (Rdf.process_batch w batch batch_num)
         → dumped = results).
Proof.
  destruct (fetch_batch_results w batch) as (results & Hr & Hall).
  destruct (process_batch_unfold w batch batch_num results Hr) as [Ht _].
  exists results. split; [done|]. split; [|split; [|split]].
  - symmetry. by eapply Forall2_length.
  - intros i sg Hi.
    destruct (results_lookup w batch results i sg Hall Hi) as (v & Hv & _).
    eauto.
  - rewrite Ht. apply elem_of_app. right. by left.
  - intros path dumped. rewrite Ht.
    rewrite elem_of_app, list_elem_of_fmap, elem_of_cons.
    intros [(sg & Heq & _) | [Heq | Hin]]; [done | by injection Heq |].
    pose proof (write_csv_only_rows
                  (Rdf.csv_file batch_num (Rdf.strftime w batch_num)) results)
      as Hrows.
    rewrite Forall_forall in Hrows. by apply Hrows in Hin.
Qed.

(** ** rdf.py: failures stay with their target *)

Section RdfIsolation.
Import Rdf.
Variable w : env.

Lemma csv_item_ok file sg data :
  csv_ready data = true → outcome (csv_rows_of_item file (sg, data)) = Ok tt.
Proof.
  unfold csv_rows_of_item, csv_ready. destruct data as [| | | | |xs|kvs]; try done.
  simpl. destruct (assoc "rdfGroupInfo" kvs) as [info|] eqn:Hinfo; simpl.
  - destruct info as [| | | | |rdf_groups|]; try done. intros Hall.
    change (py_iter (JList rdf_groups)) with (Ok rdf_groups).
    rewrite bind_lift_ok. cbn [outcome].
    apply for_each_total. intros g Hg.
    rewrite forallb_forall in Hall. specialize (Hall g).
    rewrite <- list_elem_of_In in Hall. specialize (Hall Hg).
    by destruct g.
  - reflexivity.
Qed.

Lemma write_csv_ok file results :
  (∀ result, result ∈ results →
     ∃ sg data, result = JDict [(sg, data)] ∧ csv_ready data = true) →
  outcome (write_csv file results) = Ok tt.
Proof.
  intros Hres. unfold write_csv. rewrite bind_emit. cbn [outcome].
  apply for_each_total. intros result Hin.
  destruct (Hres result Hin) as (sg & data & -> & Hready).
  change (py_items (JDict [(sg, data)])) with (Ok [(sg, data)]).
  rewrite bind_lift_ok. cbn [outcome for_each].
  rewrite outcome_bind. by rewrite csv_item_ok.
Qed.
(** [process_batch] returns, with the number of targets, when every body
    fetched with status 200 is one the CSV summary can go through. *)
Lemma process_batch_returns batch batch_num :
  (∀ sg r data,
     sg ∈ batch → session_get w (rdf_url sg) = Responds r →
     status_code r = 200%Z → body r = Some data → csv_ready data = true) →
  outcome (process_batch w batch batch_num) = Ok (length batch).
Proof.
  intros Hready.
  destruct (fetch_batch_results w batch) as (results & Hr & Hall).
  destruct (process_batch_unfold w batch batch_num results Hr) as [_ ->].
  rewrite write_csv_ok.
  - f_equal. symmetry. by eapply Forall2_length.
  - intros result [i Hi]%list_elem_of_lookup.
    destruct (Forall2_lookup_r _ _ _ _ _ Hall Hi) as (sg & Hsg & Hfetch).
    destruct (rdf_entry_cases w sg result Hfetch)
      as (data & -> & [(r & Hget & Hs & Hb) | (msg & ->)]).
    + exists sg, data. split; [done|].
      eapply Hready; [|done..]. by eapply list_elem_of_lookup_2.
    + by exists sg, (JStr msg).
Qed.
End RdfIsolation.

(** C5. In a batch of N targets where the fetch of exactly one, at
    position i, raises a transport exception and the others answer 200
    with a body, the results have N entries: the failing target is there,
    mapped to an error string made from the exception, every other target
    carries its body, and the list is written to the report. The exception
    is caught in the worker, the failing entry is skipped by the CSV
    summary without raising, and the batch is processed to its end, with
    N as the count, when the bodies of the other targets are ones the
    summary can go through. *)
Theorem one_failure_is_isolated
    (w : Rdf.env) (batch : list string) (batch_num i : nat)
    (bad : string) (e : exn) :
  batch !! i = Some bad →
  Rdf.session_get w (Rdf.rdf_url bad) = Fails e →
  (∀ j sg, j ≠ i → batch !! j = Some sg →
     ∃ r v, Rdf.session_get w (Rdf.rdf_url sg) = Responds r
            ∧ status_code r = 200%Z ∧ body r = Some v) →
  ∃ results,
    outcome (Rdf.fetch_batch w batch) = Ok results
    ∧ length results = length batch
    ∧ results !! i = Some (JDict [(bad, JStr ("Exception: " +:+ exn_msg e))])
    ∧ (∀ j sg, j ≠ i → batch !! j = Some sg →
         ∃ r v, Rdf.session_get w (Rdf.rdf_url sg) = Responds r
                ∧ body r = Some v
                ∧ results !! j = Some (JDict [(sg, v)]))
    ∧ Rdf.EJsonDump (Rdf.output_file batch_num (Rdf.strftime w batch_num))
        results
        ∈ trace (Rdf.process_batch w batch batch_num)
    ∧ (∀ file, Rdf.csv_rows_of_item file
                 (bad, JStr ("Exception: " +:+ exn_msg e)) = m_ret tt)
    ∧ ((∀ j sg r v, j ≠ i → batch !! j = Some sg →
          Rdf.session_get w (Rdf.rdf_url sg) = Responds r → body r = Some v →
          Rdf.csv_ready v = true) →
       outcome (Rdf.process_batch w batch batch_num) = Ok (length batch)).
Proof.
  intros Hi Hbad Hothers.
  destruct (fetch_batch_results w batch) as (results & Hr & Hall).
  destruct (process_batch_unfold w batch batch_num results Hr) as [Ht _].
  exists results. split; [done|]. split; [|split; [|split; [|split; [|split]]]].
  - symmetry. by eapply Forall2_length.
  - destruct (results_lookup w batch results i bad Hall Hi) as (v & Hv & Hout).
    rewrite (rdf_fetch_fails w bad e Hbad) in Hout. simpl in Hout.
    by injection Hout as <-.
  - intros j sg Hj Hsg.
    destruct (Hothers j sg Hj Hsg) as (r & v & Hget & Hs & Hb).
    destruct (results_lookup w batch results j sg Hall Hsg) as (v' & Hv & Hout).
    rewrite (rdf_fetch_200 w sg r v Hget Hs Hb) in Hout. simpl in Hout.
    injection Hout as <-. eauto.
  - rewrite Ht. apply elem_of_app. right. by left.
  - intros file. reflexivity.
  - intros Hready. apply process_batch_returns.
    intros sg r data [j Hj]%list_elem_of_lookup Hget Hs Hb.
    destruct (decide (j = i)) as [->|Hne].
    + rewrite Hi in Hj. injection Hj as <-. congruence.
    + by eapply Hready.
Qed.

Lemma one_failure_is_isolated_witness :
  ∃ results,
    outcome (Rdf.fetch_batch (Sample.rdf_world (Sample.all_but "SG2"))
               ["SG1"; "SG2"; "SG3"]) = Ok results
    ∧ length results = 3
    ∧ results !! 1
      = Some (JDict [("SG2", JStr "Exception: connection timed out")]).
Proof.
  destruct (one_failure_is_isolated
              (Sample.rdf_world (Sample.all_but "SG2"))
              ["SG1"; "SG2"; "SG3"] 1 1 "SG2" Sample.timeout)
    as (results & Hr & Hlen & Hbad & _).
  - reflexivity.
  - reflexivity.
  - intros j sg Hj Hsg.
    exists (Response 200 (Some (Sample.rdf_info [Sample.pairing 1]))),
           (Sample.rdf_info [Sample.pairing 1]).
    destruct j as [|[|[|j]]]; simpl in Hsg; try done;
      injection Hsg as <-; repeat split; reflexivity.
  - exists results. repeat split; assumption.
Defined.

(** ** rdf.py: the loop over the batches *)

Section RdfLoop.
Import Rdf.
Variable w : env.

Lemma batch_work_never_sleeps total i batch :
  Forall (λ e, is_sleep e = false) (trace (batch_work w total i batch)).
Proof.
  unfold batch_work. rewrite bind_emit. cbn [trace].
  constructor; [done|]. apply trace_bind_Forall.
  - destruct (fetch_batch_results w batch) as (results & Hr & _).
    destruct (process_batch_unfold w batch i results Hr) as [-> _].
    apply Forall_app_2; [|constructor; [done|]].
    + apply Forall_fmap, Forall_forall. by intros sg _.
    + eapply Forall_impl; [apply write_csv_only_rows|].
      intros [] ?; done.
  - intros processed _. by repeat constructor.
Qed.

Lemma batch_step_trace total i batch :
  trace (batch_step w total i batch)
  = trace (batch_work w total i batch)
    ++ (if is_ok (outcome (batch_work w total i batch)) && (i <? total)
        then [ESleep 10] else []).
Proof.
  unfold batch_step. rewrite trace_bind.
  destruct (outcome (batch_work w total i batch)); simpl.
  - by destruct (i <? total).
  - by rewrite app_nil_r.
Qed.

Lemma batch_step_outcome total i batch :
  is_ok (outcome (batch_step w total i batch))
  = is_ok (outcome (batch_work w total i batch)).
Proof.
  unfold batch_step. rewrite outcome_bind.
  destruct (outcome (batch_work w total i batch)); simpl; [|done].
  by destruct (i <? total).
Qed.

Local Opaque batch_work.

(** The loop from batch number [i], when [batches] are the last ones of
    [total]: the work on the [j] batches that were started, numbered
    from [i], with the delay between two consecutive ones. *)
Lemma run_from_trace total i batches :
  i + length batches = S total →
  ∃ j, j ≤ length batches
       ∧ (batches ≠ [] → 0 < j)
       ∧ (is_ok (outcome (run_from w total i batches)) = true
          → j = length batches)
       ∧ (∀ k batch, S k < j → batches !! k = Some batch →
            is_ok (outcome (batch_work w total (i + k) batch)) = true)
       ∧ trace (run_from w total i batches)
         = join_with [ESleep 10]
             (zip_with (λ k batch, trace (batch_work w total k batch))
                (seq i j) batches).
Proof.
  revert i. induction batches as [|batch rest IH]; intros i Hi.
  - exists 0. split; [done|]. split; [done|]. split; [done|].
    split; [lia|]. reflexivity.
  - cbn [run_from length] in *.
    rewrite trace_bind, outcome_bind, batch_step_trace.
    destruct (outcome (batch_work w total i batch)) as [[]|e] eqn:Hwork.
    + (* the work on [batch] completed *)
      assert (Hstep : outcome (batch_step w total i batch) = Ok tt).
      { pose proof (batch_step_outcome total i batch) as H.
        rewrite Hwork in H. cbn [is_ok] in H.
        destruct (outcome (batch_step w total i batch)) as [[]|];
          [reflexivity | discriminate]. }
      rewrite Hstep. cbn [is_ok andb].
      destruct rest as [|batch' rest'].
      * exists 1. cbn [length] in Hi.
        replace (i <? total) with false
          by (symmetry; apply Nat.ltb_ge; lia).
        split; [cbn [length]; lia|]. split; [lia|].
        split; [reflexivity|]. split; [lia|].
        cbn [run_from trace m_ret seq zip_with join_with].
        rewrite !app_nil_r. reflexivity.
      * destruct (IH (S i)) as (j & Hj & Hpos & Hok & Hdone & Htr);
          [cbn [length] in *; lia|].
        assert (0 < j) as Hj0 by (apply Hpos; discriminate).
        exists (S j). cbn [length] in *.
        replace (i <? total) with true
          by (symmetry; apply Nat.ltb_lt; lia).
        split; [lia|]. split; [lia|]. split; [|split].
        -- intros H. f_equal. apply Hok, H.
        -- intros k b Hk Hb. destruct k as [|k].
           ++ cbn in Hb. injection Hb as <-.
              rewrite Nat.add_0_r, Hwork. reflexivity.
           ++ replace (i + S k) with (S i + k) by lia.
              apply Hdone; [lia | exact Hb].
        -- rewrite Htr. cbn [seq zip_with].
           rewrite join_with_cons.
           ++ rewrite <- app_assoc. reflexivity.
           ++ destruct j as [|j]; [lia|]. cbn [seq zip_with]. discriminate.
    + (* the work on [batch] raised: the loop stops there *)
      assert (Hstep : outcome (batch_step w total i batch) = Raise e).
      { unfold batch_step. rewrite outcome_bind, Hwork. reflexivity. }
      rewrite Hstep. cbn [is_ok andb].
      exists 1. split; [cbn [length]; lia|]. split; [lia|].
      split; [discriminate|]. split; [lia|].
      cbn [seq zip_with join_with]. rewrite !app_nil_r. reflexivity.
Qed.

Local Transparent batch_work.
End RdfLoop.

(** C6. The trace of the scheduler loop is the work on the batches it
    started, numbered from 1, in order, with the fixed delay between the
    work on one batch and the work on the next: a delay follows every
    batch but the last, and nothing follows the last. The work on a batch
    holds all its requests and no delay, and a batch is started only once
    the work on the one before has completed. All batches are started
    unless the work on one raises, which ends the loop. So the delays are
    one fewer than the batches started, and the trace never ends with a
    delay. *)
Theorem delay_between_batches (w : Rdf.env) (batches : list (list string)) :
  let total := length batches in
  let work k batch := Rdf.batch_work w total k batch in
  ∃ started,
    started ≤ total
    ∧ (batches ≠ [] → 0 < started)
    ∧ (is_ok (outcome (Rdf.run_batches w batches)) = true → started = total)
    ∧ (∀ k batch, S k < started → batches !! k = Some batch →
         is_ok (outcome (work (S k) batch)) = true)
    ∧ trace (Rdf.run_batches w batches)
      = join_with [Rdf.ESleep 10]
          (zip_with (λ k batch, trace (work k batch)) (seq 1 started) batches)
    ∧ (∀ k batch, Forall (λ e, Rdf.is_sleep e = false) (trace (work k batch)))
    ∧ length (filter (λ e, Rdf.is_sleep e = true)
                (trace (Rdf.run_batches w batches))) = started - 1
    ∧ (∀ seconds,
         last (trace (Rdf.run_batches w batches))
         ≠ Some (Rdf.ESleep seconds)).
Proof.
  intros total work. subst work. cbv beta.
  unfold Rdf.run_batches. fold total.
  destruct (run_from_trace w total 1 batches) as (j & Hj & Hpos & Hok & Hd & Ht);
    [subst total; lia|].
  pose proof (batch_work_never_sleeps w total) as Hns.
  set (blocks := zip_with (λ k batch, trace (Rdf.batch_work w total k batch))
                   (seq 1 j) batches) in *.
  assert (Hblocks : ∀ block, block ∈ blocks →
            ∃ k batch, block = trace (Rdf.batch_work w total k batch)).
  { intros block (k & batch & -> & _ & _)%elem_of_zip_with. eauto. }
  assert (Hlen : length blocks = j).
  { subst blocks total. rewrite length_zip_with, length_seq. lia. }
  exists j. split; [exact Hj|]. split; [exact Hpos|]. split; [exact Hok|].
  split; [exact Hd|]. split; [exact Ht|]. split; [|split].
  - intros k batch. apply Hns.
  - rewrite Ht, join_with_count; [by rewrite Hlen | done |].
    apply Forall_forall. intros block (k & batch & ->)%Hblocks.
    eapply Forall_impl; [apply Hns|]. intros e He. by rewrite He.
  - intros seconds. rewrite Ht.
    destruct (last blocks) as [block|] eqn:Hlast.
    + destruct (Hblocks block) as (k & batch & ->).
      { by eapply last_Some_elem_of. }
      rewrite (join_with_last _ _ _ Hlast).
      * intros Hsleep%last_Some_elem_of.
        pose proof (Hns k batch) as Hall. rewrite Forall_forall in Hall.
        by apply Hall in Hsleep.
      * unfold Rdf.batch_work. by rewrite bind_emit.
    + apply last_None in Hlast. by rewrite Hlast.
Qed.

(** ** rdf_sql.py: one pass *)

Section RdfSqlPass.
Import RdfSql.
Variable w : env.

(** What a fetch returned is the body of a 200 answer, or an error
    mapping made by the fetch itself. *)
Lemma sql_fetch_inv session sg v :
  outcome (get_rdf_status session sg) = Ok v →
  (∃ r, session (rdf_url sg) = Responds r
        ∧ status_code r = 200%Z ∧ body r = Some v)
  ∨ (∃ msg, v = JDict [("error", JStr msg)]).
Proof.
  destruct (session (rdf_url sg)) as [e|r] eqn:H.
  - rewrite (sql_fetch_fails session sg e H). simpl. intros [= <-]. eauto.
  - destruct (decide (status_code r = 200%Z)) as [Hs|Hs].
    + destruct (body r) as [v'|] eqn:Hb.
      * rewrite (sql_fetch_200 session sg r v' H Hs Hb). simpl.
        intros [= <-]. left. eauto.
      * destruct (sql_fetch_200_no_json session sg r H Hs Hb) as [msg ->].
        simpl. intros [= <-]. eauto.
    + rewrite (sql_fetch_other_status session sg r H Hs). simpl.
      intros [= <-]. eauto.
Qed.

Lemma create_record_events now sg rdf_data :
  Forall (λ e, is_target_event e = true)
    (trace (create_rdf_status_record w now sg rdf_data)).
Proof.
  unfold create_rdf_status_record.
  repeat (apply trace_bind_Forall; [apply lift_Forall|]; intros ? _).
  rewrite bind_emit. cbn [trace]. constructor; [done|].
  destruct (insert_ok w _); constructor.
Qed.

Lemma process_one_try_events session now processed sg :
  Forall (λ e, is_target_event e = true)
    (trace (process_one_try w session now processed sg)).
Proof.
  unfold process_one_try. apply trace_bind_Forall.
  { destruct (sql_fetch_shape session sg) as [v ->]. by repeat constructor. }
  intros result _.
  apply trace_bind_Forall; [apply lift_Forall|]. intros [] _.
  - repeat (apply trace_bind_Forall; [apply lift_Forall|]; intros ? _).
    apply trace_bind_Forall; [|intros; constructor].
    apply for_each_Forall. intros rdf_data _. apply create_record_events.
  - apply trace_bind_Forall; [apply lift_Forall|]. intros err _.
    rewrite bind_emit. by repeat constructor.
Qed.

Lemma process_one_events session now processed sg :
  Forall (λ e, is_target_event e = true)
    (trace (process_one w session now processed sg)).
Proof.
  unfold process_one. apply try_except_Forall.
  - apply process_one_try_events.
  - intros e. rewrite bind_emit. by repeat constructor.
Qed.

(** The count goes up by one, and then the target answered with an
    'rdfGroupInfo' key, or stays as it is. Nothing is raised. *)
Lemma process_one_try_counts session now processed sg n :
  outcome (process_one_try w session now processed sg) = Ok n →
  n = processed ∨ (n = processed + 1 ∧ has_rdf_info session sg = true).
Proof.
  unfold process_one_try. rewrite outcome_bind.
  destruct (outcome (get_rdf_status session sg)) as [v|] eqn:Hv; [|done].
  rewrite outcome_bind. cbn [lift outcome].
  destruct (py_contains "rdfGroupInfo" v) as [[]|] eqn:Hin; [| |done].
  - rewrite outcome_bind. cbn [lift outcome].
    destruct (py_getitem v "rdfGroupInfo") as [info|] eqn:Hget; [|done].
    rewrite outcome_bind. cbn [lift outcome].
    destruct (py_iter info); [|done].
    rewrite outcome_bind.
    destruct (outcome (for_each _ _)); [|done].
    cbn [m_ret outcome]. intros [= <-]. right. split; [done|].
    destruct v as [| | | | | |kvs]; try done. simpl in Hget.
    destruct (assoc "rdfGroupInfo" kvs) as [info'|] eqn:Hkey; [|done].
    destruct (sql_fetch_inv session sg _ Hv)
      as [(r & Hr & Hs & Hb) | (msg & [= ->])]; [|done].
    unfold has_rdf_info. rewrite Hr, Hs, Hb, Hkey. reflexivity.
  - rewrite outcome_bind. cbn [lift outcome].
    destruct (py_get v "error" _); [|done].
    rewrite bind_emit. cbn [outcome m_ret]. intros [= <-]. by left.
Qed.

Lemma process_one_counts session now processed sg :
  ∃ n, outcome (process_one w session now processed sg) = Ok n
       ∧ (n = processed
          ∨ (n = processed + 1 ∧ has_rdf_info session sg = true)).
Proof.
  unfold process_one. rewrite outcome_try_except.
  destruct (outcome (process_one_try w session now processed sg))
    as [n|e] eqn:Htry.
  - exists n. split; [done|]. by eapply process_one_try_counts.
  - exists processed. split; [|by left]. by rewrite bind_emit.
Qed.

(** The loop over the targets: it returns, having logged target events
    only, and counted a sublist of the targets that answered with an
    'rdfGroupInfo' key. *)
Lemma fold_targets session now processed groups :
  ∃ counted,
    outcome (fold_m (process_one w session now) processed groups)
    = Ok (processed + length counted)
    ∧ counted `sublist_of`
        filter (λ sg, has_rdf_info session sg = true) groups
    ∧ Forall (λ e, is_target_event e = true)
        (trace (fold_m (process_one w session now) processed groups)).
Proof.
  revert processed. induction groups as [|sg groups IH]; intros processed.
  - exists []. cbn [fold_m m_ret outcome trace length].
    split; [f_equal; lia|]. split; [done | constructor].
  - cbn [fold_m].
    destruct (process_one_counts session now processed sg)
      as (n & Hn & Hcount).
    destruct (IH n) as (counted & Hout & Hsub & Hev).
    rewrite outcome_bind, trace_bind, Hn, Hout.
    assert (Hevents : Forall (λ e, is_target_event e = true)
              (trace (process_one w session now processed sg)
               ++ trace (fold_m (process_one w session now) n groups))).
    { apply Forall_app_2; [apply process_one_events | done]. }
    destruct Hcount as [-> | [-> Hinfo]].
    + exists counted. split; [done|]. split; [|done].
      rewrite filter_cons. destruct (decide _); [by constructor | done].
    + exists (sg :: counted). split; [f_equal; simpl; lia|].
      split; [|done].
      rewrite filter_cons. rewrite decide_True by done. by constructor.
Qed.

(** A pass: the connection, the work on the targets, then the commit
    and the two [close]. *)
Lemma pass_shape pass groups :
  ∃ work counted,
    process_storage_groups w pass groups
    = MkM (EConnect :: work ++ [ECommit; ECursorClose; EClose])
          (Ok (length counted))
    ∧ counted `sublist_of`
        filter (λ sg, has_rdf_info (pass_get w pass) sg = true) groups
    ∧ Forall (λ e, is_target_event e = true) work.
Proof.
  destruct (fold_targets (pass_get w pass) (now_utc w (2 * pass + 1)) 0 groups)
    as (counted & Hout & Hsub & Hev).
  eexists _, counted. split; [|split; [exact Hsub | exact Hev]].
  unfold process_storage_groups. rewrite bind_emit.
  rewrite (m_bind_ok _ _ _ Hout). reflexivity.
Qed.
End RdfSqlPass.

(** ** rdf_sql.py: the table *)

Section RdfSqlTable.
Import RdfSql.

Lemma db_run_app d t1 t2 : db_run d (t1 ++ t2) = db_run (db_run d t1) t2.
Proof. apply foldl_app. Qed.

(** Without a commit the table does not change. *)
Lemma table_without_commit t d :
  Forall (λ e, is_commit e = false) t → table (db_run d t) = table d.
Proof.
  revert d. induction t as [|e t IH]; intros d Ht; [done|].
  apply Forall_cons in Ht as [He Ht]. cbn [db_run foldl].
  change (foldl db_step (db_step d e) t) with (db_run (db_step d e) t).
  rewrite IH by done. by destruct e as [| | |? []| | | |].
Qed.

(** The work on the targets adds the accepted rows to the pending ones. *)
Lemma pending_after_work t d :
  Forall (λ e, is_target_event e = true) t →
  db_run d t = Db (table d) (pending d ++ accepted t).
Proof.
  revert d. induction t as [|e t IH]; intros d Ht.
  - cbn. rewrite app_nil_r. by destruct d.
  - apply Forall_cons in Ht as [He Ht]. cbn [db_run foldl].
    change (foldl db_step (db_step d e) t) with (db_run (db_step d e) t).
    rewrite IH by done.
    destruct e as [| | |r []| | | |]; try done; cbn.
    by rewrite <- app_assoc.
Qed.

Lemma no_commit_filter t :
  Forall (λ e, is_commit e = false) t →
  filter (λ e, is_commit e = true) t = [].
Proof.
  induction t as [|e t IH]; [done|]. intros [He Ht]%Forall_cons.
  rewrite filter_cons.
  destruct (decide (is_commit e = true)) as [Heq|_]; [congruence|].
  by apply IH.
Qed.

Lemma target_event_no_commit e :
  is_target_event e = true → is_commit e = false.
Proof. by destruct e. Qed.
End RdfSqlTable.

(** C8. A pass opens the connection, works on the targets, and ends with
    its only commit, after every insert, followed by the two [close]. If
    the process dies at any point before that commit, the table holds
    what it held before the pass; when the pass completes, the table has
    gained exactly the rows of the accepted inserts. *)
Theorem single_commit_ends_pass
    (w : RdfSql.env) (pass : nat) (groups : list string) :
  ∃ work processed,
    RdfSql.process_storage_groups w pass groups
    = MkM (RdfSql.EConnect :: work
           ++ [RdfSql.ECommit; RdfSql.ECursorClose; RdfSql.EClose])
          (Ok processed)
    ∧ Forall (λ e, RdfSql.is_commit e = false) work
    ∧ length (filter (λ e, RdfSql.is_commit e = true)
                (trace (RdfSql.process_storage_groups w pass groups))) = 1
    ∧ (∀ d before, before `prefix_of` RdfSql.EConnect :: work →
         RdfSql.table (RdfSql.crash (RdfSql.db_run d before))
         = RdfSql.table d)
    ∧ (∀ d, RdfSql.table
              (RdfSql.db_run d
                 (trace (RdfSql.process_storage_groups w pass groups)))
            = RdfSql.table d ++ RdfSql.accepted work).
Proof.
  destruct (pass_shape w pass groups) as (work & counted & Hpass & _ & Hwork).
  assert (Hnc : Forall (λ e, RdfSql.is_commit e = false) work).
  { eapply Forall_impl; [exact Hwork|]. apply target_event_no_commit. }
  exists work, (length counted). rewrite Hpass. cbn [trace].
  split; [done|]. split; [done|]. split; [|split].
  - rewrite filter_cons, decide_False by done.
    by rewrite filter_app, no_commit_filter.
  - intros d before [after Hsplit]. cbn [RdfSql.crash RdfSql.table].
    apply table_without_commit.
    assert (Hall : Forall (λ e, RdfSql.is_commit e = false)
                     (RdfSql.EConnect :: work)) by by constructor.
    rewrite Hsplit in Hall. by apply Forall_app in Hall as [? _].
  - intros d. cbn [RdfSql.db_run foldl].
    change (foldl RdfSql.db_step ?d' ?t) with (RdfSql.db_run d' t).
    rewrite db_run_app, (pending_after_work work) by done. reflexivity.
Qed.

(** *** Binary64 arithmetic

    The sign of a rounded difference, from the specification of the
    operations on floats. *)

Section Float64.

(** What rounding returns for a negative number is not above zero. *)
Lemma round_aux_negative mx ex lx :
  SFltb (S754_zero false) (binary_round_aux prec emax true mx ex lx) = false.
Proof.
  unfold binary_round_aux.
  destruct (shr_fexp prec emax mx ex lx) as [mrs' e'].
  destruct (shr_fexp prec emax _ e' loc_Exact) as [mrs'' e''].
  destruct (shr_m mrs'') as [|m|m]; [done| |done].
  by destruct (Z.leb e'' (emax - prec)).
Qed.

Lemma normalize_not_positive m e szero :
  (m ≤ 0)%Z →
  SFltb (S754_zero false) (binary_normalize prec emax m e szero) = false.
Proof.
  destruct m as [|m|m]; [done|lia|]. intros _.
  unfold binary_normalize, binary_round.
  destruct (shl_align _ _ _) as [mz ez]. apply round_aux_negative.
Qed.

Lemma digits2_pos_bounds m :
  (2 ^ (Z.pos (digits2_pos m) - 1) ≤ Z.pos m < 2 ^ Z.pos (digits2_pos m))%Z.
Proof.
  induction m as [m IH|m IH|]; cbn [digits2_pos].
  - rewrite Pos2Z.inj_succ.
    replace (Z.succ (Z.pos (digits2_pos m)) - 1)%Z
      with (Z.succ (Z.pos (digits2_pos m) - 1))%Z by lia.
    rewrite !Z.pow_succ_r by lia. lia.
  - rewrite Pos2Z.inj_succ.
    replace (Z.succ (Z.pos (digits2_pos m)) - 1)%Z
      with (Z.succ (Z.pos (digits2_pos m) - 1))%Z by lia.
    rewrite !Z.pow_succ_r by lia. lia.
  - cbn. lia.
Qed.

Lemma iter_xO m d : Z.pos (Pos.iter xO m d) = (Z.pos m * 2 ^ Z.pos d)%Z.
Proof.
  change (Pos.iter xO m d) with (shift_pos d m).
  rewrite shift_pos_correct, Z.pow_pos_fold. lia.
Qed.

Lemma shl_align_value mx ex ez :
  (ez ≤ ex)%Z →
  Z.pos (fst (shl_align mx ex ez)) = (Z.pos mx * 2 ^ (ex - ez))%Z.
Proof.
  intros Hle. unfold shl_align.
  destruct (ez - ex)%Z as [|d|d] eqn:Hd; cbn [fst].
  - replace (ex - ez)%Z with 0%Z by lia. lia.
  - lia.
  - rewrite iter_xO. f_equal. f_equal. lia.
Qed.

(** A canonical mantissa has at most [prec] digits, and exactly [prec]
    above the smallest exponent. *)
Lemma bounded_mantissa m e :
  bounded prec emax m e = true →
  (Z.pos m < 2 ^ 53)%Z
  ∧ ((-1074 ≤ e)%Z)
  ∧ ((-1074 < e)%Z → (2 ^ 52 ≤ Z.pos m)%Z).
Proof.
  unfold bounded, canonical_mantissa, fexp, emin, prec, emax.
  intros [Hc _]%andb_prop. apply Z.eqb_eq in Hc.
  pose proof (digits2_pos_bounds m) as [Hlo Hhi].
  assert (Hd : (Z.pos (digits2_pos m) ≤ 53)%Z) by lia.
  split; [|split].
  - eapply Z.lt_le_trans; [exact Hhi|]. apply Z.pow_le_mono_r; lia.
  - lia.
  - intros He. assert (Z.pos (digits2_pos m) = 53%Z) as Heq by lia.
    rewrite Heq in Hlo. exact Hlo.
Qed.

(** Of two canonical numbers, the one with the smaller exponent has the
    smaller magnitude. *)
Lemma smaller_exponent mx ex my ey :
  bounded prec emax mx ex = true → bounded prec emax my ey = true →
  (ex < ey)%Z →
  (Z.pos mx < Z.pos my * 2 ^ (ey - ex))%Z.
Proof.
  intros [Hx [Hex _]]%bounded_mantissa [_ [_ Hy]]%bounded_mantissa Hlt.
  assert (2 ^ 52 ≤ Z.pos my)%Z as Hmy by (apply Hy; lia).
  assert (2 ^ 1 ≤ 2 ^ (ey - ex))%Z as Hp by (apply Z.pow_le_mono_r; lia).
  change (2 ^ 1)%Z with 2%Z in Hp.
  change (2 ^ 53)%Z with (2 ^ 52 * 2)%Z in Hx.
  nia.
Qed.

(** When x < y, the difference x - y, rounded, is not above zero. *)
Lemma SFsub_sign x y :
  valid_binary x = true → valid_binary y = true →
  SFltb x y = true →
  SFltb (S754_zero false) (SF64sub x y) = false.
Proof.
  unfold SFltb at 1.
  destruct x as [sx|sx| |sx mx ex], y as [sy|sy| |sy my ey];
    cbn [SFcompare SF64sub SFsub valid_binary]; intros Hx Hy Hlt;
    try solve [repeat match goal with s : bool |- _ => destruct s end;
               done].
  apply normalize_not_positive.
  destruct sx, sy; cbn [cond_Zopp]; try done; try lia.
  - (* both negative: |x| > |y| *)
    destruct (Z.compare_spec ex ey) as [->|Hex|Hex]; try done.
    + rewrite Z.min_id, !shl_align_value, Z.sub_diag by lia.
      change (Pos.compare_cont Eq mx my) with (mx ?= my)%positive in Hlt.
      destruct (Pos.compare_spec mx my); try done. lia.
    + rewrite Z.min_r by lia. rewrite !shl_align_value, Z.sub_diag by lia.
      pose proof (smaller_exponent my ey mx ex Hy Hx Hex). lia.
  - (* both positive: |x| < |y| *)
    destruct (Z.compare_spec ex ey) as [->|Hex|Hex]; try done.
    + rewrite Z.min_id, !shl_align_value, Z.sub_diag by lia.
      change (Pos.compare_cont Eq mx my) with (mx ?= my)%positive in Hlt.
      destruct (Pos.compare_spec mx my); try done. lia.
    + rewrite Z.min_l by lia. rewrite !shl_align_value, Z.sub_diag by lia.
      pose proof (smaller_exponent mx ex my ey Hx Hy Hex). lia.
Qed.
End Float64.

(** [a - b] is not above zero when [a < b]. *)
Lemma float_sub_sign (a b : float) :
  (a <? b)%float = true → (0 <? a - b)%float = false.
Proof.
  rewrite !ltb_spec, sub_spec. intros Hlt.
  change (Prim2SF 0) with (S754_zero false).
  apply SFsub_sign; [apply Prim2SF_valid | apply Prim2SF_valid | done].
Qed.

(** A number above zero is not below zero. *)
Lemma float_above_zero (x : float) :
  (0 <? x)%float = true → (x <? 0)%float = false.
Proof.
  rewrite !ltb_spec. change (Prim2SF 0) with (S754_zero false).
  unfold SFltb. by destruct (Prim2SF x) as [[]|[]| |[]].
Qed.

(** ** rdf_sql.py: the collector loop *)

Section RdfSqlLoop.
Import RdfSql.
Variable w : env.

Lemma pass_events_no_sleep pass groups :
  Forall (λ e, is_sleep e = false)
    (trace (process_storage_groups w pass groups)).
Proof.
  destruct (pass_shape w pass groups) as (work & counted & -> & _ & Hwork).
  cbn [trace]. constructor; [done|]. apply Forall_app_2.
  - eapply Forall_impl; [exact Hwork|]. by intros [].
  - by repeat constructor.
Qed.

(** One iteration: everything before the sleep, then the sleep. *)
Lemma collect_once_shape interval pass groups :
  ∃ before,
    collect_once w interval pass groups
    = MkM (before
           ++ [ESleep (py_max 0 (interval - processing_time w pass))])
          (Ok tt)
    ∧ Forall (λ e, is_sleep e = false) before.
Proof.
  pose proof (pass_events_no_sleep pass groups) as Hns.
  destruct (pass_shape w pass groups) as (work & counted & Hpass & _ & _).
  unfold collect_once. rewrite bind_emit.
  rewrite (m_bind_ok _ _ (length counted)) by (by rewrite Hpass).
  rewrite !bind_emit. cbn [trace outcome emit].
  eexists (_ :: _ ++ [_; _]). split.
  - cbn [app]. rewrite <- app_assoc. reflexivity.
  - constructor; [done|]. apply Forall_app_2; [exact Hns|].
    by repeat constructor.
Qed.

Lemma collector_loop_trace interval pass passes groups :
  collector_loop w interval pass passes groups
  = MkM (concat ((λ k, trace (collect_once w interval k groups))
                 <$> seq pass passes))
        (Ok tt).
Proof.
  revert pass. induction passes as [|passes IH]; intros pass; [done|].
  cbn [collector_loop seq fmap list_fmap concat].
  destruct (collect_once_shape interval pass groups) as (before & Hc & _).
  rewrite (m_bind_ok _ _ tt) by (by rewrite Hc).
  rewrite IH. reflexivity.
Qed.
End RdfSqlLoop.

(** C3. The collector loop runs its passes one after the other, and each
    pass ends with its only sleep. With [start] and [stop] the readings
    of the clock at the start of the pass and after its targets were
    processed, the measured processing time P is the float
    [stop - start], and the duration given to [time.sleep] is the float
    I - P when that is above 0, and 0 otherwise: max(0, I - P) in the
    arithmetic of Python, I being the configured interval. The duration
    is never below 0, and it is 0 whenever P > I. *)
Theorem sleep_compensates_processing
    (w : RdfSql.env) (interval : float) (first passes : nat)
    (groups : list string) :
  trace (RdfSql.collector_loop w interval first passes groups)
  = concat ((λ k, trace (RdfSql.collect_once w interval k groups))
            <$> seq first passes)
  ∧ ∀ k,
      let start := RdfSql.time_time w (2 * k) in
      let stop := RdfSql.time_time w (2 * k + 1) in
      let P := (stop - start)%float in
      let sleep_time :=
        (if 0 <? interval - P then interval - P else 0)%float in
      (∃ before,
         trace (RdfSql.collect_once w interval k groups)
         = before ++ [RdfSql.ESleep sleep_time]
         ∧ Forall (λ e, RdfSql.is_sleep e = false) before)
      ∧ (sleep_time <? 0)%float = false
      ∧ ((interval <? P)%float = true → sleep_time = 0%float).
Proof.
  split; [by rewrite collector_loop_trace|].
  intros k start stop P sleep_time. split; [|split].
  - destruct (collect_once_shape w interval k groups) as (before & -> & Hns).
    by exists before.
  - subst sleep_time.
    destruct (0 <? interval - P)%float eqn:Hpos; [|reflexivity].
    by apply float_above_zero.
  - intros Hlt. subst sleep_time. by rewrite (float_sub_sign _ _ Hlt).
Qed.

(** ** rdf_sql.py: startup *)

Section RdfSqlStartup.
Import RdfSql.
Variable w : env.

Lemma http_get_unfold answer url timeout :
  http_get answer url timeout
  = MkM [EGet url timeout]
        (match answer url with
         | Fails e => Raise e
         | Responds r => Ok r
         end).
Proof. unfold http_get. rewrite bind_emit. by destruct (answer url). Qed.

(** Without an inventory, [main] ends after the request, and after a
    line on the console when there was an answer. *)
Lemma main_without_inventory interval :
  inventory_failed w →
  ∃ m, (∀ passes, main_with w interval passes = Some m)
       ∧ (trace m = [EGet inventory_url None]
          ∨ ∃ line, trace m = [EGet inventory_url None; EPrint line]).
Proof.
  unfold inventory_failed, main_with. rewrite http_get_unfold.
  cbn [outcome trace].
  destruct (startup_get w inventory_url) as [e|r]; intros Hfail.
  - eexists. split; [reflexivity|]. by left.
  - apply Z.eqb_neq in Hfail. rewrite Hfail. cbn [negb].
    eexists. split; [reflexivity|]. right. unfold m_bind. cbn. eauto.
Qed.
End RdfSqlStartup.

(** C7. When the startup inventory request raises or answers with a
    status other than 200, [main] ends there: whatever the number of loop
    iterations observed, it has made that one request, printed at most one
    line, and has run no pass and written nothing to the database. A pass,
    or a database write, is seen only when the inventory request was
    answered with status 200. *)
Theorem no_inventory_no_collection (w : RdfSql.env) (interval : float) :
  (RdfSql.inventory_failed w →
   ∃ m, (∀ passes, RdfSql.main_with w interval passes = Some m)
        ∧ (trace m = [RdfSql.EGet RdfSql.inventory_url None]
           ∨ ∃ line, trace m = [RdfSql.EGet RdfSql.inventory_url None;
                                RdfSql.EPrint line])
        ∧ Forall (λ e, RdfSql.is_pass_start e = false
                       ∧ RdfSql.is_db_write e = false) (trace m))
  ∧ (∀ passes m e,
       RdfSql.main_with w interval passes = Some m →
       e ∈ trace m →
       RdfSql.is_pass_start e = true ∨ RdfSql.is_db_write e = true →
       ∃ r, RdfSql.startup_get w RdfSql.inventory_url = Responds r
            ∧ status_code r = 200%Z).
Proof.
  assert (Hfailed : RdfSql.inventory_failed w →
    ∃ m, (∀ passes, RdfSql.main_with w interval passes = Some m)
         ∧ (trace m = [RdfSql.EGet RdfSql.inventory_url None]
            ∨ ∃ line, trace m = [RdfSql.EGet RdfSql.inventory_url None;
                                 RdfSql.EPrint line])
         ∧ Forall (λ e, RdfSql.is_pass_start e = false
                        ∧ RdfSql.is_db_write e = false) (trace m)).
  { intros Hfail.
    destruct (main_without_inventory w interval Hfail) as (m & Hm & Ht).
    exists m. split; [done|]. split; [done|].
    destruct Ht as [-> | [line ->]]; by repeat constructor. }
  split; [exact Hfailed|].
  intros passes m e Hm He Hkind.
  destruct (RdfSql.startup_get w RdfSql.inventory_url) as [x|r] eqn:Hget.
  - exfalso. destruct Hfailed as (m' & Hm' & _ & Hall).
    { unfold RdfSql.inventory_failed. by rewrite Hget. }
    rewrite Hm' in Hm. injection Hm as <-.
    rewrite Forall_forall in Hall. destruct (Hall e He) as [H1 H2].
    destruct Hkind; congruence.
  - destruct (decide (status_code r = 200%Z)) as [Hs|Hs]; [eauto|].
    exfalso. destruct Hfailed as (m' & Hm' & _ & Hall).
    { unfold RdfSql.inventory_failed. by rewrite Hget. }
    rewrite Hm' in Hm. injection Hm as <-.
    rewrite Forall_forall in Hall. destruct (Hall e He) as [H1 H2].
    destruct Hkind; congruence.
Qed.

(** The statement at a server that answers 503 to the inventory request,
    and at one that answers 200 with two names. *)
Lemma no_inventory_no_collection_witness :
  (∃ m, (∀ passes,
           RdfSql.main_with
             (Sample.sql_world (Sample.constant 503 None) 5) 3600 passes
           = Some m)
        ∧ Forall (λ e, RdfSql.is_pass_start e = false
                       ∧ RdfSql.is_db_write e = false) (trace m))
  ∧ (∃ r, Sample.constant 200 (Some Sample.two_groups) RdfSql.inventory_url
          = Responds r ∧ status_code r = 200%Z).
Proof.
  split.
  - destruct (no_inventory_no_collection
                (Sample.sql_world (Sample.constant 503 None) 5) 3600)
      as [H _].
    destruct H as (m & Hm & _ & Hall); [discriminate|]. by exists m.
  - destruct (no_inventory_no_collection
                (Sample.sql_world
                   (Sample.constant 200 (Some Sample.two_groups)) 5) 3600)
      as [_ H].
    assert (∃ m, RdfSql.main_with
                   (Sample.sql_world
                      (Sample.constant 200 (Some Sample.two_groups)) 5) 3600 1
                 = Some m
                 ∧ RdfSql.EConnect ∈ trace m) as (m & Hm & He).
    { eexists. split; [vm_compute; reflexivity|]. cbn [trace].
      do 3 apply list_elem_of_further. apply list_elem_of_here. }
    apply (H 1 m RdfSql.EConnect Hm He). by left.
Defined.

(** ** What the two scripts count *)

Section RdfSqlCount.
Import RdfSql.
Variable w : env.
Variable session : string → http_outcome.
Variable now : datetime.

(** The loop over the values under 'rdfGroupInfo' returns when none of
    them makes [create_rdf_status_record] raise, and raises otherwise. *)
Lemma records_outcome sg rdf_groups :
  outcome (for_each rdf_groups (create_rdf_status_record w now sg))
  = Ok tt
  ∧ forallb (λ g, is_ok (outcome (create_rdf_status_record w now sg g)))
      rdf_groups = true
  ∨ (∃ e, outcome (for_each rdf_groups (create_rdf_status_record w now sg))
          = Raise e)
    ∧ forallb (λ g, is_ok (outcome (create_rdf_status_record w now sg g)))
        rdf_groups = false.
Proof.
  induction rdf_groups as [|g gs IH]; [by left|].
  cbn [for_each forallb]. rewrite outcome_bind.
  destruct (outcome (create_rdf_status_record w now sg g)) as [[]|e];
    cbn [is_ok andb]; [exact IH|].
  right. eauto.
Qed.

(** What the [try] block does with the value the fetch returned: the
    count goes up by one when the value is a mapping with an
    'rdfGroupInfo' key under which every value is made into a row;
    otherwise the block returns the count as it was, or raises. *)
Lemma counted_value processed sg v t :
  get_rdf_status session sg = MkM t (Ok v) →
  outcome (process_one w session now processed sg)
  = Ok (if match v with
           | JDict kvs =>
               match assoc "rdfGroupInfo" kvs with
               | Some info =>
                   match py_iter info with
                   | Ok rdf_groups =>
                       forallb
                         (λ g, is_ok (outcome (create_rdf_status_record
                                                 w now sg g)))
                         rdf_groups
                   | Raise _ => false
                   end
               | None => false
               end
           | _ => false
           end
        then processed + 1 else processed).
Proof.
  intros Hget. unfold process_one. rewrite outcome_try_except.
  unfold process_one_try. rewrite outcome_bind, Hget. cbn [outcome].
  rewrite outcome_bind. cbn [lift outcome].
  destruct v as [| | | |s|xs|kvs]; try reflexivity.
  - cbn [py_contains]. destruct (is_substring "rdfGroupInfo" s); reflexivity.
  - cbn [py_contains].
    destruct (existsb (is_str "rdfGroupInfo") xs); reflexivity.
  - cbn [py_contains].
    destruct (assoc "rdfGroupInfo" kvs) as [info|] eqn:Hinfo.
    + rewrite bool_decide_true by eauto.
      rewrite outcome_bind. cbn [lift outcome py_getitem]. rewrite Hinfo.
      rewrite outcome_bind. cbn [lift outcome].
      destruct (py_iter info) as [rdf_groups|e]; [|reflexivity].
      rewrite outcome_bind.
      destruct (records_outcome sg rdf_groups) as [[-> ->] | [[e ->] ->]];
        reflexivity.
    + rewrite bool_decide_false by (by intros [? ?]).
      rewrite outcome_bind. cbn [lift outcome py_get]. reflexivity.
Qed.

(** The work on a target adds one to the count exactly when the target
    is one that is stored. *)
Lemma process_one_stored processed sg :
  outcome (process_one w session now processed sg)
  = Ok (if stored w session now sg then processed + 1 else processed).
Proof.
  unfold stored.
  destruct (session (rdf_url sg)) as [e|r] eqn:Hr.
  - by rewrite (counted_value processed sg _ _ (sql_fetch_fails session sg e Hr)).
  - destruct (decide (status_code r = 200%Z)) as [Hs|Hs].
    + rewrite Hs. cbn [Z.eqb Pos.eqb andb].
      destruct (body r) as [v|] eqn:Hb.
      * rewrite (counted_value processed sg _ _
                   (sql_fetch_200 session sg r v Hr Hs Hb)).
        by destruct v.
      * destruct (sql_fetch_200_no_json session sg r Hr Hs Hb) as [msg Hget].
        by rewrite (counted_value processed sg _ _ Hget).
    + rewrite (counted_value processed sg _ _
                 (sql_fetch_other_status session sg r Hr Hs)).
      apply Z.eqb_neq in Hs. by rewrite Hs.
Qed.

Lemma fold_stored processed groups :
  outcome (fold_m (process_one w session now) processed groups)
  = Ok (processed
        + length (filter (λ sg, stored w session now sg = true) groups)).
Proof.
  revert processed. induction groups as [|sg groups IH]; intros processed.
  - cbn. f_equal. lia.
  - cbn [fold_m]. rewrite outcome_bind, process_one_stored, IH.
    rewrite filter_cons.
    destruct (stored w session now sg) eqn:Hst.
    + rewrite decide_True by done. cbn [length]. f_equal. lia.
    + by rewrite decide_False by done.
Qed.

(** A stored target answered with an 'rdfGroupInfo' key. *)
Lemma stored_has_info sg :
  stored w session now sg = true → has_rdf_info session sg = true.
Proof.
  unfold stored, has_rdf_info.
  destruct (session (rdf_url sg)) as [e|r]; [done|].
  destruct (status_code r =? 200)%Z; [|done]. cbn [andb].
  destruct (body r) as [[| | | | | |kvs]|]; try done.
  destruct (assoc "rdfGroupInfo" kvs) as [info|]; [|done].
  intros _. by rewrite bool_decide_true by eauto.
Qed.
End RdfSqlCount.

(** The count of a pass is the count of the loop over its targets. *)
Lemma pass_counts (w : RdfSql.env) (pass : nat) (groups : list string) :
  outcome (RdfSql.process_storage_groups w pass groups)
  = Ok (length
          (filter (λ sg, RdfSql.stored w (RdfSql.pass_get w pass)
                           (RdfSql.now_utc w (2 * pass + 1)) sg = true)
             groups)).
Proof.
  pose proof (fold_stored w (RdfSql.pass_get w pass)
                (RdfSql.now_utc w (2 * pass + 1)) 0 groups) as Hfold.
  unfold RdfSql.process_storage_groups. rewrite bind_emit.
  rewrite (m_bind_ok _ _ _ Hfold). reflexivity.
Qed.

(** C10 (amended). When [process_batch] returns, it returns the number
    of targets of the batch, those whose fetch gave an error value
    included. When [process_storage_groups] returns, it returns the
    number of targets that answered 200 with a mapping under whose
    'rdfGroupInfo' key every value was made into a row without an
    exception: a target is counted only if its answer has the key, and
    failed or shape-mismatched targets are not counted. *)
Theorem what_processed_counts
    (w : Rdf.env) (batch : list string) (batch_num : nat)
    (w' : RdfSql.env) (pass : nat) (groups : list string) :
  (∀ n, outcome (Rdf.process_batch w batch batch_num) = Ok n →
        n = length batch)
  ∧ (∀ n,
       outcome (RdfSql.process_storage_groups w' pass groups) = Ok n →
       n = length
             (filter
                (λ sg, RdfSql.stored w' (RdfSql.pass_get w' pass)
                         (RdfSql.now_utc w' (2 * pass + 1)) sg = true)
                groups))
  ∧ (∀ sg, RdfSql.stored w' (RdfSql.pass_get w' pass)
             (RdfSql.now_utc w' (2 * pass + 1)) sg = true →
           RdfSql.has_rdf_info (RdfSql.pass_get w' pass) sg = true).
Proof.
  destruct (fetch_batch_results w batch) as (results & Hr & Hall).
  destruct (process_batch_unfold w batch batch_num results Hr) as [_ Hout].
  assert (Hlen : length results = length batch)
    by (symmetry; by eapply Forall2_length).
  split; [|split].
  - intros n. rewrite Hout.
    destruct (outcome (Rdf.write_csv _ results)); [|done].
    intros [= <-]. exact Hlen.
  - intros n. rewrite pass_counts. by intros [= <-].
  - apply stored_has_info.
Qed.

(** The amended statement at a batch whose second target times out: the
    count is 3, the failed target included; and at a pass over the same
    three targets: the count is 2, the two targets that are stored. *)
Lemma what_processed_counts_witness :
  outcome (Rdf.process_batch (Sample.rdf_world (Sample.all_but "SG2"))
             ["SG1"; "SG2"; "SG3"] 1) = Ok 3
  ∧ 3 = length ["SG1"; "SG2"; "SG3"]
  ∧ outcome (RdfSql.process_storage_groups
               (RdfSqlRun.world (Sample.all_but "SG2")) 0
               ["SG1"; "SG2"; "SG3"])
    = Ok 2
  ∧ 2 = length
          (filter
             (λ sg, RdfSql.stored (RdfSqlRun.world (Sample.all_but "SG2"))
                      (Sample.all_but "SG2") 1704110400%Z sg = true)
             ["SG1"; "SG2"; "SG3"]).
Proof.
  destruct (what_processed_counts
              (Sample.rdf_world (Sample.all_but "SG2"))
              ["SG1"; "SG2"; "SG3"] 1
              (RdfSqlRun.world (Sample.all_but "SG2")) 0
              ["SG1"; "SG2"; "SG3"])
    as (Hbatch & Hpass & _).
  assert (H1 : outcome (Rdf.process_batch
                          (Sample.rdf_world (Sample.all_but "SG2"))
                          ["SG1"; "SG2"; "SG3"] 1) = Ok 3)
    by (vm_compute; reflexivity).
  assert (H2 : outcome (RdfSql.process_storage_groups
                          (RdfSqlRun.world (Sample.all_but "SG2")) 0
                          ["SG1"; "SG2"; "SG3"]) = Ok 2)
    by (vm_compute; reflexivity).
  split; [exact H1|]. split; [exact (Hbatch 3 H1)|].
  split; [exact H2|]. exact (Hpass 2 H2).
Defined.

(** C10 as stated fails: a target answers 200 with an 'rdfGroupInfo' list
    that holds a number; the CSV summary calls [get] on it and
    [process_batch] raises instead of returning 1. *)
Lemma process_batch_can_raise :
  let w := Sample.rdf_world
             (Sample.constant 200 (Some (Sample.rdf_info [JInt 1]))) in
  outcome (Rdf.process_batch w ["SG1"] 1)
  = Raise (Exn "AttributeError" "'int' object has no attribute 'get'")
  ∧ outcome (Rdf.process_batch w ["SG1"] 1) ≠ Ok 1.
Proof. split; [vm_compute; reflexivity | vm_compute; discriminate]. Qed.

(** ** uniVmax_rdf.py: pagination *)

Section Pagination.
Import UniVmax.
Variable session : nat → http_outcome.
Variable url : string.

Lemma next_step_page r data items params results :
  raise_for_status r = Ok tt → body r = Some data →
  page_items data = Some items →
  next_step (Responds r) params results
  = Ok (after_page data params (results ++ items)).
Proof.
  intros Hs Hb Hitems. unfold next_step, after_page, response_json.
  cbn [bind_result]. rewrite Hs, Hb. cbn [bind_result].
  unfold page_items, next_page_key, result_list in *.
  destruct data as [| | | | | |kvs]; try done.
  destruct (assoc "resultList" kvs) as [[| | | | | |fields]|] eqn:Hrl;
    try done.
  destruct (assoc "result" fields) as [[| | | | |items'|]|] eqn:Hres;
    try done.
  injection Hitems as ->.
  unfold is_paginated. rewrite Hrl, bool_decide_true by eauto.
  cbn [py_getitem bind_result]. rewrite Hrl. cbn [bind_result py_getitem].
  rewrite Hres. cbn [bind_result py_iter py_contains].
  destruct (assoc "nextPageKey" fields) as [key|] eqn:Hkey.
  - rewrite bool_decide_true by eauto.
    cbn [bind_result py_getitem]. by destruct (truthy key).
  - by rewrite bool_decide_false by (by intros [? ?]).
Qed.

Lemma page_step_page n data params results :
  answers session n data → is_Some (page_items data) →
  ∃ items, page_items data = Some items
           ∧ page_step (session n) url params results
             = MkM [EGet url params]
                   (Ok (after_page data params (results ++ items))).
Proof.
  intros (r & -> & Hs & Hb) [items Hitems]. exists items. split; [done|].
  unfold page_step. by rewrite bind_emit, (next_step_page r data items).
Qed.

Lemma page_step_plain n data params results :
  answers session n data → is_paginated data = false →
  page_step (session n) url params results
  = MkM [EGet url params] (Ok (Return data)).
Proof.
  intros (r & -> & Hs & Hb) Hplain.
  unfold page_step, next_step, response_json.
  rewrite bind_emit. cbn [bind_result]. rewrite Hs, Hb. cbn [bind_result].
  by rewrite Hplain.
Qed.

Lemma requests_snoc params pages last :
  requests url params (pages ++ [last])
  = requests url params pages ++ [EGet url (params_after params pages)].
Proof.
  revert params. induction pages as [|data pages IH]; intros params; [done|].
  cbn [app requests params_after]. by rewrite IH.
Qed.

Lemma all_items_snoc pages last items :
  page_items last = Some items →
  all_items (pages ++ [last]) = all_items pages ++ items.
Proof.
  intros Hi. unfold all_items. rewrite omap_app, concat_app.
  cbn [omap list_omap]. rewrite Hi. cbn [concat]. by rewrite app_nil_r.
Qed.

(** The loop goes through pages that continue: one request for each,
    their items added to the results, and the answer after them decides
    how the loop goes on. *)
Lemma paginate_through pages : ∀ n params results fuel,
  continuing session n pages →
  paginate session url (length pages + fuel) n params results
  = (λ rest, MkM (requests url params pages ++ trace rest) (outcome rest))
    <$> paginate session url fuel (n + length pages)
          (params_after params pages) (results ++ all_items pages).
Proof.
  induction pages as [|data pages IH]; intros n params results fuel Hcont.
  - cbn [length Nat.add requests params_after app].
    unfold all_items. cbn [omap list_omap concat].
    rewrite Nat.add_0_r, app_nil_r.
    by destruct (paginate session url fuel n params results) as [[]|].
  - destruct (Hcont 0 data eq_refl) as (Hans & Hitems & key & Hkey & Htrue).
    rewrite Nat.add_0_r in Hans.
    destruct (page_step_page n data params results Hans Hitems)
      as (items & Hi & Hstep).
    cbn [length Nat.add paginate requests params_after].
    rewrite Hstep. cbn [outcome trace].
    unfold after_page, next_params. rewrite Hkey, Htrue.
    rewrite IH.
    2:{ intros k d Hd. replace (S n + k) with (n + S k) by lia.
        by apply Hcont. }
    replace (n + S (length pages)) with (S n + length pages) by lia.
    unfold all_items. cbn [omap list_omap]. rewrite Hi. cbn [concat].
    rewrite <- app_assoc.
    by destruct (paginate session url fuel _ _ _) as [rest|].
Qed.
End Pagination.

(** C2 (amended). When the successive answers are pages, each with a list
    of items and a truthy (non-empty) next-page key, followed by a last
    page with no next-page key or a falsy one, [_get_paginated] returns
    the items of all pages, in page order, after one request per page,
    each carrying the key of the page before. When these pages are
    followed instead by a body that is not a mapping with a 'resultList'
    entry, and so when the first answer is of this kind, it returns that
    parsed body unchanged. *)
Theorem pagination_collects_pages
    (session : nat → http_outcome) (url : string)
    (params : option (gmap string json)) (limit : Z)
    (pages : list json) (last : json) (fuel : nat) :
  UniVmax.continuing session 0 pages →
  UniVmax.answers session (length pages) last →
  length pages < fuel →
  let first := <["pageSize" := JInt limit]> (default ∅ params) in
  (UniVmax.ends last →
   UniVmax._get_paginated session url params limit fuel
   = Some (MkM (UniVmax.requests url first (pages ++ [last]))
               (Ok (JList (UniVmax.all_items (pages ++ [last]))))))
  ∧ (UniVmax.is_paginated last = false →
     UniVmax._get_paginated session url params limit fuel
     = Some (MkM (UniVmax.requests url first (pages ++ [last])) (Ok last))).
Proof.
  intros Hcont Hans Hfuel first. unfold UniVmax._get_paginated. fold first.
  replace fuel with (length pages + S (fuel - S (length pages))) by lia.
  rewrite (paginate_through session url pages 0 first [] _ Hcont).
  rewrite requests_snoc.
  cbn [Nat.add app UniVmax.paginate]. split.
  - intros [Hitems Hkey].
    destruct (page_step_page session url _ last
                (UniVmax.params_after first pages) (UniVmax.all_items pages)
                Hans Hitems) as (items & Hi & ->).
    cbn [outcome trace]. unfold UniVmax.after_page.
    rewrite (all_items_snoc pages last items Hi).
    destruct (UniVmax.next_page_key last) as [key|] eqn:Hk.
    + by rewrite (Hkey key eq_refl).
    + done.
  - intros Hplain.
    by rewrite (page_step_plain session url _ last _ _ Hans Hplain).
Qed.

(** The amended statement at two pages, the first with the key ["k1"],
    and at a first answer that is a plain list. *)
Lemma pagination_collects_pages_witness :
  let url := "https://unisphere/univmax/restapi/90/system/symmetrix" in
  let first := UniVmax.page [JInt 1; JInt 2] (Some (JStr "k1")) in
  let last := UniVmax.page [JInt 3] None in
  outcome <$> UniVmax._get_paginated (UniVmax.serve [first; last]) url None
                1000 5
  = Some (Ok (JList [JInt 1; JInt 2; JInt 3]))
  ∧ outcome <$> UniVmax._get_paginated (UniVmax.serve [JList [JInt 7]]) url
                  None 1000 5
    = Some (Ok (JList [JInt 7])).
Proof.
  intros url first last. split.
  - destruct (pagination_collects_pages
                (UniVmax.serve [first; last]) url None 1000 [first] last 5)
      as [H _].
    + intros k data Hk. destruct k as [|k]; [|discriminate].
      injection Hk as <-. split.
      * eexists. repeat split; reflexivity.
      * split; [eexists; reflexivity|]. eexists. split; reflexivity.
    + eexists. repeat split; reflexivity.
    + cbn; lia.
    + rewrite H; [reflexivity|].
      split; [eexists; reflexivity|]. intros key. discriminate.
  - destruct (pagination_collects_pages
                (UniVmax.serve [JList [JInt 7]]) url None 1000 []
                (JList [JInt 7]) 5)
      as [_ H].
    + intros k data Hk. discriminate.
    + eexists. repeat split; reflexivity.
    + cbn; lia.
    + rewrite H; reflexivity.
Defined.

(** C2 as stated fails: the first of two pages carries the next-page key
    0, which the loop takes for no key at all; it stops there and returns
    the items of the first page only. *)
Lemma falsy_key_ends_pagination :
  let url := "https://unisphere/univmax/restapi/90/system/symmetrix" in
  let pages := [UniVmax.page [JInt 1] (Some (JInt 0));
                UniVmax.page [JInt 2] None] in
  (∀ k data, pages !! k = Some data →
     UniVmax.answers (UniVmax.serve pages) k data
     ∧ is_Some (UniVmax.page_items data)
     ∧ (S k < length pages ↔ is_Some (UniVmax.next_page_key data)))
  ∧ outcome <$> UniVmax._get_paginated (UniVmax.serve pages) url None 1000 5
    = Some (Ok (JList [JInt 1]))
  ∧ UniVmax.all_items pages = [JInt 1; JInt 2].
Proof.
  intros url pages. split; [|split; [vm_compute; reflexivity | reflexivity]].
  intros k data Hk.
  destruct k as [|[|k]]; cbn in Hk; [injection Hk as <-..|discriminate].
  - split; [eexists; repeat split; reflexivity|].
    split; [eexists; reflexivity|]. split; [eexists; reflexivity | cbn; lia].
  - split; [eexists; repeat split; reflexivity|].
    split; [eexists; reflexivity|]. split; [cbn; lia | by intros [? ?]].
Qed.

(** ** The statements on sample worlds *)

(** The scenario of three targets in batches of two. *)
Example three_targets_in_batches_of_two :
  split_batches 2 ["SG1"; "SG2"; "SG3"] = Ok [["SG1"; "SG2"]; ["SG3"]].
Proof. reflexivity. Qed.

(** Two batches, one target timing out: both batches are processed and
    one delay separates them. *)
Lemma delay_between_batches_witness :
  length (filter (λ e, Rdf.is_sleep e = true)
            (trace (Rdf.run_batches (Sample.rdf_world (Sample.all_but "SG2"))
                      [["SG1"; "SG2"]; ["SG3"]]))) = 1.
Proof.
  destruct (delay_between_batches (Sample.rdf_world (Sample.all_but "SG2"))
              [["SG1"; "SG2"]; ["SG3"]])
    as (started & _ & _ & Hall & _ & _ & _ & Hcount & _).
  rewrite Hcount, Hall; [reflexivity|]. vm_compute. reflexivity.
Defined.

Lemma process_batch_results_aligned_witness :
  ∃ results v,
    outcome (Rdf.fetch_batch (Sample.rdf_world (Sample.all_but "SG2"))
               ["SG1"; "SG2"; "SG3"]) = Ok results
    ∧ length results = 3
    ∧ results !! 2 = Some (JDict [("SG3", v)]).
Proof.
  destruct (process_batch_results_aligned
              (Sample.rdf_world (Sample.all_but "SG2"))
              ["SG1"; "SG2"; "SG3"] 1)
    as (results & Hr & Hlen & Hkeys & _).
  destruct (Hkeys 2 "SG3" eq_refl) as [v Hv].
  exists results, v. repeat split; assumption.
Defined.

(** A pass that starts at 1704110400 on the clock and takes 4000 seconds
    against an interval of 3600: the sleep is 0. A pass that takes 5
    seconds: the sleep is 3595. *)
Lemma sleep_compensates_processing_witness :
  (∃ before,
     trace (RdfSql.collect_once
              (Sample.sql_world (Sample.constant 503 None) 4000) 3600 0
              ["SG1"; "SG2"])
     = before ++ [RdfSql.ESleep 0])
  ∧ (∃ before,
       trace (RdfSql.collect_once
                (Sample.sql_world (Sample.constant 503 None) 5) 3600 0
                ["SG1"; "SG2"])
       = before ++ [RdfSql.ESleep 3595]).
Proof.
  split.
  - destruct (sleep_compensates_processing
                (Sample.sql_world (Sample.constant 503 None) 4000) 3600 0 1
                ["SG1"; "SG2"]) as [_ H].
    destruct (H 0) as ((before & Hb & _) & _ & Hzero).
    exists before. rewrite Hb, Hzero; reflexivity.
  - destruct (sleep_compensates_processing
                (Sample.sql_world (Sample.constant 503 None) 5) 3600 0 1
                ["SG1"; "SG2"]) as [_ H].
    destruct (H 0) as ((before & Hb & _) & _ & _).
    exists before. rewrite Hb. reflexivity.
Defined.

(** A pass over two targets on an empty table: a crash before the commit
    leaves the table empty; the completed pass leaves the accepted rows. *)
Lemma single_commit_ends_pass_witness :
  ∃ work,
    RdfSql.table
      (RdfSql.crash
         (RdfSql.db_run (RdfSql.Db [] []) (RdfSql.EConnect :: work))) = []
    ∧ RdfSql.table
        (RdfSql.db_run (RdfSql.Db [] [])
           (trace (RdfSql.process_storage_groups
                     (Sample.sql_world (Sample.constant 503 None) 5) 0
                     ["SG1"; "SG2"])))
      = RdfSql.accepted work.
Proof.
  destruct (single_commit_ends_pass
              (Sample.sql_world (Sample.constant 503 None) 5) 0
              ["SG1"; "SG2"])
    as (work & processed & _ & _ & _ & Hcrash & Hdone).
  exists work. split.
  - by apply (Hcrash (RdfSql.Db [] [])).
  - by rewrite Hdone.
Defined.

(** The completed pass above inserts one row per target and commits
    both. *)
Example completed_pass_commits_two_rows :
  length (RdfSql.table
            (RdfSql.db_run (RdfSql.Db [] [])
               (trace (RdfSql.process_storage_groups
                         (Sample.sql_world (Sample.constant 503 None) 5) 0
                         ["SG1"; "SG2"])))) = 2.
Proof. vm_compute. reflexivity. Qed.

(** With a 503 answer to the inventory request, [main] makes the request,
    prints one line and returns. *)
Example main_ends_on_503 :
  RdfSql.main (Sample.sql_world (Sample.constant 503 None) 5) 3
  = Some (MkM [RdfSql.EGet RdfSql.inventory_url None;
               RdfSql.EPrint [RdfSql.FText "Failed to get storage groups: HTTP ";
                              RdfSql.FJson (JInt 503)]]
              (Ok tt)).
Proof. reflexivity. Qed.

(** * Further properties *)

(** ** rdf.py: batches, requests and reports *)

Section MoreBatching.
Context {A : Type}.

Lemma range_from_lt fuel start stop step k i :
  range_from fuel start stop step !! k = Some i → i < stop.
Proof.
  revert start k. induction fuel as [|fuel IH]; intros start k; simpl.
  - by rewrite lookup_nil.
  - destruct (Nat.ltb_spec start stop); [|by rewrite lookup_nil].
    destruct k as [|k]; simpl.
    + by intros [= <-].
    + apply IH.
Qed.

Lemma split_batches_inv B (l : list A) batches :
  0 < B → split_batches B l = Ok batches →
  batches = (λ i, py_slice l i (i + B)) <$> range_from (length l) 0 (length l) B.
Proof.
  intros HB. unfold split_batches, py_range.
  destruct (Nat.eqb_spec B 0) as [->|_]; [lia|]. simpl. by intros [= <-].
Qed.

Lemma split_batches_concat B (l : list A) batches :
  0 < B → split_batches B l = Ok batches → concat batches = l.
Proof.
  intros HB ->%split_batches_inv; [|done].
  by rewrite (range_from_concat _ 0 (length l) B l) by lia.
Qed.

Lemma split_batches_length B (l : list A) batches :
  0 < B → split_batches B l = Ok batches →
  length batches = (length l + (B - 1)) / B.
Proof.
  intros HB ->%split_batches_inv; [|done]. rewrite length_fmap.
  destruct (range_from_length (length l) 0 (length l) B) as [H1 H2];
    [lia..|].
  set (n := length (range_from _ _ _ _)) in *.
  apply (Nat.div_unique _ _ _ (length l + (B - 1) - n * B)); lia.
Qed.
End MoreBatching.

(** X1. With a batch size B > 0, no batch is empty, none has more than B
    targets, and every batch but the last has exactly B. *)
Theorem batches_are_full_but_last {A} (B : nat) (l : list A)
    (batches : list (list A)) (k : nat) (b : list A) :
  0 < B → split_batches B l = Ok batches → batches !! k = Some b →
  0 < length b ≤ B ∧ (S k < length batches → length b = B).
Proof.
  intros HB ->%split_batches_inv Hk; [|done].
  rewrite list_lookup_fmap in Hk.
  destruct (range_from _ _ _ _ !! k) as [i|] eqn:Hi; [|done].
  injection Hk as <-.
  pose proof (range_from_lt _ _ _ _ _ _ Hi) as Hlt.
  apply range_from_lookup in Hi as Hik. simpl in Hik. subst i.
  unfold py_slice. rewrite length_take, length_drop.
  replace (k * B + B - k * B) with B by lia. split; [lia|].
  rewrite length_fmap. intros Hnext.
  destruct (lookup_lt_is_Some_2 _ _ Hnext) as [i' Hi'].
  pose proof (range_from_lt _ _ _ _ _ _ Hi') as Hlt'.
  apply range_from_lookup in Hi'. simpl in Hi'. lia.
Qed.

Lemma batches_are_full_but_last_witness :
  0 < length ["SG1"; "SG2"] ≤ 2
  ∧ (1 < length [["SG1"; "SG2"]; ["SG3"]] → length ["SG1"; "SG2"] = 2).
Proof.
  apply (batches_are_full_but_last 2 ["SG1"; "SG2"; "SG3"]
           [["SG1"; "SG2"]; ["SG3"]] 0 ["SG1"; "SG2"]);
    [lia | reflexivity | reflexivity].
Defined.

Section MoreMonad.
Context {E : Type}.

(** A loop whose iterations all return does what they do, one after the
    other. *)
Lemma for_each_traces {A} (body : A → M E unit) (t : A → list E) xs :
  (∀ x, x ∈ xs → body x = MkM (t x) (Ok tt)) →
  for_each xs body = MkM (concat (t <$> xs)) (Ok tt).
Proof.
  induction xs as [|x xs IH]; intros Hb; [done|].
  cbn [for_each fmap list_fmap concat].
  rewrite (m_bind_ok _ _ tt) by (rewrite Hb; [done | by left]).
  rewrite IH by (intros x' Hx'; apply Hb; by right).
  rewrite Hb by by left. reflexivity.
Qed.

(** A pure step that returns leaves no trace. *)
Lemma bind_lift_val {A B} (a : A) (f : A → M E B) :
  m_bind (lift (Ok a)) f = f a.
Proof. unfold m_bind. cbn. by destruct (f a). Qed.

Lemma filter_all (P : E → Prop) `{!∀ e, Decision (P e)} (l : list E) :
  Forall P l → filter P l = l.
Proof.
  induction l as [|e l IH]; [done|]. intros [He Hl]%Forall_cons.
  rewrite filter_cons_True by done. by rewrite IH.
Qed.

(** Filtering a trace made of blocks, when the separator is filtered
    out. *)
Lemma filter_join_with (P : E → Prop) `{!∀ e, Decision (P e)}
    (sep : list E) (blocks : list (list E)) :
  Forall (λ e, ¬ P e) sep →
  filter P (join_with sep blocks) = concat (filter P <$> blocks).
Proof.
  intros Hsep. induction blocks as [|block blocks IH]; [done|].
  destruct blocks as [|block' blocks].
  - cbn. by rewrite app_nil_r.
  - rewrite join_with_cons by done.
    rewrite !filter_app, (filter_none P sep), IH by done. reflexivity.
Qed.
End MoreMonad.

Section RdfReports.
Import Rdf RdfReport.
Variable w : env.

(** The summary of a value it can go through: the rows of its pairings. *)
Lemma csv_rows_of_ready_item file item :
  csv_ready item.2 = true →
  csv_rows_of_item file item = MkM (ECsvRow file <$> item_rows item) (Ok tt).
Proof.
  destruct item as [sg data]. unfold csv_rows_of_item, csv_ready, item_rows.
  cbn [fst snd]. destruct data as [| | | | |xs|kvs]; try done.
  cbn [isinstance_dict py_get].
  destruct (assoc "rdfGroupInfo" kvs) as [info|] eqn:Hinfo; cbn [default].
  - destruct info as [| | | | |rdf_groups|]; try done. intros Hall.
    rewrite bind_lift_ok. cbv beta.
    change (py_iter (id (JList rdf_groups))) with (Ok rdf_groups).
    rewrite bind_lift_ok. cbv beta.
    rewrite (for_each_traces _ (λ g, [ECsvRow file (pairing_row sg g)])).
    + cbn [trace outcome]. f_equal. clear Hall Hinfo.
      induction rdf_groups as [|g gs IH]; [done|]. cbn. by rewrite IH.
    + intros g Hg. rewrite forallb_forall in Hall. specialize (Hall g).
      rewrite <- list_elem_of_In in Hall. specialize (Hall Hg).
      by destruct g.
  - intros _. reflexivity.
Qed.

Lemma write_csv_ready file results :
  (∀ result, result ∈ results →
     ∃ sg data, result = JDict [(sg, data)] ∧ csv_ready data = true) →
  write_csv file results = MkM (ECsvRow file <$> summary results) (Ok tt).
Proof.
  intros Hres. unfold write_csv, summary. rewrite bind_emit.
  rewrite (for_each_traces _ (λ result, ECsvRow file <$> result_rows result)).
  - cbn [trace outcome fmap list_fmap]. do 2 f_equal.
    induction results as [|r rs IH]; [done|].
    cbn [fmap list_fmap concat]. rewrite fmap_app. f_equal. apply IH.
    intros r' Hr'. apply Hres. by right.
  - intros result Hin.
    destruct (Hres result Hin) as (sg & data & -> & Hready).
    change (py_items (JDict [(sg, data)])) with (Ok [(sg, data)]).
    rewrite bind_lift_ok. cbn [for_each].
    rewrite (m_bind_ok _ _ tt), (csv_rows_of_ready_item file (sg, data))
      by (by rewrite ?csv_rows_of_ready_item).
    cbn. by rewrite !app_nil_r.
Qed.

(** The results of a batch whose 200 bodies the summary can go through. *)
Lemma ready_results batch results :
  (∀ sg r data,
     sg ∈ batch → session_get w (rdf_url sg) = Responds r →
     status_code r = 200%Z → body r = Some data → csv_ready data = true) →
  Forall2 (λ sg result, outcome (get_rdf_status w sg) = Ok result)
    batch results →
  ∀ result, result ∈ results →
    ∃ sg data, result = JDict [(sg, data)] ∧ csv_ready data = true.
Proof.
  intros Hready Hall result [i Hi]%list_elem_of_lookup.
  destruct (Forall2_lookup_r _ _ _ _ _ Hall Hi) as (sg & Hsg & Hfetch).
  destruct (rdf_entry_cases w sg result Hfetch)
    as (data & -> & [(r & Hget & Hs & Hb) | (msg & ->)]).
  - exists sg, data. split; [done|].
    eapply Hready; [|done..]. by eapply list_elem_of_lookup_2.
  - by exists sg, (JStr msg).
Qed.
(** The requests of a batch, among all it does. *)
Lemma process_batch_gets batch batch_num :
  filter (λ e, is_get e = true) (trace (process_batch w batch batch_num))
  = poll <$> batch.
Proof.
  destruct (fetch_batch_results w batch) as (results & Hr & _).
  destruct (process_batch_unfold w batch batch_num results Hr) as [-> _].
  rewrite filter_app, filter_cons_False by done.
  rewrite filter_all, filter_none, app_nil_r; [done| |].
  - eapply Forall_impl; [apply write_csv_only_rows|]. by intros [].
  - apply Forall_fmap, Forall_forall. by intros sg _.
Qed.

(** The work on a batch that is processed to its end. *)
Lemma batch_work_returns total i batch n :
  outcome (process_batch w batch i) = Ok n →
  outcome (batch_work w total i batch) = Ok tt
  ∧ filter (λ e, is_get e = true) (trace (batch_work w total i batch))
    = poll <$> batch
  ∧ filter (λ e, is_sleep e = true) (trace (batch_work w total i batch)) = [].
Proof.
  intros Hn. unfold batch_work. rewrite bind_emit.
  rewrite (m_bind_ok _ _ n Hn). cbn [trace outcome emit].
  split; [done|]. split.
  - rewrite filter_cons_False, filter_app, process_batch_gets by done.
    by rewrite filter_cons_False, app_nil_r by done.
  - apply filter_none. constructor; [by intros ?|].
    apply Forall_app_2; [|by repeat constructor].
    pose proof (batch_work_never_sleeps w total i batch) as Hns.
    unfold batch_work in Hns. rewrite bind_emit in Hns.
    apply Forall_cons in Hns as [_ Hns]. rewrite trace_bind, Hn in Hns.
    apply Forall_app in Hns as [Hns _].
    eapply Forall_impl; [exact Hns|]. intros e He. by rewrite He.
Qed.

(** The loop over batches that are all processed to their end: every
    target is asked once, and a delay follows each batch but the last. *)
Lemma run_from_all_processed total i batches :
  i + length batches = S total →
  (∀ batch k, batch ∈ batches →
     is_ok (outcome (process_batch w batch k)) = true) →
  outcome (run_from w total i batches) = Ok tt
  ∧ filter (λ e, is_get e = true) (trace (run_from w total i batches))
    = poll <$> concat batches
  ∧ length (filter (λ e, is_sleep e = true)
              (trace (run_from w total i batches)))
    = length batches - 1.
Proof.
  revert i. induction batches as [|batch rest IH]; intros i Hi Hall; [done|].
  cbn [run_from length concat] in *.
  destruct (outcome (process_batch w batch i)) as [n|] eqn:Hn.
  2:{ specialize (Hall batch i ltac:(by left)). by rewrite Hn in Hall. }
  destruct (batch_work_returns total i batch n Hn) as (Hok & Hgets & Hsleeps).
  destruct (IH (S i)) as (Hrest & Hrgets & Hrsleeps); [lia| |].
  { intros b k Hb. apply Hall. by right. }
  assert (Hstep : outcome (batch_step w total i batch) = Ok tt).
  { pose proof (batch_step_outcome w total i batch) as H.
    rewrite Hok in H. cbn [is_ok] in H.
    destruct (outcome (batch_step w total i batch)) as [[]|];
      [reflexivity | discriminate]. }
  rewrite outcome_bind, trace_bind, Hstep, batch_step_trace, Hok.
  cbn [is_ok andb]. split; [done|].
  rewrite !filter_app, Hgets, Hsleeps, Hrgets, fmap_app, length_app, Hrsleeps.
  destruct (Nat.ltb_spec i total).
  - rewrite filter_cons_False, filter_cons_True by done.
    cbn. rewrite app_nil_r. split; [done|]. lia.
  - cbn. rewrite app_nil_r. split; [done|]. lia.
Qed.
End RdfReports.

(** X2. [process_batch] makes exactly one request per target of the
    batch, each with a timeout of 30 seconds, whatever the answers: no
    target is skipped and none is asked twice. All the requests are made
    before the JSON report is written, and the rows of the CSV summary
    are written after it. Nothing is said of the order of the requests
    among themselves, which is the pool's. *)
Theorem process_batch_polls_each_target_once
    (w : Rdf.env) (batch : list string) (batch_num : nat) :
  ∃ requests results rows,
    trace (Rdf.process_batch w batch batch_num)
    = requests
      ++ Rdf.EJsonDump (Rdf.output_file batch_num (Rdf.strftime w batch_num))
           results
         :: rows
    ∧ requests ≡ₚ RdfReport.poll <$> batch
    ∧ Forall (λ e, Rdf.is_csv_row e = true) rows.
Proof.
  destruct (fetch_batch_results w batch) as (results & Hr & _).
  destruct (process_batch_unfold w batch batch_num results Hr) as [Ht _].
  exists (RdfReport.poll <$> batch), results,
    (trace (Rdf.write_csv
              (Rdf.csv_file batch_num (Rdf.strftime w batch_num))
              results)).
  split; [exact Ht|]. split; [done|]. apply write_csv_only_rows.
Qed.

(** X3. When every body fetched with status 200 is one the summary can go
    through, the CSV file of a batch holds the header row, then one row
    per RDF pairing, in the order of the batch and of each body's
    'rdfGroupInfo': the target, then the pairing's number, state, mode and
    status, [None] for a field the pairing lacks. A target whose fetch
    failed, or whose body has no 'rdfGroupInfo', has no row. *)
Theorem csv_summary_has_a_row_per_pairing
    (w : Rdf.env) (batch : list string) (batch_num : nat) :
  (∀ sg r data,
     sg ∈ batch → Rdf.session_get w (Rdf.rdf_url sg) = Responds r →
     status_code r = 200%Z → body r = Some data →
     Rdf.csv_ready data = true) →
  ∃ results,
    outcome (Rdf.fetch_batch w batch) = Ok results
    ∧ filter (λ e, Rdf.is_csv_row e = true)
        (trace (Rdf.process_batch w batch batch_num))
      = Rdf.ECsvRow (Rdf.csv_file batch_num (Rdf.strftime w batch_num))
        <$> RdfReport.summary results.
Proof.
  intros Hready.
  destruct (fetch_batch_results w batch) as (results & Hr & Hall).
  destruct (process_batch_unfold w batch batch_num results Hr) as [-> _].
  exists results. split; [done|].
  rewrite write_csv_ready by by eapply ready_results.
  cbn [trace]. rewrite filter_app, filter_cons_False by done.
  rewrite filter_none, filter_all; [done| |].
  - apply Forall_fmap, Forall_forall. by intros row _.
  - apply Forall_fmap, Forall_forall. by intros sg _.
Qed.

(** Three targets, the second timing out: the summary has the header and
    the rows of the first and the third. *)
Lemma csv_summary_has_a_row_per_pairing_witness :
  filter (λ e, Rdf.is_csv_row e = true)
    (trace (Rdf.process_batch (Sample.rdf_world (Sample.all_but "SG2"))
              ["SG1"; "SG2"; "SG3"] 1))
  = Rdf.ECsvRow "/tmp/rdf_reports/rdf_summary_1_20240101_120000.csv"
    <$> [Rdf.csv_header;
         [JStr "SG1"; JInt 1; JStr "Synchronized"; JStr "Synchronous";
          JStr "Ready"];
         [JStr "SG3"; JInt 1; JStr "Synchronized"; JStr "Synchronous";
          JStr "Ready"]].
Proof.
  destruct (csv_summary_has_a_row_per_pairing
              (Sample.rdf_world (Sample.all_but "SG2"))
              ["SG1"; "SG2"; "SG3"] 1) as (results & Hr & ->).
  - intros sg r data _ Hget _ Hb.
    unfold Rdf.session_get, Sample.rdf_world, Sample.all_but in Hget.
    destruct (String.eqb _ _); [discriminate|].
    injection Hget as <-. injection Hb as <-. reflexivity.
  - vm_compute in Hr. injection Hr as <-. vm_compute. reflexivity.
Defined.

(** ** rdf.py: a whole run *)

Section RdfRun.
Import Rdf RdfReport.
Variable w : env.

Lemma names_of_strings names : names_of (JStr <$> names) = Some names.
Proof.
  induction names as [|s names IH]; [done|]. cbn. by rewrite IH.
Qed.

(** [main] once the inventory request is answered. *)
Lemma rdf_main_answered r :
  session_get w inventory_url = Responds r →
  main w
  = match (let? data := response_json r in py_getitem data "name") with
    | Raise e => Some (MkM [EGet inventory_url None] (Raise e))
    | Ok storage_groups =>
        (λ targets,
           MkM [EGet inventory_url None] (Ok storage_groups) >>
           let! names := lift targets in main_from w names)
        <$> inventory storage_groups
    end.
Proof.
  intros Hr. unfold main, http_get. fold inventory_url.
  rewrite bind_emit, Hr. cbn [m_ret trace outcome app].
  rewrite (m_bind_ok _ _ r) by done. cbn [trace outcome app].
  destruct (response_json r) as [data|e]; cbn [bind_result].
  - rewrite bind_lift_ok. cbn [lift trace outcome].
    by destruct (py_getitem data "name").
  - reflexivity.
Qed.
End RdfRun.

(** X4. When the inventory request is answered, with any status code, by
    a mapping whose 'name' is a list of names, and every body then fetched
    with status 200 is one the CSV summary can go through, a run of
    rdf.py that returns has asked the inventory once, first and with no
    timeout, and then every target exactly once; it has slept between
    the batches of 20 only: ceil(N/20) - 1 times for N > 0 targets.
    Nothing is said of the order of the requests for the targets. *)
Theorem rdf_run_polls_every_target_once
    (w : Rdf.env) (r : response) (data : json) (names : list string) :
  Rdf.session_get w RdfReport.inventory_url = Responds r →
  body r = Some data →
  py_getitem data "name" = Ok (JList (JStr <$> names)) →
  (∀ sg r' data',
     sg ∈ names → Rdf.session_get w (Rdf.rdf_url sg) = Responds r' →
     status_code r' = 200%Z → body r' = Some data' →
     Rdf.csv_ready data' = true) →
  ∃ m, Rdf.main w = Some m
       ∧ (outcome m = Ok tt →
          ∃ requests,
            filter (λ e, RdfReport.is_get e = true) (trace m)
            = Rdf.EGet RdfReport.inventory_url None :: requests
            ∧ requests ≡ₚ RdfReport.poll <$> names
            ∧ length (filter (λ e, Rdf.is_sleep e = true) (trace m))
              = (length names + 19) / 20 - 1).
Proof.
  intros Hr Hb Hname Hready.
  rewrite (rdf_main_answered w r Hr). unfold response_json. rewrite Hb.
  cbn [bind_result]. rewrite Hname. cbn [Rdf.inventory].
  rewrite names_of_strings. cbn [fmap option_fmap option_map].
  eexists. split; [reflexivity|]. intros _.
  exists (RdfReport.poll <$> names).
  unfold Rdf.main_from.
  destruct (split_batches Rdf.BATCH_SIZE names) as [batches|e] eqn:Hsplit.
  2:{ unfold split_batches, py_range in Hsplit. discriminate. }
  pose proof (split_batches_concat Rdf.BATCH_SIZE names batches
                (Nat.lt_0_succ 19) Hsplit) as Hcat.
  pose proof (split_batches_length Rdf.BATCH_SIZE names batches
                (Nat.lt_0_succ 19) Hsplit) as Hlen.
  destruct (run_from_all_processed w (length batches) 1 batches)
    as (Hok & Hgets & Hsleeps); [lia| |].
  { intros batch k Hbatch.
    rewrite (process_batch_returns w batch k); [done|].
    intros sg r' data' Hsg. apply Hready. rewrite <- Hcat.
    apply list_elem_of_In, in_concat. exists batch.
    split; by apply list_elem_of_In. }
  rewrite (m_bind_ok _ _ (JList (JStr <$> names))) by done.
  cbn [trace outcome]. rewrite bind_lift_ok. cbv beta. cbn [trace outcome].
  rewrite Hsplit, bind_lift_ok. cbv beta. cbn [trace outcome].
  unfold Rdf.run_batches. rewrite Hcat in *.
  cbn [app]. rewrite !filter_cons_True, !filter_cons_False by done.
  rewrite Hgets, Hsleeps, Hlen. done.
Qed.

(** Two targets behind a 200 inventory: the run returns, after three
    requests and no sleep. *)
Lemma rdf_run_polls_every_target_once_witness :
  ∃ m, Rdf.main (Sample.rdf_world
                   (Sample2.rdf_server 200 (Some Sample.two_groups))) = Some m
       ∧ outcome m = Ok tt
       ∧ ∃ requests,
           filter (λ e, RdfReport.is_get e = true) (trace m)
           = Rdf.EGet RdfReport.inventory_url None :: requests
           ∧ requests ≡ₚ [RdfReport.poll "SG1"; RdfReport.poll "SG2"]
           ∧ length (filter (λ e, Rdf.is_sleep e = true) (trace m)) = 0.
Proof.
  destruct (rdf_run_polls_every_target_once
              (Sample.rdf_world
                 (Sample2.rdf_server 200 (Some Sample.two_groups)))
              (Response 200 (Some Sample.two_groups)) Sample.two_groups
              ["SG1"; "SG2"]) as (m & Hm & Hrun); try reflexivity.
  { intros sg r' data' Hsg Hget _ Hb.
    unfold Rdf.session_get, Sample.rdf_world, Sample2.rdf_server in Hget.
    destruct (String.eqb _ _).
    - injection Hget as <-. injection Hb as <-. reflexivity.
    - injection Hget as <-. injection Hb as <-. reflexivity. }
  exists m. split; [exact Hm|].
  assert (Hout : outcome m = Ok tt).
  { vm_compute in Hm. injection Hm as <-. reflexivity. }
  split; [exact Hout|]. exact (Hrun Hout).
Defined.

(** X5. rdf.py does not look at the status code of the inventory answer:
    whatever the code, when the body is a mapping without a 'name' key,
    the run ends with [KeyError] right after that one request, before any
    target is asked or any file written. *)
Theorem rdf_run_needs_name
    (w : Rdf.env) (r : response) (kvs : list (string * json)) :
  Rdf.session_get w RdfReport.inventory_url = Responds r →
  body r = Some (JDict kvs) →
  assoc "name" kvs = None →
  Rdf.main w
  = Some (MkM [Rdf.EGet RdfReport.inventory_url None]
              (Raise (Exn "KeyError" "'name'"))).
Proof.
  intros Hr Hb Hname. rewrite (rdf_main_answered w r Hr).
  unfold response_json. rewrite Hb. cbn [bind_result py_getitem].
  by rewrite Hname.
Qed.

(** A 401 answer with an error message as its body. *)
Lemma rdf_run_needs_name_witness :
  Rdf.main (Sample.rdf_world
              (Sample2.rdf_server 401
                 (Some (JDict [("message", JStr "Unauthorized")]))))
  = Some (MkM [Rdf.EGet RdfReport.inventory_url None]
              (Raise (Exn "KeyError" "'name'"))).
Proof.
  apply (rdf_run_needs_name _
           (Response 401 (Some (JDict [("message", JStr "Unauthorized")])))
           [("message", JStr "Unauthorized")]); reflexivity.
Defined.

(** ** rdf_sql.py: requests, inserts and counts *)

Section SqlRecords.
Import RdfSql RdfSqlPass.
Variable w : env.

(** A well-formed pairing on a server that accepts every row: one
    accepted insert, for the target and the collection time given. *)
Lemma create_record_inserts now sg g :
  (∀ r, insert_ok w r = true) → well_formed w g = true →
  ∃ r, create_rdf_status_record w now sg g = MkM [EExecute r true] (Ok tt)
       ∧ storage_group r = sg ∧ collection_time r = now.
Proof.
  intros Hacc Hwf. destruct g as [| | | | | |kvs]; try done.
  unfold create_rdf_status_record. cbn [py_get].
  rewrite bind_lift_val.
  assert (∃ t, parse_last_sync w (default JNull (assoc "lastSyncTime" kvs))
               = Ok t) as [t Ht].
  { unfold well_formed in Hwf. unfold parse_last_sync.
    destruct (assoc "lastSyncTime" kvs) as [v|]; cbn [default from_option id].
    - destruct (truthy v); [|eauto].
      destruct v as [| | | |s| |]; try done.
      apply bool_decide_eq_true in Hwf as [t' Ht']. rewrite Ht'. eauto.
    - cbn. eauto. }
  rewrite Ht. rewrite !bind_lift_val.
  rewrite bind_emit, !Hacc. cbn [m_ret trace outcome].
  eexists. split; [reflexivity|]. done.
Qed.

(** A pairing that is not well formed raises before any insert. *)
Lemma create_record_rejects now sg g :
  well_formed w g = false →
  ∃ e, create_rdf_status_record w now sg g = MkM [] (Raise e).
Proof.
  intros Hwf. unfold create_rdf_status_record.
  destruct g as [| | | | | |kvs];
    try (eexists; reflexivity).
  cbn [py_get]. rewrite bind_lift_val.
  assert (∃ e, parse_last_sync w (default JNull (assoc "lastSyncTime" kvs))
               = Raise e) as [e He].
  { unfold well_formed in Hwf. unfold parse_last_sync.
    destruct (assoc "lastSyncTime" kvs) as [v|]; cbn [default from_option id];
      [|done].
    destruct (truthy v); [|done].
    destruct v as [| | | |s| |]; eauto.
    apply bool_decide_eq_false in Hwf.
    destruct (strptime w s) as [t|]; [|eauto]. exfalso. apply Hwf. eauto. }
  rewrite He. exists e. reflexivity.
Qed.

(** The inserts of a list of well-formed pairings. *)
Lemma records_inserted now sg gs :
  (∀ r, insert_ok w r = true) →
  Forall (λ g, well_formed w g = true) gs →
  ∃ rows,
    for_each gs (create_rdf_status_record w now sg)
    = MkM ((λ r, EExecute r true) <$> rows) (Ok tt)
    ∧ length rows = length gs
    ∧ Forall (λ r, storage_group r = sg ∧ collection_time r = now) rows.
Proof.
  intros Hacc. induction 1 as [|g gs Hg _ IH].
  - exists []. done.
  - destruct IH as (rows & Hrows & Hlen & Hall).
    destruct (create_record_inserts now sg g Hacc Hg) as (r & Hr & Hsg & Hnow).
    exists (r :: rows). cbn [for_each].
    rewrite (m_bind_ok _ _ tt) by by rewrite Hr.
    rewrite Hr, Hrows. cbn. split; [done|]. split; [by rewrite Hlen|].
    by constructor.
Qed.

(** The inserts stop at the first pairing that is not well formed. *)
Lemma records_stop_at_bad now sg good bad rest :
  (∀ r, insert_ok w r = true) →
  Forall (λ g, well_formed w g = true) good →
  well_formed w bad = false →
  ∃ rows e,
    for_each (good ++ bad :: rest) (create_rdf_status_record w now sg)
    = MkM ((λ r, EExecute r true) <$> rows) (Raise e)
    ∧ length rows = length good
    ∧ Forall (λ r, storage_group r = sg ∧ collection_time r = now) rows.
Proof.
  intros Hacc Hgood Hbad. induction Hgood as [|g gs Hg _ IH].
  - destruct (create_record_rejects now sg bad Hbad) as [e He].
    exists [], e. cbn [app for_each].
    rewrite (m_bind_raise _ _ e) by by rewrite He. by rewrite He.
  - destruct IH as (rows & e & Hrows & Hlen & Hall).
    destruct (create_record_inserts now sg g Hacc Hg) as (r & Hr & Hsg & Hnow).
    exists (r :: rows), e. cbn [app for_each].
    rewrite (m_bind_ok _ _ tt) by by rewrite Hr.
    rewrite Hr, Hrows. cbn. split; [done|]. split; [by rewrite Hlen|].
    by constructor.
Qed.
End SqlRecords.

Section SqlTargets.
Import RdfSql RdfSqlPass.
Variable w : env.
Variable session : string → http_outcome.
Variable now : datetime.

Lemma create_record_no_get sg g :
  Forall (λ e, is_get e = false)
    (trace (create_rdf_status_record w now sg g)).
Proof.
  unfold create_rdf_status_record.
  repeat (apply trace_bind_Forall; [apply lift_Forall|]; intros ? _).
  rewrite bind_emit. cbn [trace]. constructor; [done|].
  destruct (insert_ok w _); constructor.
Qed.

(** The work on a target starts with its request and makes no other. *)
Lemma process_one_head processed sg :
  ∃ rest,
    trace (process_one w session now processed sg) = poll sg :: rest
    ∧ Forall (λ e, is_get e = false) rest.
Proof.
  destruct (sql_fetch_shape session sg) as [v Hv].
  assert (Htry : ∃ rest,
            trace (process_one_try w session now processed sg) = poll sg :: rest
            ∧ Forall (λ e, is_get e = false) rest).
  { unfold process_one_try. rewrite trace_bind, Hv. cbn [trace outcome app].
    eexists. split; [reflexivity|].
    apply trace_bind_Forall; [apply lift_Forall|]. intros [] _.
    - repeat (apply trace_bind_Forall; [apply lift_Forall|]; intros ? _).
      apply trace_bind_Forall; [|intros; constructor].
      apply for_each_Forall. intros g _. apply create_record_no_get.
    - apply trace_bind_Forall; [apply lift_Forall|]. intros err _.
      rewrite bind_emit. by repeat constructor. }
  destruct Htry as (rest & Hrest & Hng).
  unfold process_one. rewrite trace_try_except, Hrest.
  destruct (outcome (process_one_try w session now processed sg)).
  - eauto.
  - exists (rest ++ [exception_line sg e]). split; [done|].
    apply Forall_app_2; [done|]. by repeat constructor.
Qed.

Lemma fold_targets_gets processed groups :
  filter (λ e, is_get e = true)
    (trace (fold_m (process_one w session now) processed groups))
  = poll <$> groups.
Proof.
  revert processed. induction groups as [|sg groups IH]; intros processed;
    [done|].
  cbn [fold_m]. rewrite trace_bind.
  destruct (process_one_counts w session now processed sg) as (n & -> & _).
  destruct (process_one_head processed sg) as (rest & -> & Hng).
  rewrite filter_app, filter_cons_True, filter_none, IH; [done| |done].
  eapply Forall_impl; [exact Hng|]. intros e He. by rewrite He.
Qed.

(** A target whose fetch gave an error mapping, or a mapping with no
    'rdfGroupInfo': one line, and the count as it was. *)
Lemma process_one_no_info processed sg kvs :
  get_rdf_status session sg = MkM [poll sg] (Ok (JDict kvs)) →
  assoc "rdfGroupInfo" kvs = None →
  process_one w session now processed sg
  = MkM [poll sg;
         error_line sg (default (JStr "Unknown error") (assoc "error" kvs))]
        (Ok processed).
Proof.
  intros Hget Hinfo. unfold process_one, process_one_try.
  rewrite (m_bind_ok _ _ (JDict kvs)) by by rewrite Hget.
  rewrite Hget. cbn [trace outcome py_contains].
  rewrite bool_decide_false by (rewrite Hinfo; by intros [? ?]).
  rewrite bind_lift_val. cbn [py_get]. rewrite bind_lift_val, bind_emit.
  reflexivity.
Qed.

(** A target that answers 200 with a list of pairings under
    'rdfGroupInfo': what the loop over the pairings does and returns is
    what the work on the target does after its request. *)
Lemma process_one_info processed sg r kvs gs :
  session (rdf_url sg) = Responds r → status_code r = 200%Z →
  body r = Some (JDict kvs) → assoc "rdfGroupInfo" kvs = Some (JList gs) →
  let inserts := for_each gs (create_rdf_status_record w now sg) in
  process_one w session now processed sg
  = match outcome inserts with
    | Ok _ => MkM (poll sg :: trace inserts) (Ok (processed + 1))
    | Raise e =>
        MkM (poll sg :: trace inserts ++ [exception_line sg e]) (Ok processed)
    end.
Proof.
  intros Hr Hs Hb Hinfo inserts. unfold process_one, process_one_try.
  rewrite (sql_fetch_200 session sg r (JDict kvs) Hr Hs Hb).
  rewrite (m_bind_ok _ _ (JDict kvs)) by done.
  cbn [trace outcome py_contains].
  rewrite bool_decide_true by (rewrite Hinfo; eauto).
  rewrite bind_lift_val. cbn [py_getitem]. rewrite Hinfo.
  rewrite bind_lift_val. cbn [py_iter]. rewrite bind_lift_val.
  fold inserts. unfold try_except. cbn [trace outcome].
  rewrite outcome_bind, trace_bind.
  destruct (outcome inserts) as [[]|e]; cbn [trace outcome m_ret].
  - by rewrite app_nil_r.
  - rewrite bind_emit. reflexivity.
Qed.
End SqlTargets.

(** X6. A pass of rdf_sql.py makes exactly one request per target of the
    inventory, each with a timeout of 30 seconds, whatever the answers:
    no target is skipped, and a target that fails is not asked again.
    Nothing is said of the order of the requests, which is the pool's. *)
Theorem pass_polls_each_target_once
    (w : RdfSql.env) (pass : nat) (groups : list string) :
  filter (λ e, RdfSqlPass.is_get e = true)
    (trace (RdfSql.process_storage_groups w pass groups))
  ≡ₚ RdfSqlPass.poll <$> groups.
Proof.
  unfold RdfSql.process_storage_groups. rewrite bind_emit. cbn [trace].
  rewrite filter_cons_False by done. rewrite trace_bind.
  destruct (fold_targets w (RdfSql.pass_get w pass)
              (RdfSql.now_utc w (2 * pass + 1)) 0 groups)
    as (counted & -> & _ & _).
  rewrite filter_app, fold_targets_gets.
  rewrite !bind_emit. cbn. by rewrite app_nil_r.
Qed.

Section SqlPasses.
Import RdfSql RdfSqlPass.
Variable w : env.

Lemma accepted_app t1 t2 : accepted (t1 ++ t2) = accepted t1 ++ accepted t2.
Proof. apply omap_app. Qed.

Lemma accepted_inserts rows :
  accepted ((λ r, EExecute r true) <$> rows) = rows.
Proof. induction rows as [|r rows IH]; [done|]. cbn. f_equal. exact IH. Qed.

Lemma pass_trace pass groups :
  trace (process_storage_groups w pass groups)
  = EConnect
    :: trace (fold_m (process_one w (pass_get w pass)
                        (now_utc w (2 * pass + 1))) 0 groups)
    ++ [ECommit; ECursorClose; EClose].
Proof.
  destruct (fold_targets w (pass_get w pass) (now_utc w (2 * pass + 1)) 0
              groups) as (counted & Hout & _ & _).
  unfold process_storage_groups. rewrite bind_emit.
  by rewrite (m_bind_ok _ _ _ Hout).
Qed.

(** A pass from its connection to its two [close]: the table gains the
    rows of the accepted inserts, and nothing is left pending. *)
Lemma pass_commits pass groups d :
  db_run d (trace (process_storage_groups w pass groups))
  = Db (table d
        ++ accepted (trace (fold_m (process_one w (pass_get w pass)
                                      (now_utc w (2 * pass + 1))) 0 groups)))
       [].
Proof.
  destruct (fold_targets w (pass_get w pass) (now_utc w (2 * pass + 1)) 0
              groups) as (counted & _ & _ & Hev).
  rewrite pass_trace. cbn [db_run foldl].
  change (foldl db_step ?d' ?t) with (db_run d' t).
  rewrite db_run_app, (pending_after_work _ _ Hev). reflexivity.
Qed.

Lemma pass_outcome pass groups :
  outcome (process_storage_groups w pass groups)
  = outcome (fold_m (process_one w (pass_get w pass)
                       (now_utc w (2 * pass + 1))) 0 groups).
Proof.
  destruct (fold_targets w (pass_get w pass) (now_utc w (2 * pass + 1)) 0
              groups) as (counted & Hout & _ & _).
  unfold process_storage_groups. rewrite bind_emit.
  rewrite (m_bind_ok _ _ _ Hout). by rewrite Hout.
Qed.

(** The count never goes up by more than one per target. *)
Lemma fold_count_le session now processed groups n :
  outcome (fold_m (process_one w session now) processed groups) = Ok n →
  n ≤ processed + length groups.
Proof.
  revert processed. induction groups as [|sg groups IH]; intros processed.
  - cbn. intros [= <-]. lia.
  - cbn [fold_m]. rewrite outcome_bind.
    destruct (process_one_counts w session now processed sg)
      as (k & -> & Hk).
    intros Hn. apply IH in Hn. cbn [length]. lia.
Qed.

(** A target the work on which leaves the count as it is, is missing
    from the count of the pass; what the work on it logged is part of
    what the pass logged. *)
Lemma fold_uncounted session now processed groups sg t :
  sg ∈ groups →
  (∀ p, process_one w session now p sg = MkM t (Ok p)) →
  ∃ n before after,
    outcome (fold_m (process_one w session now) processed groups) = Ok n
    ∧ n < processed + length groups
    ∧ trace (fold_m (process_one w session now) processed groups)
      = before ++ t ++ after.
Proof.
  intros Hin Hsg. revert processed.
  induction groups as [|sg' groups IH]; intros processed.
  { by apply elem_of_nil in Hin. }
  cbn [fold_m]. rewrite outcome_bind, trace_bind.
  destruct (decide (sg' = sg)) as [->|Hne].
  - rewrite Hsg. cbn [outcome trace].
    destruct (fold_targets w session now processed groups)
      as (counted & Hout & _ & _).
    exists (processed + length counted), [], (trace (fold_m (process_one w session now) processed groups)).
    split; [done|]. split; [|done].
    apply fold_count_le in Hout. cbn [length]. lia.
  - apply elem_of_cons in Hin as [->|Hin]; [done|].
    destruct (process_one_counts w session now processed sg')
      as (k & Hk & Hcount). rewrite Hk.
    destruct (IH Hin k) as (n & before & after & Hn & Hlt & Ht).
    exists n, (trace (process_one w session now processed sg') ++ before),
      after.
    split; [done|]. split; [cbn [length]; lia|].
    by rewrite Ht, <- app_assoc.
Qed.

(** The work on a target with a pairing that is not well formed: the
    rows of the pairings before it are inserted, then the exception is
    printed and the count stays as it is. *)
Lemma process_one_partial session now sg r kvs good bad rest :
  (∀ r, insert_ok w r = true) →
  session (rdf_url sg) = Responds r → status_code r = 200%Z →
  body r = Some (JDict kvs) →
  assoc "rdfGroupInfo" kvs = Some (JList (good ++ bad :: rest)) →
  Forall (λ g, well_formed w g = true) good →
  well_formed w bad = false →
  ∃ rows e,
    (∀ p, process_one w session now p sg
          = MkM (poll sg :: ((λ r, EExecute r true) <$> rows)
                 ++ [exception_line sg e]) (Ok p))
    ∧ length rows = length good
    ∧ Forall (λ r, storage_group r = sg ∧ collection_time r = now) rows.
Proof.
  intros Hacc Hr Hs Hb Hinfo Hgood Hbad.
  destruct (records_stop_at_bad w now sg good bad rest Hacc Hgood Hbad)
    as (rows & e & Hrows & Hlen & Hall).
  exists rows, e. split; [|done]. intros p.
  rewrite (process_one_info w session now p sg r kvs _ Hr Hs Hb Hinfo).
  by rewrite Hrows.
Qed.

(** The work on a target with well-formed pairings only. *)
Lemma process_one_complete session now sg r kvs gs :
  (∀ r, insert_ok w r = true) →
  session (rdf_url sg) = Responds r → status_code r = 200%Z →
  body r = Some (JDict kvs) →
  assoc "rdfGroupInfo" kvs = Some (JList gs) →
  Forall (λ g, well_formed w g = true) gs →
  ∃ rows,
    (∀ p, process_one w session now p sg
          = MkM (poll sg :: ((λ r, EExecute r true) <$> rows)) (Ok (p + 1)))
    ∧ length rows = length gs
    ∧ Forall (λ r, storage_group r = sg ∧ collection_time r = now) rows.
Proof.
  intros Hacc Hr Hs Hb Hinfo Hgood.
  destruct (records_inserted w now sg gs Hacc Hgood)
    as (rows & Hrows & Hlen & Hall).
  exists rows. split; [|done]. intros p.
  rewrite (process_one_info w session now p sg r kvs _ Hr Hs Hb Hinfo).
  by rewrite Hrows.
Qed.
End SqlPasses.

(** X7. A target of rdf_sql.py whose answer holds a pairing that cannot
    be made into a row (not a mapping, or a 'lastSyncTime' that does not
    parse) after well-formed ones is left out of the count of the pass,
    yet the rows of the pairings before the bad one are inserted and
    committed with the pass: the pairings after it are never stored. *)
Theorem malformed_pairing_leaves_partial_rows
    (w : RdfSql.env) (pass : nat) (groups : list string) (sg : string)
    (r : response) (kvs : list (string * json))
    (good : list json) (bad : json) (rest : list json) (d : RdfSql.db) :
  (∀ r, RdfSql.insert_ok w r = true) →
  sg ∈ groups →
  RdfSql.pass_get w pass (RdfSql.rdf_url sg) = Responds r →
  status_code r = 200%Z →
  body r = Some (JDict kvs) →
  assoc "rdfGroupInfo" kvs = Some (JList (good ++ bad :: rest)) →
  Forall (λ g, RdfSqlPass.well_formed w g = true) good →
  RdfSqlPass.well_formed w bad = false →
  ∃ n rows e before after,
    outcome (RdfSql.process_storage_groups w pass groups) = Ok n
    ∧ n < length groups
    ∧ length rows = length good
    ∧ Forall (λ r, RdfSql.storage_group r = sg) rows
    ∧ RdfSqlPass.exception_line sg e
        ∈ trace (RdfSql.process_storage_groups w pass groups)
    ∧ RdfSql.db_run d (trace (RdfSql.process_storage_groups w pass groups))
      = RdfSql.Db (RdfSql.table d ++ before ++ rows ++ after) [].
Proof.
  intros Hacc Hin Hr Hs Hb Hinfo Hgood Hbad.
  destruct (process_one_partial w (RdfSql.pass_get w pass)
              (RdfSql.now_utc w (2 * pass + 1)) sg r kvs good bad rest
              Hacc Hr Hs Hb Hinfo Hgood Hbad)
    as (rows & e & Hone & Hlen & Hall).
  destruct (fold_uncounted w _ _ 0 groups sg _ Hin Hone)
    as (n & before & after & Hn & Hlt & Ht).
  exists n, rows, e, (RdfSql.accepted before), (RdfSql.accepted after).
  rewrite pass_outcome, pass_commits, Ht.
  split; [done|]. split; [done|]. split; [done|]. split; [|split].
  - eapply Forall_impl; [exact Hall|]. by intros ? [? _].
  - rewrite pass_trace, Ht. apply elem_of_cons. right.
    apply elem_of_app. left. apply elem_of_app. right.
    apply elem_of_app. left. apply elem_of_cons. right.
    apply elem_of_app. right. apply elem_of_cons. by left.
  - rewrite !accepted_app.
    change (RdfSql.accepted (RdfSqlPass.poll sg :: ?t))
      with (RdfSql.accepted t).
    rewrite accepted_app, accepted_inserts. cbn. by rewrite app_nil_r.
Qed.

(** The statement at a pass over one target that answers with a
    pairing, then a number, then another pairing: one row is stored, the
    target is not counted. *)
Lemma malformed_pairing_leaves_partial_rows_witness :
  ∃ n (rows : list RdfSql.row) e before after,
    outcome (RdfSql.process_storage_groups
               (RdfSqlRun.world
                  (Sample.constant 200
                     (Some (Sample.rdf_info
                              [Sample.pairing 1; JInt 7; Sample.pairing 2]))))
               0 ["SG1"]) = Ok n
    ∧ n < 1
    ∧ length rows = 1
    ∧ Forall (λ r, RdfSql.storage_group r = "SG1") rows
    ∧ RdfSqlPass.exception_line "SG1" e
        ∈ trace (RdfSql.process_storage_groups
                   (RdfSqlRun.world
                      (Sample.constant 200
                         (Some (Sample.rdf_info
                                  [Sample.pairing 1; JInt 7;
                                   Sample.pairing 2]))))
                   0 ["SG1"])
    ∧ RdfSql.db_run (RdfSql.Db [] [])
        (trace (RdfSql.process_storage_groups
                  (RdfSqlRun.world
                     (Sample.constant 200
                        (Some (Sample.rdf_info
                                 [Sample.pairing 1; JInt 7;
                                  Sample.pairing 2]))))
                  0 ["SG1"]))
      = RdfSql.Db ([] ++ before ++ rows ++ after) [].
Proof.
  apply (malformed_pairing_leaves_partial_rows
           (RdfSqlRun.world
              (Sample.constant 200
                 (Some (Sample.rdf_info
                          [Sample.pairing 1; JInt 7; Sample.pairing 2]))))
           0 ["SG1"] "SG1"
           (Response 200
              (Some (Sample.rdf_info
                       [Sample.pairing 1; JInt 7; Sample.pairing 2])))
           [("rdfGroupInfo",
             JList [Sample.pairing 1; JInt 7; Sample.pairing 2])]
           [Sample.pairing 1] (JInt 7) [Sample.pairing 2]
           (RdfSql.Db [] [])).
  - reflexivity.
  - apply list_elem_of_here.
  - reflexivity.
  - reflexivity.
  - reflexivity.
  - reflexivity.
  - by repeat constructor.
  - reflexivity.
Defined.

Section SqlComplete.
Import RdfSql RdfSqlPass RdfSqlRun.
Variable w : env.

Lemma rows_of_one_target sg (rows : list row) :
  Forall (λ r, storage_group r = sg) rows →
  storage_group <$> rows = replicate (length rows) sg.
Proof.
  induction 1 as [|r rows Hr _ IH]; [done|]. cbn. by rewrite Hr, IH.
Qed.

(** The loop over targets that all answer with well-formed pairings, on
    a server that accepts every row. *)
Lemma fold_complete session now pairings groups processed :
  (∀ r, insert_ok w r = true) →
  (∀ sg, sg ∈ groups →
     answers_with session sg (pairings sg)
     ∧ Forall (λ g, well_formed w g = true) (pairings sg)) →
  outcome (fold_m (process_one w session now) processed groups)
  = Ok (processed + length groups)
  ∧ storage_group
    <$> accepted (trace (fold_m (process_one w session now) processed groups))
    = concat ((λ sg, replicate (length (pairings sg)) sg) <$> groups)
  ∧ Forall (λ r, collection_time r = now)
      (accepted (trace (fold_m (process_one w session now) processed groups)))
  ∧ Forall (λ e, is_print e = false)
      (trace (fold_m (process_one w session now) processed groups)).
Proof.
  intros Hacc. revert processed.
  induction groups as [|sg groups IH]; intros processed Hall.
  - cbn. split; [f_equal; lia|]. by repeat constructor.
  - destruct (Hall sg) as [(r & kvs & Hr & Hs & Hb & Hinfo) Hwf];
      [by left|].
    destruct (process_one_complete w session now sg r kvs _
                Hacc Hr Hs Hb Hinfo Hwf) as (rows & Hone & Hlen & Hrows).
    destruct (IH (processed + 1)) as (Hout & Hsg & Hnow & Hnp).
    { intros sg' Hin. apply Hall. by right. }
    cbn [fold_m]. rewrite outcome_bind, trace_bind, Hone. cbn [outcome trace].
    rewrite Hout. split; [cbn [length]; f_equal; lia|].
    rewrite accepted_app.
    change (accepted (poll sg :: ?t)) with (accepted t).
    rewrite accepted_inserts. split; [|split].
    + rewrite fmap_app, Hsg. cbn [fmap list_fmap concat]. f_equal.
      rewrite <- Hlen. apply rows_of_one_target.
      eapply Forall_impl; [exact Hrows|]. by intros ? [? _].
    + apply Forall_app_2; [|done].
      eapply Forall_impl; [exact Hrows|]. by intros ? [_ ?].
    + apply Forall_app_2; [|done]. constructor; [done|].
      apply Forall_fmap. by apply Forall_true.
Qed.

(** What the work on a target whose fetch gave an error mapping prints. *)
Lemma process_one_error session now processed sg msg :
  get_rdf_status session sg
  = MkM [poll sg] (Ok (JDict [("error", JStr msg)])) →
  process_one w session now processed sg
  = MkM [poll sg; error_line sg (JStr msg)] (Ok processed).
Proof.
  intros Hget.
  by rewrite (process_one_no_info w session now processed sg _ Hget).
Qed.
End SqlComplete.

(** X8. When every target of a pass of rdf_sql.py answers 200 with a list
    of well-formed pairings and the database accepts every row, the pass
    counts every target, prints nothing, and adds to the table one row
    per pairing, target after target in inventory order, all stamped
    with the one collection time read at the start of the pass. A target
    with an empty list of pairings is counted and adds no row. *)
Theorem complete_pass_stores_every_pairing
    (w : RdfSql.env) (pass : nat) (groups : list string)
    (pairings : string → list json) (d : RdfSql.db) :
  (∀ r, RdfSql.insert_ok w r = true) →
  (∀ sg, sg ∈ groups →
     RdfSqlRun.answers_with (RdfSql.pass_get w pass) sg (pairings sg)
     ∧ Forall (λ g, RdfSqlPass.well_formed w g = true) (pairings sg)) →
  ∃ rows,
    outcome (RdfSql.process_storage_groups w pass groups)
    = Ok (length groups)
    ∧ RdfSql.db_run d (trace (RdfSql.process_storage_groups w pass groups))
      = RdfSql.Db (RdfSql.table d ++ rows) []
    ∧ RdfSql.storage_group <$> rows
      = concat ((λ sg, replicate (length (pairings sg)) sg) <$> groups)
    ∧ Forall (λ r, RdfSql.collection_time r
                   = RdfSql.now_utc w (2 * pass + 1)) rows
    ∧ Forall (λ e, RdfSqlRun.is_print e = false)
        (trace (RdfSql.process_storage_groups w pass groups)).
Proof.
  intros Hacc Hall.
  destruct (fold_complete w (RdfSql.pass_get w pass)
              (RdfSql.now_utc w (2 * pass + 1)) pairings groups 0 Hacc Hall)
    as (Hout & Hsg & Hnow & Hnp).
  eexists. rewrite pass_outcome, pass_commits, pass_trace.
  split; [exact Hout|]. split; [reflexivity|]. split; [exact Hsg|].
  split; [exact Hnow|]. constructor; [done|].
  apply Forall_app_2; [exact Hnp | by repeat constructor].
Qed.

(** The statement at a pass over two targets that answer with two
    pairings each. *)
Lemma complete_pass_stores_every_pairing_witness :
  ∃ rows,
    outcome (RdfSql.process_storage_groups
               (RdfSqlRun.world
                  (Sample.constant 200
                     (Some (Sample.rdf_info
                              [Sample.pairing 1; Sample.pairing 2]))))
               0 ["SG1"; "SG2"]) = Ok 2
    ∧ RdfSql.db_run (RdfSql.Db [] [])
        (trace (RdfSql.process_storage_groups
                  (RdfSqlRun.world
                     (Sample.constant 200
                        (Some (Sample.rdf_info
                                 [Sample.pairing 1; Sample.pairing 2]))))
                  0 ["SG1"; "SG2"]))
      = RdfSql.Db rows []
    ∧ RdfSql.storage_group <$> rows = ["SG1"; "SG1"; "SG2"; "SG2"].
Proof.
  destruct (complete_pass_stores_every_pairing
              (RdfSqlRun.world
                 (Sample.constant 200
                    (Some (Sample.rdf_info
                             [Sample.pairing 1; Sample.pairing 2]))))
              0 ["SG1"; "SG2"]
              (λ _, [Sample.pairing 1; Sample.pairing 2])
              (RdfSql.Db [] []))
    as (rows & Hout & Hdb & Hsg & _).
  - reflexivity.
  - intros sg _. split; [|by repeat constructor].
    eexists _, _. repeat split; reflexivity.
  - exists rows. split; [exact Hout|]. split; [exact Hdb|]. exact Hsg.
Defined.

(** X9. A target of rdf_sql.py whose request raises, or is answered with
    a status other than 200, or with a 200 mapping that has no
    'rdfGroupInfo' key, costs one request and one printed line, "Error
    processing <target>: <reason>", where the reason is the exception's
    message, "HTTP <status>", or the mapping's 'error' value ("Unknown
    error" when it has none). Nothing is inserted and the count stays as
    it was. *)
Theorem failed_target_is_reported_not_stored
    (w : RdfSql.env) (session : string → http_outcome)
    (now : RdfSql.datetime) (processed : nat) (sg : string) :
  (∀ e, session (RdfSql.rdf_url sg) = Fails e →
     RdfSql.process_one w session now processed sg
     = MkM [RdfSqlPass.poll sg;
            RdfSqlPass.error_line sg (JStr (exn_msg e))] (Ok processed))
  ∧ (∀ r, session (RdfSql.rdf_url sg) = Responds r →
       status_code r ≠ 200%Z →
       RdfSql.process_one w session now processed sg
       = MkM [RdfSqlPass.poll sg;
              RdfSqlPass.error_line sg
                (JStr ("HTTP " +:+ pretty (status_code r)))] (Ok processed))
  ∧ (∀ r kvs, session (RdfSql.rdf_url sg) = Responds r →
       status_code r = 200%Z → body r = Some (JDict kvs) →
       assoc "rdfGroupInfo" kvs = None →
       RdfSql.process_one w session now processed sg
       = MkM [RdfSqlPass.poll sg;
              RdfSqlPass.error_line sg
                (default (JStr "Unknown error") (assoc "error" kvs))]
             (Ok processed)).
Proof.
  split; [|split].
  - intros e He. apply process_one_error.
    exact (sql_fetch_fails session sg e He).
  - intros r Hr Hs. apply process_one_error.
    exact (sql_fetch_other_status session sg r Hr Hs).
  - intros r kvs Hr Hs Hb Hinfo. apply process_one_no_info; [|done].
    exact (sql_fetch_200 session sg r _ Hr Hs Hb).
Qed.

(** The statement at a target that times out, at one that answers 503,
    and at one that answers 200 with an empty mapping. *)
Lemma failed_target_is_reported_not_stored_witness :
  RdfSql.process_one (RdfSqlRun.world (λ _, Fails Sample.timeout))
    (λ _, Fails Sample.timeout) 0%Z 3 "SG1"
  = MkM [RdfSqlPass.poll "SG1";
         RdfSqlPass.error_line "SG1" (JStr "connection timed out")] (Ok 3)
  ∧ RdfSql.process_one (RdfSqlRun.world (Sample.constant 503 None))
      (Sample.constant 503 None) 0%Z 3 "SG1"
    = MkM [RdfSqlPass.poll "SG1";
           RdfSqlPass.error_line "SG1" (JStr ("HTTP " +:+ pretty 503%Z))]
          (Ok 3)
  ∧ RdfSql.process_one (RdfSqlRun.world (Sample.constant 200 (Some (JDict []))))
      (Sample.constant 200 (Some (JDict []))) 0%Z 3 "SG1"
    = MkM [RdfSqlPass.poll "SG1";
           RdfSqlPass.error_line "SG1" (JStr "Unknown error")] (Ok 3).
Proof.
  split; [|split].
  - destruct (failed_target_is_reported_not_stored
                (RdfSqlRun.world (λ _, Fails Sample.timeout))
                (λ _, Fails Sample.timeout) 0%Z 3 "SG1") as (H & _ & _).
    exact (H Sample.timeout eq_refl).
  - destruct (failed_target_is_reported_not_stored
                (RdfSqlRun.world (Sample.constant 503 None))
                (Sample.constant 503 None) 0%Z 3 "SG1") as (_ & H & _).
    apply (H (Response 503 None)); [reflexivity | discriminate].
  - destruct (failed_target_is_reported_not_stored
                (RdfSqlRun.world (Sample.constant 200 (Some (JDict []))))
                (Sample.constant 200 (Some (JDict []))) 0%Z 3 "SG1")
      as (_ & _ & H).
    apply (H (Response 200 (Some (JDict []))) []); reflexivity.
Defined.

Section SqlLoop.
Import RdfSql RdfSqlPass RdfSqlRun RdfSqlStartup.
Variable w : env.

Lemma collect_once_trace interval pass groups :
  ∃ first second third,
    trace (collect_once w interval pass groups)
    = EPrint first :: trace (process_storage_groups w pass groups)
      ++ [EPrint second; EPrint third;
          ESleep (py_max 0 (interval - processing_time w pass))].
Proof.
  destruct (pass_shape w pass groups) as (work & counted & Hpass & _ & _).
  unfold collect_once. rewrite bind_emit.
  rewrite (m_bind_ok _ _ (length counted)) by (by rewrite Hpass).
  rewrite !bind_emit. cbn [trace outcome emit]. eauto.
Qed.

Lemma collect_once_gets interval pass groups :
  filter (λ e, is_get e = true) (trace (collect_once w interval pass groups))
  = poll <$> groups.
Proof.
  destruct (collect_once_trace interval pass groups) as (a & b & c & ->).
  rewrite pass_trace.
  rewrite filter_cons_False by done. rewrite filter_app.
  rewrite filter_cons_False by done.
  rewrite filter_app, fold_targets_gets.
  cbn. by rewrite !app_nil_r.
Qed.

Lemma collect_once_commits interval pass groups d :
  db_run d (trace (collect_once w interval pass groups))
  = Db (table d ++ accepted (trace (collect_once w interval pass groups))) [].
Proof.
  destruct (collect_once_trace interval pass groups) as (a & b & c & ->).
  cbn [db_run foldl db_step].
  change (foldl db_step ?d' ?t) with (db_run d' t).
  rewrite db_run_app, pass_commits.
  change (accepted (EPrint a :: ?t)) with (accepted t).
  rewrite accepted_app, pass_trace.
  change (accepted (EConnect :: ?t)) with (accepted t).
  rewrite accepted_app. cbn. by rewrite !app_nil_r.
Qed.

Lemma loop_commits interval pass passes groups d :
  pending d = [] →
  db_run d (trace (collector_loop w interval pass passes groups))
  = Db (table d
        ++ accepted (trace (collector_loop w interval pass passes groups)))
       [].
Proof.
  rewrite collector_loop_trace. cbn [trace].
  generalize (seq pass passes). intros ks. revert d.
  induction ks as [|k ks IH]; intros d Hd.
  - cbn. rewrite app_nil_r. destruct d. cbn in Hd. by rewrite Hd.
  - cbn [fmap list_fmap concat].
    rewrite db_run_app, collect_once_commits, IH by done.
    cbn [table]. by rewrite accepted_app, app_assoc.
Qed.

Lemma loop_gets interval pass passes groups :
  filter (λ e, is_get e = true)
    (trace (collector_loop w interval pass passes groups))
  = concat (replicate passes (poll <$> groups)).
Proof.
  rewrite collector_loop_trace. cbn [trace]. revert pass.
  induction passes as [|passes IH]; intros pass; [done|].
  cbn [seq fmap list_fmap concat replicate].
  by rewrite filter_app, collect_once_gets, IH.
Qed.

(** [main] after a 200 inventory answer that is a mapping: the request,
    the line with the number of targets, then the loop. *)
Lemma main_with_inventory interval passes r kvs names :
  startup_get w inventory_url = Responds r → status_code r = 200%Z →
  body r = Some (JDict kvs) → inventory (listed kvs) = Some (Ok names) →
  main_with w interval passes
  = Some (MkM (EGet inventory_url None
               :: EPrint [FText "Found "; FNat (length names);
                          FText " RDF storage groups"]
               :: trace (collector_loop w interval 0 passes names))
              (Ok tt)).
Proof.
  intros Hr Hs Hb Hinv. unfold main_with.
  rewrite http_get_unfold, Hr. cbn [outcome trace].
  rewrite Hs. cbn [Z.eqb Pos.eqb negb].
  unfold response_json. rewrite Hb. rewrite bind_lift_val. cbn [py_get].
  fold (listed kvs).
  change (MkM [EGet inventory_url None] (Ok r) >> lift (Ok (listed kvs)))
    with (MkM [EGet inventory_url None] (Ok (listed kvs))).
  cbn [outcome]. rewrite Hinv. cbn [fmap option_fmap option_map].
  rewrite (m_bind_ok _ _ (listed kvs)) by done. cbn [trace].
  rewrite bind_lift_val, bind_emit, collector_loop_trace. reflexivity.
Qed.

(** [main] after a 200 inventory answer it cannot take targets from:
    it raises right after the request. *)
Lemma main_with_unusable interval r :
  startup_get w inventory_url = Responds r → status_code r = 200%Z →
  unusable (body r) = true →
  ∃ e, ∀ passes,
    main_with w interval passes
    = Some (MkM [EGet inventory_url None] (Raise e)).
Proof.
  intros Hr Hs Hbad. unfold main_with.
  rewrite http_get_unfold, Hr. cbn [outcome trace].
  rewrite Hs. cbn [Z.eqb Pos.eqb negb].
  unfold response_json.
  destruct (body r) as [[| | | | | |kvs]|]; try (eexists; reflexivity).
  rewrite bind_lift_val. cbn [py_get].
  unfold unusable in Hbad.
  destruct (assoc "name" kvs) as [[]|]; try done; eexists; reflexivity.
Qed.
End SqlLoop.

(** X10. Over any number of completed passes of the collector loop of
    rdf_sql.py, starting with nothing pending on the connection, the
    table gains exactly the rows of the accepted inserts of all the
    passes, in the order they were made, and nothing is left pending:
    no row is lost or stored twice from one pass to the next. *)
Theorem rows_accumulate_over_passes
    (w : RdfSql.env) (interval : float) (first passes : nat)
    (groups : list string) (d : RdfSql.db) :
  RdfSql.pending d = [] →
  RdfSql.db_run d
    (trace (RdfSql.collector_loop w interval first passes groups))
  = RdfSql.Db
      (RdfSql.table d
       ++ RdfSql.accepted
            (trace (RdfSql.collector_loop w interval first passes groups)))
      [].
Proof. apply loop_commits. Qed.

(** The statement at three passes over two targets with one pairing
    each: six rows. *)
Lemma rows_accumulate_over_passes_witness :
  ∃ rows,
    RdfSql.db_run (RdfSql.Db [] [])
      (trace (RdfSql.collector_loop
                (Sample.sql_world (Sample.constant 503 None) 5) 3600 0 3
                ["SG1"; "SG2"]))
    = RdfSql.Db rows []
    ∧ length rows = 6.
Proof.
  eexists. split.
  - apply (rows_accumulate_over_passes
             (Sample.sql_world (Sample.constant 503 None) 5) 3600 0 3
             ["SG1"; "SG2"] (RdfSql.Db [] [])).
    reflexivity.
  - vm_compute. reflexivity.
Defined.

(** X11. rdf_sql.py reads its inventory once: when the startup request is
    answered 200 with a mapping, the requests of a run are that one
    request, made first and without a timeout, followed pass after pass
    by one request per target of that inventory. The targets are never
    read again, whatever the passes return. Nothing is said of the order
    of the requests within a pass. *)
Theorem inventory_is_read_once
    (w : RdfSql.env) (interval : float) (passes : nat) (r : response)
    (kvs : list (string * json)) (names : list string) :
  RdfSql.startup_get w RdfSql.inventory_url = Responds r →
  status_code r = 200%Z →
  body r = Some (JDict kvs) →
  RdfSql.inventory (RdfSqlStartup.listed kvs) = Some (Ok names) →
  ∃ m per_pass,
    RdfSql.main_with w interval passes = Some m
    ∧ filter (λ e, RdfSqlPass.is_get e = true) (trace m)
      = RdfSql.EGet RdfSql.inventory_url None :: concat per_pass
    ∧ length per_pass = passes
    ∧ Forall (λ requests, requests ≡ₚ RdfSqlPass.poll <$> names) per_pass.
Proof.
  intros Hr Hs Hb Hinv.
  exists (MkM (RdfSql.EGet RdfSql.inventory_url None
               :: RdfSql.EPrint [RdfSql.FText "Found ";
                                 RdfSql.FNat (length names);
                                 RdfSql.FText " RDF storage groups"]
               :: trace (RdfSql.collector_loop w interval 0 passes names))
              (Ok tt)),
    (replicate passes (RdfSqlPass.poll <$> names)).
  split; [by eapply main_with_inventory|]. split; [|split].
  - cbn [trace].
    rewrite filter_cons_True by done. rewrite filter_cons_False by done.
    by rewrite loop_gets.
  - apply length_replicate.
  - by apply Forall_replicate.
Qed.

(** The statement at an inventory of two names and two passes. *)
Lemma inventory_is_read_once_witness :
  ∃ m per_pass,
    RdfSql.main_with
      (Sample.sql_world (Sample.constant 200 (Some Sample.two_groups)) 5)
      3600 2 = Some m
    ∧ filter (λ e, RdfSqlPass.is_get e = true) (trace m)
      = RdfSql.EGet RdfSql.inventory_url None :: concat per_pass
    ∧ length per_pass = 2
    ∧ Forall (λ requests,
                requests ≡ₚ [RdfSqlPass.poll "SG1"; RdfSqlPass.poll "SG2"])
        per_pass.
Proof.
  apply (inventory_is_read_once
           (Sample.sql_world (Sample.constant 200 (Some Sample.two_groups)) 5)
           3600 2 (Response 200 (Some Sample.two_groups))
           [("name", JList [JStr "SG1"; JStr "SG2"])] ["SG1"; "SG2"]);
    reflexivity.
Defined.

(** X12. A 200 answer to the inventory request of rdf_sql.py that is not
    JSON, or not a mapping, or whose 'name' is null, a boolean or a
    number, is not handled: [main] raises right after the request,
    before any line is printed and before any pass. *)
Theorem unusable_inventory_is_fatal
    (w : RdfSql.env) (interval : float) (r : response) :
  RdfSql.startup_get w RdfSql.inventory_url = Responds r →
  status_code r = 200%Z →
  RdfSqlStartup.unusable (body r) = true →
  ∃ e, ∀ passes,
    RdfSql.main_with w interval passes
    = Some (MkM [RdfSql.EGet RdfSql.inventory_url None] (Raise e)).
Proof. apply main_with_unusable. Qed.

(** The statement at a server that answers 200 with a body that is not
    JSON. *)
Lemma unusable_inventory_is_fatal_witness :
  ∃ e, ∀ passes,
    RdfSql.main_with (Sample.sql_world (Sample.constant 200 None) 5)
      3600 passes
    = Some (MkM [RdfSql.EGet RdfSql.inventory_url None] (Raise e)).
Proof.
  apply (unusable_inventory_is_fatal
           (Sample.sql_world (Sample.constant 200 None) 5) 3600
           (Response 200 None)); reflexivity.
Defined.

(** X13. A 200 inventory answer that is a mapping without a 'name' key
    does not stop rdf_sql.py: it reports 0 storage groups and enters the
    loop, where every pass opens the connection, commits an empty
    transaction, closes, reports 0 processed and sleeps; no target is
    ever polled. *)
Theorem inventory_without_name_idles
    (w : RdfSql.env) (interval : float) (passes : nat) (r : response)
    (kvs : list (string * json)) :
  RdfSql.startup_get w RdfSql.inventory_url = Responds r →
  status_code r = 200%Z →
  body r = Some (JDict kvs) →
  assoc "name" kvs = None →
  RdfSql.main_with w interval passes
  = Some
      (MkM (RdfSql.EGet RdfSql.inventory_url None
            :: RdfSql.EPrint [RdfSql.FText "Found "; RdfSql.FNat 0;
                              RdfSql.FText " RDF storage groups"]
            :: concat
                 ((λ k,
                     RdfSql.EPrint [RdfSql.FText "Starting collection at ";
                                    RdfSql.FDatetime (RdfSql.now_utc w (2 * k))]
                     :: RdfSqlPass.idle_pass
                     ++ [RdfSql.EPrint
                           [RdfSql.FText "Completed collection. Processed ";
                            RdfSql.FNat 0; RdfSql.FText " storage groups"];
                         RdfSql.EPrint
                           [RdfSql.FText "Next collection in ";
                            RdfSql.FMinutes
                              (RdfSql.py_max 0
                                 (interval - RdfSql.processing_time w k) / 60);
                            RdfSql.FText " minutes"];
                         RdfSql.ESleep
                           (RdfSql.py_max 0
                              (interval - RdfSql.processing_time w k))])
                  <$> seq 0 passes))
           (Ok tt)).
Proof.
  intros Hr Hs Hb Hname.
  rewrite (main_with_inventory w interval passes r kvs [] Hr Hs Hb).
  - by rewrite collector_loop_trace.
  - unfold RdfSqlStartup.listed. by rewrite Hname.
Qed.

(** The statement at a server that answers 200 with an empty mapping:
    one pass. *)
Lemma inventory_without_name_idles_witness :
  ∃ m, RdfSql.main_with
         (Sample.sql_world (Sample.constant 200 (Some (JDict []))) 5) 3600 1
       = Some m
       ∧ filter (λ e, RdfSql.is_db_write e = true) (trace m)
         = [RdfSql.ECommit].
Proof.
  eexists. split.
  - apply (inventory_without_name_idles
             (Sample.sql_world (Sample.constant 200 (Some (JDict []))) 5)
             3600 1 (Response 200 (Some (JDict []))) []); reflexivity.
  - reflexivity.
Defined.

(** ** uniVmax_rdf.py: more on pagination *)

Section MorePagination.
Import UniVmax UniVmaxRequests.
Variable session : nat → http_outcome.
Variable url : string.

(** The loop goes on only with the same parameters and a new 'pageKey'. *)
Lemma next_step_continue answer params results params' results' :
  next_step answer params results = Ok (Continue params' results') →
  ∃ key, params' = <["pageKey" := key]> params.
Proof.
  unfold next_step.
  destruct answer as [e|r]; cbn [bind_result]; [done|].
  destruct (raise_for_status r); cbn [bind_result]; [|done].
  destruct (response_json r) as [data|]; cbn [bind_result]; [|done].
  destruct (is_paginated data); [|done].
  destruct (py_getitem data "resultList") as [rl|]; cbn [bind_result]; [|done].
  destruct (py_getitem rl "result") as [res|]; cbn [bind_result]; [|done].
  destruct (py_iter res) as [items|]; cbn [bind_result]; [|done].
  destruct (py_contains "nextPageKey" rl) as [[]|]; cbn [bind_result];
    [| |done].
  - destruct (py_getitem rl "nextPageKey") as [key|]; cbn [bind_result];
      [|done].
    destruct (truthy key); [|done]. intros [= <- _]. eauto.
  - done.
Qed.

Lemma requests_made_carry limit caller fuel : ∀ n params results,
  carries limit caller params →
  Forall (request_carries url limit caller)
    (requests_made session url fuel n params results).
Proof.
  induction fuel as [|fuel IH]; intros n params results Hp; [constructor|].
  cbn [requests_made]. unfold page_step. rewrite bind_emit.
  cbn [outcome trace lift app]. constructor; [done|].
  destruct (next_step (session n) params results) as [[ps rs|rs|data]|e]
    eqn:Hstep; try constructor.
  apply IH.
  destruct (next_step_continue _ _ _ _ _ Hstep) as [key ->].
  destruct Hp as [Hsize Hother]. split.
  - by rewrite lookup_insert_ne.
  - intros k Hk1 Hk2. rewrite lookup_insert_ne by done. by apply Hother.
Qed.

(** When the loop ends within [fuel] iterations, its requests are the
    ones made in them. *)
Lemma paginate_made fuel : ∀ n params results m,
  paginate session url fuel n params results = Some m →
  trace m = requests_made session url fuel n params results.
Proof.
  induction fuel as [|fuel IH]; intros n params results m; [done|].
  cbn [paginate requests_made].
  destruct (outcome (page_step (session n) url params results))
    as [[ps rs|rs|data]|e].
  - destruct (paginate session url fuel (S n) ps rs) as [rest|] eqn:Hrest;
      [|done].
    intros [= <-]. cbn [trace]. by rewrite (IH _ _ _ _ Hrest).
  - intros [= <-]. cbn [trace]. by rewrite app_nil_r.
  - intros [= <-]. cbn [trace]. by rewrite app_nil_r.
  - intros [= <-]. cbn [trace]. by rewrite app_nil_r.
Qed.

(** When the loop is still running after [fuel] iterations, it has made
    [fuel] requests. *)
Lemma paginate_running fuel : ∀ n params results,
  paginate session url fuel n params results = None →
  length (requests_made session url fuel n params results) = fuel.
Proof.
  induction fuel as [|fuel IH]; intros n params results; [done|].
  cbn [paginate requests_made]. unfold page_step. rewrite bind_emit.
  cbn [outcome trace lift app length].
  destruct (next_step (session n) params results) as [[ps rs|rs|data]|e];
    try done.
  destruct (paginate session url fuel (S n) ps rs) as [rest|] eqn:Hrest;
    [done|].
  intros _. by rewrite (IH _ _ _ Hrest).
Qed.

(** Against a server whose pages all continue, the loop is still
    running after any number of requests. *)
Lemma paginate_forever fuel : ∀ n params results,
  (∀ k, ∃ data, answers session k data ∧ continues data) →
  paginate session url fuel n params results = None.
Proof.
  induction fuel as [|fuel IH]; intros n params results Hall; [done|].
  destruct (Hall n) as (data & Hans & Hitems & key & Hkey & Htrue).
  destruct (page_step_page session url n data params results Hans Hitems)
    as (items & _ & Hstep).
  cbn [paginate]. rewrite Hstep. cbn [outcome].
  unfold after_page. rewrite Hkey, Htrue. by rewrite IH.
Qed.

(** The loop after pages that continue, when the step on the next
    answer raises. *)
Lemma paginate_raises pages fuel params e :
  continuing session 0 pages →
  next_step (session (length pages)) (params_after params pages)
    (all_items pages) = Raise e →
  paginate session url (length pages + S fuel) 0 params []
  = Some (MkM (requests url params pages
               ++ [EGet url (params_after params pages)])
              (Raise e)).
Proof.
  intros Hcont Hstep.
  rewrite (paginate_through session url pages 0 params [] _ Hcont).
  cbn [Nat.add app paginate]. unfold page_step. rewrite bind_emit, Hstep.
  reflexivity.
Qed.
End MorePagination.

(** X14. [_get_paginated] has no bound on the number of pages: against a
    server whose every answer is a page with a truthy next-page key, the
    loop is still running after any number of requests, and the function
    never returns. *)
Theorem pagination_has_no_page_bound
    (session : nat → http_outcome) (url : string)
    (params : option (gmap string json)) (limit : Z) :
  (∀ k, ∃ data, UniVmax.answers session k data ∧ UniVmax.continues data) →
  ∀ fuel, UniVmax._get_paginated session url params limit fuel = None.
Proof.
  intros Hall fuel. unfold UniVmax._get_paginated.
  by apply paginate_forever.
Qed.

(** The statement at a server that always answers with the same page
    and the same key, after 500 requests. *)
Lemma pagination_has_no_page_bound_witness :
  UniVmax._get_paginated (UniVmaxRequests.stuck (JStr "k1"))
    "https://unisphere/univmax/restapi/90/system/symmetrix" None 1000 500
  = None.
Proof.
  apply (pagination_has_no_page_bound (UniVmaxRequests.stuck (JStr "k1"))).
  intros k. exists (UniVmax.page [JInt 1] (Some (JStr "k1"))). split.
  - eexists. split; [reflexivity|]. split; reflexivity.
  - split; [by eexists|]. exists (JStr "k1"). split; reflexivity.
Defined.

(** X15. Every request [_get_paginated] makes goes to the URL given and
    carries 'pageSize' set to the limit, which replaces a 'pageSize' of
    the caller, and the caller's other parameters unchanged: from one
    page to the next only 'pageKey' is set. This holds whatever the
    server answers and however long the loop runs: of the requests made
    in any number of iterations, which are all the requests of a call
    that ends within them, and as many requests as iterations for a
    call that is still running. *)
Theorem paginated_requests_keep_params
    (session : nat → http_outcome) (url : string)
    (params : option (gmap string json)) (limit : Z) (fuel : nat) :
  Forall (UniVmaxRequests.request_carries url limit params)
    (UniVmaxRequests.sent session url params limit fuel)
  ∧ (∀ m, UniVmax._get_paginated session url params limit fuel = Some m →
          trace m = UniVmaxRequests.sent session url params limit fuel)
  ∧ (UniVmax._get_paginated session url params limit fuel = None →
     length (UniVmaxRequests.sent session url params limit fuel) = fuel).
Proof.
  unfold UniVmax._get_paginated, UniVmaxRequests.sent. split; [|split].
  - apply requests_made_carry. split.
    + by rewrite lookup_insert.
    + intros k Hk _. by rewrite lookup_insert_ne.
  - intros m. apply paginate_made.
  - apply paginate_running.
Qed.

(** The statement at a server with two pages and a caller that filters
    on a type: the call ends after two requests, which carry the page
    size 50 and the filter; and at a server that always answers with
    the same page and key: after 3 iterations the call is still running
    and has made 3 requests, which carry the page size and the filter. *)
Lemma paginated_requests_keep_params_witness :
  (∃ m,
     UniVmax._get_paginated
       (UniVmax.serve [UniVmax.page [JInt 1] (Some (JStr "k1"));
                       UniVmax.page [JInt 2] None])
       "https://unisphere/univmax/restapi/90/system/symmetrix"
       (Some {["type" := JStr "RDF1"]}) 50 5 = Some m
     ∧ length (trace m) = 2
     ∧ Forall (UniVmaxRequests.request_carries
                 "https://unisphere/univmax/restapi/90/system/symmetrix" 50
                 (Some {["type" := JStr "RDF1"]})) (trace m))
  ∧ length (UniVmaxRequests.sent (UniVmaxRequests.stuck (JStr "k1"))
              "https://unisphere/univmax/restapi/90/system/symmetrix"
              (Some {["type" := JStr "RDF1"]}) 50 3) = 3
  ∧ Forall (UniVmaxRequests.request_carries
              "https://unisphere/univmax/restapi/90/system/symmetrix" 50
              (Some {["type" := JStr "RDF1"]}))
      (UniVmaxRequests.sent (UniVmaxRequests.stuck (JStr "k1"))
         "https://unisphere/univmax/restapi/90/system/symmetrix"
         (Some {["type" := JStr "RDF1"]}) 50 3).
Proof.
  split; [|split].
  - destruct (paginated_requests_keep_params
                (UniVmax.serve [UniVmax.page [JInt 1] (Some (JStr "k1"));
                                UniVmax.page [JInt 2] None])
                "https://unisphere/univmax/restapi/90/system/symmetrix"
                (Some {["type" := JStr "RDF1"]}) 50 5)
      as (Hcarry & Hmade & _).
    eexists. split; [vm_compute; reflexivity|]. split; [reflexivity|].
    erewrite Hmade; [exact Hcarry|]. vm_compute. reflexivity.
  - destruct (paginated_requests_keep_params
                (UniVmaxRequests.stuck (JStr "k1"))
                "https://unisphere/univmax/restapi/90/system/symmetrix"
                (Some {["type" := JStr "RDF1"]}) 50 3)
      as (_ & _ & Hrunning).
    apply Hrunning. vm_compute. reflexivity.
  - destruct (paginated_requests_keep_params
                (UniVmaxRequests.stuck (JStr "k1"))
                "https://unisphere/univmax/restapi/90/system/symmetrix"
                (Some {["type" := JStr "RDF1"]}) 50 3)
      as (Hcarry & _ & _).
    exact Hcarry.
Defined.

(** X16. When a request of [_get_paginated] fails after pages that were
    fetched, the exception leaves the function and the items of the
    pages before are lost: a transport failure, a status from 400 to
    599 (an HTTPError), and a page whose 'resultList' has no 'result'
    (a KeyError) all end the call right after that request. *)
Theorem failed_page_discards_earlier_pages
    (session : nat → http_outcome) (url : string)
    (params : option (gmap string json)) (limit : Z)
    (pages : list json) (fuel : nat) :
  UniVmax.continuing session 0 pages →
  length pages < fuel →
  let first := <["pageSize" := JInt limit]> (default ∅ params) in
  let sent :=
    UniVmax.requests url first pages
    ++ [UniVmax.EGet url (UniVmax.params_after first pages)] in
  (∀ e, session (length pages) = Fails e →
     UniVmax._get_paginated session url params limit fuel
     = Some (MkM sent (Raise e)))
  ∧ (∀ r, session (length pages) = Responds r →
       (400 ≤ status_code r < 600)%Z →
       ∃ e, exn_class e = "HTTPError"
            ∧ UniVmax._get_paginated session url params limit fuel
              = Some (MkM sent (Raise e)))
  ∧ (∀ data fields,
       UniVmax.answers session (length pages) data →
       UniVmax.result_list data = Some fields →
       assoc "result" fields = None →
       UniVmax._get_paginated session url params limit fuel
       = Some (MkM sent (Raise (Exn "KeyError" "'result'")))).
Proof.
  intros Hcont Hfuel first sent. unfold UniVmax._get_paginated. fold first.
  replace fuel with (length pages + S (fuel - S (length pages))) by lia.
  split; [|split].
  - intros e He. apply paginate_raises; [done|].
    unfold UniVmax.next_step. by rewrite He.
  - intros r Hr Hs. eexists. split; [|apply paginate_raises; [done|]].
    2:{ unfold UniVmax.next_step, UniVmax.raise_for_status. rewrite Hr.
        cbn [bind_result].
        replace (400 <=? status_code r)%Z with true
          by (symmetry; apply Z.leb_le; lia).
        replace (status_code r <? 600)%Z with true
          by (symmetry; apply Z.ltb_lt; lia).
        reflexivity. }
    reflexivity.
  - intros data fields (r & Hr & Hs & Hb) Hrl Hres.
    apply paginate_raises; [done|].
    unfold UniVmax.next_step, response_json. rewrite Hr.
    cbn [bind_result]. rewrite Hs, Hb. cbn [bind_result].
    unfold UniVmax.result_list in Hrl.
    destruct data as [| | | | | |kvs]; try done.
    destruct (assoc "resultList" kvs) as [[| | | | | |fields']|] eqn:Hkvs;
      try done.
    injection Hrl as ->.
    unfold UniVmax.is_paginated. rewrite Hkvs, bool_decide_true by eauto.
    cbn [py_getitem bind_result]. rewrite Hkvs. cbn [bind_result py_getitem].
    by rewrite Hres.
Qed.

(** The statement at a server that answers with one page, then times
    out; and at one that answers with one page, then with a page that
    has no 'result'. *)
Lemma failed_page_discards_earlier_pages_witness :
  outcome
  <$> UniVmax._get_paginated
        (UniVmax.serve [UniVmax.page [JInt 1; JInt 2] (Some (JStr "k1"))])
        "https://unisphere/univmax/restapi/90/system/symmetrix" None 1000 5
  = Some (Raise (Exn "ReadTimeout" "read timed out"))
  ∧ outcome
    <$> UniVmax._get_paginated
          (UniVmax.serve [UniVmax.page [JInt 1; JInt 2] (Some (JStr "k1"));
                          JDict [("resultList", JDict [])]])
          "https://unisphere/univmax/restapi/90/system/symmetrix" None 1000 5
    = Some (Raise (Exn "KeyError" "'result'")).
Proof.
  split.
  - destruct (failed_page_discards_earlier_pages
                (UniVmax.serve
                   [UniVmax.page [JInt 1; JInt 2] (Some (JStr "k1"))])
                "https://unisphere/univmax/restapi/90/system/symmetrix"
                None 1000
                [UniVmax.page [JInt 1; JInt 2] (Some (JStr "k1"))] 5)
      as (H & _ & _).
    + intros [|k] data [= <-]. split.
      * eexists. split; [reflexivity|]. split; reflexivity.
      * split; [by eexists|]. exists (JStr "k1"). split; reflexivity.
    + cbn. lia.
    + by rewrite (H (Exn "ReadTimeout" "read timed out") eq_refl).
  - destruct (failed_page_discards_earlier_pages
                (UniVmax.serve
                   [UniVmax.page [JInt 1; JInt 2] (Some (JStr "k1"));
                    JDict [("resultList", JDict [])]])
                "https://unisphere/univmax/restapi/90/system/symmetrix"
                None 1000
                [UniVmax.page [JInt 1; JInt 2] (Some (JStr "k1"))] 5)
      as (_ & _ & H).
    + intros [|k] data [= <-]. split.
      * eexists. split; [reflexivity|]. split; reflexivity.
      * split; [by eexists|]. exists (JStr "k1"). split; reflexivity.
    + cbn. lia.
    + rewrite (H (JDict [("resultList", JDict [])]) []); [done| |done|done].
      eexists. split; [reflexivity|]. split; reflexivity.
Defined.

(** ** uniVmax_rdf.py: the reports *)

Section Reports.
Import UniVmaxReport.

(** Steps of a report, taken one at a time. *)
Lemma emit_then {B} (e : event) (k : M event B) t o :
  k = MkM t o → (emit e >> k) = MkM (e :: t) o.
Proof. intros ->. reflexivity. Qed.

Lemma heading_then {B} title (k : M event B) t o :
  k = MkM t o →
  (heading title >> k)
  = MkM (EPrint [Text (nl +:+ title)] :: EPrint [Text (py_mul "=" 50)] :: t) o.
Proof. intros ->. reflexivity. Qed.

Lemma fetched_then {A B} (e : event) (a : A) (f : A → M event B) t o :
  f a = MkM t o → m_bind (MkM [e] (Ok a)) f = MkM (e :: t) o.
Proof. unfold m_bind. cbn. by intros ->. Qed.

Lemma lift_raise_then {A B} (e : exn) (f : A → M event B) :
  m_bind (lift (Raise e)) f = MkM [] (Raise e).
Proof. reflexivity. Qed.

Lemma capacities_inv capacity_data info :
  capacities capacity_data = Some info →
  ∃ symmetrix,
    py_get capacity_data "symmetrix" (JList [JDict []]) = Ok symmetrix
    ∧ py_index0 symmetrix = Ok info.
Proof.
  unfold capacities. destruct capacity_data as [| | | | | |kvs]; try done.
  cbn [py_get].
  destruct (default (JList [JDict []]) (assoc "symmetrix" kvs))
    as [| | | | |[|first rest]|]; try done.
  intros [= ->]. eauto.
Qed.

Lemma capacity_inv info key v :
  capacity info key = Some v → py_get info key (JInt 0) = Ok v.
Proof.
  unfold capacity. destruct info as [| | | | | |kvs]; try done.
  cbn [py_get]. by intros [= ->].
Qed.

Lemma formats_inv grouped digits v :
  formats v = true → ∃ x, format_f grouped digits v = Ok (Fixed grouped digits x).
Proof.
  unfold formats, format_f. destruct (number_of v) as [n|]; [|done].
  destruct (to_float n) as [x|]; [|done]. eauto.
Qed.

Lemma zero_formats v : is_zero v = true → formats v = true.
Proof.
  unfold is_zero, formats. destruct (number_of v) as [[n|x]|]; try done.
  intros Hn. apply Z.eqb_eq in Hn. by subst n.
Qed.

(** A division by a zero raises, once the dividend is a number that
    converts to a float. *)
Lemma truediv_by_zero a b :
  formats a = true → is_zero b = true →
  ∃ e, exn_class e = "ZeroDivisionError" ∧ py_truediv a b = Raise e.
Proof.
  unfold formats, is_zero, py_truediv.
  destruct (number_of a) as [[x|x]|], (number_of b) as [[y|y]|]; try done.
  - intros _ Hy. exists (Exn "ZeroDivisionError" "division by zero").
    split; [done|]. by rewrite Hy.
  - destruct (to_float (NInt x)) as [x'|]; [|done]. intros _ Hy.
    exists (Exn "ZeroDivisionError" "float division by zero").
    split; [done|]. cbn [bind_result to_float]. by rewrite Hy.
  - intros _ Hy. apply Z.eqb_eq in Hy. subst y.
    exists (Exn "ZeroDivisionError" "float division by zero").
    split; [done|]. reflexivity.
  - intros _ Hy. exists (Exn "ZeroDivisionError" "float division by zero").
    split; [done|]. cbn [bind_result to_float]. by rewrite Hy.
Qed.

(** A float above zero is not zero. *)
Lemma float_above_zero_nonzero (x : float) :
  (0 <? x)%float = true → (x =? 0)%float = false.
Proof.
  rewrite ltb_spec, FloatAxioms.eqb_spec.
  change (Prim2SF 0) with (S754_zero false).
  unfold SFltb, SFeqb. by destruct (Prim2SF x) as [[]|[]| |[]].
Qed.

Lemma with_share_floats a b :
  (b =? 0)%float = false →
  with_share (JFloat a) (JFloat b)
  = Ok [Fixed true 2 a; Text " ("; Fixed false 1 (a / b * 100)%float;
        Text "%)"].
Proof. intros Hb. unfold with_share, py_truediv. cbn. by rewrite Hb. Qed.
End Reports.

(** X17. [print_capacity_info] divides by the total capacity it reads
    from the first entry under 'symmetrix', 0 when 'total_cap_gb' is
    missing, and from an empty mapping when 'symmetrix' itself is
    missing. With a total that is a zero (0, False, 0.0 or -0.0) and a
    used capacity that is a float, or an [int] that converts to one, it
    prints the two heading lines and the total, then raises
    ZeroDivisionError; with an empty 'symmetrix' list it raises
    IndexError right after the heading. *)
Theorem capacity_report_needs_a_total (capacity_data : json) :
  (∀ info total used,
     UniVmaxReport.capacities capacity_data = Some info →
     UniVmaxReport.capacity info "total_cap_gb" = Some total →
     UniVmaxReport.is_zero total = true →
     UniVmaxReport.capacity info "used_cap_gb" = Some used →
     UniVmaxReport.formats used = true →
     ∃ e x,
       exn_class e = "ZeroDivisionError"
       ∧ UniVmaxReport.print_capacity_info capacity_data
         = MkM [UniVmaxReport.EPrint
                  [UniVmaxReport.Text
                     (UniVmaxReport.nl +:+ "Array Capacity Information:")];
                UniVmaxReport.EPrint
                  [UniVmaxReport.Text (UniVmaxReport.py_mul "=" 50)];
                UniVmaxReport.EPrint
                  [UniVmaxReport.Text "Total Capacity (GB): ";
                   UniVmaxReport.Fixed true 2 x]]
               (Raise e))
  ∧ (∀ kvs,
       capacity_data = JDict kvs →
       assoc "symmetrix" kvs = Some (JList []) →
       UniVmaxReport.print_capacity_info capacity_data
       = MkM [UniVmaxReport.EPrint
                [UniVmaxReport.Text
                   (UniVmaxReport.nl +:+ "Array Capacity Information:")];
              UniVmaxReport.EPrint
                [UniVmaxReport.Text (UniVmaxReport.py_mul "=" 50)]]
             (Raise (Exn "IndexError" "list index out of range"))).
Proof.
  split.
  - intros info total used Hinfo Htotal Hzero Hused Hformats.
    destruct (capacities_inv _ _ Hinfo) as (symmetrix & Hsym & Hfirst).
    pose proof (capacity_inv _ _ _ Htotal) as Hvt.
    pose proof (capacity_inv _ _ _ Hused) as Hvu.
    destruct (formats_inv true 2 total (zero_formats _ Hzero)) as [x Hx].
    destruct (formats_inv true 2 used Hformats) as [y Hy].
    destruct (truediv_by_zero used total Hformats Hzero)
      as (e & Hclass & He).
    exists e, x. split; [done|].
    unfold UniVmaxReport.print_capacity_info.
    apply heading_then. rewrite Hsym, bind_lift_val. cbv beta.
    rewrite Hfirst, bind_lift_val. cbv beta.
    rewrite Hvt, bind_lift_val. cbv beta.
    rewrite Hvu, bind_lift_val. cbv beta.
    destruct info as [| | | | | |kvs]; try done. cbn [py_get].
    rewrite !bind_lift_val.
    rewrite Hx, bind_lift_val.
    apply emit_then.
    unfold UniVmaxReport.with_share.
    rewrite Hy. cbn [bind_result]. rewrite He.
    reflexivity.
  - intros kvs -> Hsym. unfold UniVmaxReport.print_capacity_info.
    apply heading_then. cbn [py_get]. rewrite Hsym. reflexivity.
Qed.

(** The statement at an answer with no 'symmetrix' key, at one with a
    total of 0.0 and 250 used, and at one with an empty 'symmetrix'
    list. *)
Lemma capacity_report_needs_a_total_witness :
  (∃ e, exn_class e = "ZeroDivisionError"
        ∧ outcome (UniVmaxReport.print_capacity_info (JDict [])) = Raise e)
  ∧ (∃ e, exn_class e = "ZeroDivisionError"
          ∧ outcome (UniVmaxReport.print_capacity_info
                       (JDict [("symmetrix",
                                JList [JDict [("total_cap_gb", JFloat 0);
                                              ("used_cap_gb", JInt 250)]])]))
            = Raise e)
  ∧ outcome (UniVmaxReport.print_capacity_info
               (JDict [("symmetrix", JList [])]))
    = Raise (Exn "IndexError" "list index out of range").
Proof.
  split; [|split].
  - destruct (capacity_report_needs_a_total (JDict [])) as [H _].
    destruct (H (JDict []) (JInt 0) (JInt 0)) as (e & x & Hclass & He);
      [reflexivity | reflexivity | reflexivity | reflexivity | reflexivity |].
    exists e. split; [exact Hclass|]. by rewrite He.
  - destruct (capacity_report_needs_a_total
                (JDict [("symmetrix",
                         JList [JDict [("total_cap_gb", JFloat 0);
                                       ("used_cap_gb", JInt 250)]])]))
      as [H _].
    destruct (H (JDict [("total_cap_gb", JFloat 0); ("used_cap_gb", JInt 250)])
                (JFloat 0) (JInt 250)) as (e & x & Hclass & He);
      [reflexivity | reflexivity | reflexivity | reflexivity | reflexivity |].
    exists e. split; [exact Hclass|]. by rewrite He.
  - destruct (capacity_report_needs_a_total
                (JDict [("symmetrix", JList [])])) as [_ H].
    by rewrite (H [("symmetrix", JList [])] eq_refl eq_refl).
Defined.

(** X18. With floats under the four capacity keys and a total that is
    not a zero, [print_capacity_info] prints seven lines and returns:
    the heading, the total, then the used, free and subscribed
    capacities, each with its share of the total in percent, and last
    the subscription ratio subscribed/used when the used capacity is
    above 0. When it is not, the last line is the bare text "N/A",
    without the "Subscription Ratio" label. The shares and the ratio
    are computed in floats. *)
Theorem capacity_report_lines
    (capacity_data info : json) (total used free subscribed : float) :
  UniVmaxReport.capacities capacity_data = Some info →
  UniVmaxReport.capacity info "total_cap_gb" = Some (JFloat total) →
  UniVmaxReport.capacity info "used_cap_gb" = Some (JFloat used) →
  UniVmaxReport.capacity info "free_cap_gb" = Some (JFloat free) →
  UniVmaxReport.capacity info "subscribed_cap_gb"
  = Some (JFloat subscribed) →
  (total =? 0)%float = false →
  UniVmaxReport.print_capacity_info capacity_data
  = MkM [UniVmaxReport.EPrint
           [UniVmaxReport.Text
              (UniVmaxReport.nl +:+ "Array Capacity Information:")];
         UniVmaxReport.EPrint
           [UniVmaxReport.Text (UniVmaxReport.py_mul "=" 50)];
         UniVmaxReport.EPrint
           [UniVmaxReport.Text "Total Capacity (GB): ";
            UniVmaxReport.Fixed true 2 total];
         UniVmaxReport.EPrint
           [UniVmaxReport.Text "Used Capacity (GB): ";
            UniVmaxReport.Fixed true 2 used; UniVmaxReport.Text " (";
            UniVmaxReport.Fixed false 1 (used / total * 100)%float;
            UniVmaxReport.Text "%)"];
         UniVmaxReport.EPrint
           [UniVmaxReport.Text "Free Capacity (GB): ";
            UniVmaxReport.Fixed true 2 free; UniVmaxReport.Text " (";
            UniVmaxReport.Fixed false 1 (free / total * 100)%float;
            UniVmaxReport.Text "%)"];
         UniVmaxReport.EPrint
           [UniVmaxReport.Text "Subscribed Capacity (GB): ";
            UniVmaxReport.Fixed true 2 subscribed; UniVmaxReport.Text " (";
            UniVmaxReport.Fixed false 1 (subscribed / total * 100)%float;
            UniVmaxReport.Text "%)"];
         UniVmaxReport.EPrint
           (if (0 <? used)%float
            then [UniVmaxReport.Text "Subscription Ratio: ";
                  UniVmaxReport.Fixed false 2 (subscribed / used)%float;
                  UniVmaxReport.Text ":1"]
            else [UniVmaxReport.Text "N/A"])]
        (Ok tt).
Proof.
  intros Hinfo Htotal Hused Hfree Hsub Hnz.
  destruct (capacities_inv _ _ Hinfo) as (symmetrix & Hsym & Hfirst).
  pose proof (capacity_inv _ _ _ Htotal) as Hvt.
  pose proof (capacity_inv _ _ _ Hused) as Hvu.
  pose proof (capacity_inv _ _ _ Hfree) as Hvf.
  pose proof (capacity_inv _ _ _ Hsub) as Hvs.
  unfold UniVmaxReport.print_capacity_info.
  apply heading_then. rewrite Hsym, bind_lift_val. cbv beta.
  rewrite Hfirst, bind_lift_val. cbv beta.
  rewrite Hvt, bind_lift_val. cbv beta.
  rewrite Hvu, bind_lift_val. cbv beta.
  rewrite Hvf, bind_lift_val. cbv beta.
  rewrite Hvs, bind_lift_val. cbv beta.
  change (UniVmaxReport.format_f true 2 (JFloat total))
    with (Ok (UniVmaxReport.Fixed true 2 total)).
  rewrite bind_lift_val. apply emit_then.
  rewrite (with_share_floats used total Hnz), bind_lift_val.
  apply emit_then.
  rewrite (with_share_floats free total Hnz), bind_lift_val.
  apply emit_then.
  rewrite (with_share_floats subscribed total Hnz), bind_lift_val.
  apply emit_then.
  change (UniVmaxReport.py_gt0 (JFloat used)) with (Ok (0 <? used)%float).
  rewrite bind_lift_val.
  destruct (0 <? used)%float eqn:Hpos; [|reflexivity].
  unfold UniVmaxReport.py_truediv. cbn [UniVmaxReport.number_of
    UniVmaxReport.to_float bind_result].
  rewrite (float_above_zero_nonzero used Hpos), bind_lift_val.
  reflexivity.
Qed.

(** The statement at an array with 1000 GB, 250 of them used and 750
    free, 500 subscribed; and at one with nothing used. *)
Lemma capacity_report_lines_witness :
  last (trace (UniVmaxReport.print_capacity_info
                 (JDict [("symmetrix",
                          JList [JDict [("total_cap_gb", JFloat 1000);
                                        ("used_cap_gb", JFloat 250);
                                        ("free_cap_gb", JFloat 750);
                                        ("subscribed_cap_gb",
                                         JFloat 500)]])])))
  = Some (UniVmaxReport.EPrint
            [UniVmaxReport.Text "Subscription Ratio: ";
             UniVmaxReport.Fixed false 2 2;
             UniVmaxReport.Text ":1"])
  ∧ last (trace (UniVmaxReport.print_capacity_info
                   (JDict [("symmetrix",
                            JList [JDict [("total_cap_gb", JFloat 1000);
                                          ("used_cap_gb", JFloat 0);
                                          ("free_cap_gb", JFloat 1000);
                                          ("subscribed_cap_gb",
                                           JFloat 0)]])])))
    = Some (UniVmaxReport.EPrint [UniVmaxReport.Text "N/A"]).
Proof.
  split.
  - rewrite (capacity_report_lines _
               (JDict [("total_cap_gb", JFloat 1000);
                       ("used_cap_gb", JFloat 250);
                       ("free_cap_gb", JFloat 750);
                       ("subscribed_cap_gb", JFloat 500)])
               1000 250 750 500);
      reflexivity.
  - rewrite (capacity_report_lines _
               (JDict [("total_cap_gb", JFloat 1000);
                       ("used_cap_gb", JFloat 0);
                       ("free_cap_gb", JFloat 1000);
                       ("subscribed_cap_gb", JFloat 0)])
               1000 0 1000 0);
      reflexivity.
Defined.

Section ReplicationReport.
Import UniVmaxReport.
Variable c : client.
Variable array_id : string.

Lemma details_fetched number r details :
  details_get c number = Responds r →
  UniVmax.raise_for_status r = Ok tt → body r = Some details →
  get_replication_group_details c array_id number
  = MkM [EGet (details_url c array_id number)] (Ok details).
Proof.
  intros Hr Hs Hb. unfold get_replication_group_details.
  apply emit_then. rewrite Hr.
  change (m_ret r) with (lift (E:=event) (Ok r)). rewrite bind_lift_val.
  rewrite Hs, bind_lift_val. unfold response_json. by rewrite Hb.
Qed.

Lemma details_failed number e :
  details_fail c number e →
  get_replication_group_details c array_id number
  = MkM [EGet (details_url c array_id number)] (Raise e).
Proof.
  intros [Hf | (r & Hr & Hs)]; unfold get_replication_group_details;
    apply emit_then.
  - by rewrite Hf.
  - rewrite Hr. change (m_ret r) with (lift (E:=event) (Ok r)).
    rewrite bind_lift_val. by rewrite Hs.
Qed.

(** A group with no number, or a falsy one: nothing is done. *)
Lemma group_skipped group :
  isinstance_dict group = true → numbered [group] = [] →
  print_replication_group c array_id group = MkM [] (Ok tt).
Proof.
  destruct group as [| | | | | |kvs]; try done. intros _.
  unfold numbered, print_replication_group. cbn [omap list_omap py_get].
  rewrite bind_lift_val.
  destruct (assoc "rdfgNumber" kvs) as [n|]; cbn [default from_option id];
    [|done].
  by destruct (truthy n).
Qed.

(** A group with a truthy number whose details are printable: the
    request, then seven lines. *)
Lemma group_printed group number :
  isinstance_dict group = true → numbered [group] = [number] →
  details_ok c number →
  ∃ lines,
    print_replication_group c array_id group
    = MkM (EGet (details_url c array_id number) :: (EPrint <$> lines))
          (Ok tt)
    ∧ length lines = 7.
Proof.
  destruct group as [| | | | | |kvs]; try done. intros _.
  unfold numbered, print_replication_group. cbn [omap list_omap py_get].
  rewrite bind_lift_val.
  destruct (assoc "rdfgNumber" kvs) as [n|]; cbn [default from_option id];
    [|done].
  destruct (truthy n); [|done]. intros [= ->].
  intros (r & details & Hr & Hs & Hb & Hp).
  rewrite (details_fetched number r details Hr Hs Hb).
  destruct details as [| | | | | |fields]; try done.
  unfold printable_details in Hp. apply andb_prop in Hp as [Hstates Hmodes].
  destruct (default (JDict []) (assoc "states" fields))
    as [| | | | | |states] eqn:Hst; try done.
  destruct (default (JDict []) (assoc "modes" fields))
    as [| | | | | |modes] eqn:Hmo; try done.
  eexists [_; _; _; _; _; _; _]. split; [|reflexivity].
  cbn [fmap list_fmap]. apply fetched_then.
  apply emit_then. rewrite bind_lift_val. apply emit_then.
  rewrite bind_lift_val. apply emit_then.
  cbn [py_get]. rewrite Hst, bind_lift_val. cbv beta.
  cbn [py_get]. rewrite bind_lift_val. apply emit_then.
  rewrite Hmo, bind_lift_val. cbv beta.
  cbn [py_get]. rewrite bind_lift_val. apply emit_then.
  rewrite bind_lift_val. apply emit_then.
  rewrite bind_lift_val. reflexivity.
Qed.

(** A group with a truthy number whose details request raises: the
    request, and the exception. *)
Lemma group_failed group number e :
  isinstance_dict group = true → numbered [group] = [number] →
  details_fail c number e →
  print_replication_group c array_id group
  = MkM [EGet (details_url c array_id number)] (Raise e).
Proof.
  destruct group as [| | | | | |kvs]; try done. intros _.
  unfold numbered, print_replication_group. cbn [omap list_omap py_get].
  rewrite bind_lift_val.
  destruct (assoc "rdfgNumber" kvs) as [n|]; cbn [default from_option id];
    [|done].
  destruct (truthy n); [|done]. intros [= ->] Hfail.
  rewrite (details_failed number e Hfail).
  by rewrite (m_bind_raise _ _ e).
Qed.

Lemma numbered_cons group groups :
  numbered (group :: groups) = numbered [group] ++ numbered groups.
Proof.
  unfold numbered. cbn [omap list_omap].
  destruct group as [| | | | | |kvs]; try done.
  destruct (assoc "rdfgNumber" kvs) as [n|]; [|done]. by destruct (truthy n).
Qed.

Lemma numbered_one group :
  numbered [group] = [] ∨ ∃ number, numbered [group] = [number].
Proof.
  unfold numbered. cbn [omap list_omap].
  destruct group as [| | | | | |kvs]; eauto.
  destruct (assoc "rdfgNumber" kvs) as [n|]; eauto.
  destruct (truthy n); eauto.
Qed.

(** The loop over groups that are mappings, with printable details for
    those that have a number. *)
Lemma groups_printed groups :
  Forall (λ g, isinstance_dict g = true) groups →
  (∀ n, n ∈ numbered groups → details_ok c n) →
  ∃ t,
    for_each groups (print_replication_group c array_id) = MkM t (Ok tt)
    ∧ filter (λ e, is_get e = true) t
      = (λ n, EGet (details_url c array_id n)) <$> numbered groups
    ∧ length (filter (λ e, is_print e = true) t)
      = 7 * length (numbered groups).
Proof.
  induction 1 as [|group groups Hg _ IH]; intros Hok.
  - exists []. done.
  - rewrite numbered_cons in Hok. rewrite numbered_cons.
    destruct IH as (t & Ht & Hgets & Hprints).
    { intros n Hn. apply Hok, elem_of_app. by right. }
    cbn [for_each].
    destruct (numbered_one group) as [Hnone | [number Hone]].
    + rewrite (group_skipped group Hg Hnone), Hnone.
      exists t. rewrite (m_bind_ok _ _ tt) by done. by rewrite Ht.
    + destruct (group_printed group number Hg Hone) as (lines & Hp & Hlen).
      { apply Hok, elem_of_app. left. rewrite Hone. by left. }
      rewrite Hp, Hone. rewrite (m_bind_ok _ _ tt) by done.
      rewrite Ht. cbn [trace outcome].
      eexists. split; [reflexivity|]. split.
      * cbn [app]. rewrite filter_cons_True by done.
        rewrite filter_app, Hgets, filter_none; [done|].
        apply Forall_fmap. by apply Forall_true.
      * cbn [app]. rewrite filter_cons_False by done.
        rewrite filter_app, filter_all, length_app, length_fmap, Hlen,
          Hprints.
        -- cbn [length app]. lia.
        -- apply Forall_fmap. by apply Forall_true.
Qed.

(** The loop goes through such groups and on to what follows them. *)
Lemma groups_passed before :
  Forall (λ g, isinstance_dict g = true) before →
  (∀ n, n ∈ numbered before → details_ok c n) →
  ∃ t,
    (∀ rest,
       for_each (before ++ rest) (print_replication_group c array_id)
       = MkM (t ++ trace (for_each rest (print_replication_group c array_id)))
             (outcome (for_each rest (print_replication_group c array_id))))
    ∧ filter (λ e, is_get e = true) t
      = (λ n, EGet (details_url c array_id n)) <$> numbered before
    ∧ length (filter (λ e, is_print e = true) t)
      = 7 * length (numbered before).
Proof.
  intros Hdicts Hok.
  destruct (groups_printed before Hdicts Hok) as (t & Ht & Hgets & Hprints).
  exists t. split; [|done]. clear Hgets Hprints Hok. revert t Ht.
  induction Hdicts as [|group groups Hg _ IH]; intros t Ht rest.
  - injection Ht as <-. cbn [app].
    by destruct (for_each rest (print_replication_group c array_id)).
  - cbn [app for_each] in *.
    destruct (print_replication_group c array_id group) as [tg [[]|e]] eqn:Hgroup.
    + rewrite (m_bind_ok _ _ tt) in Ht by done.
      rewrite (m_bind_ok _ _ tt) by done. cbn [trace] in *.
      destruct (for_each groups (print_replication_group c array_id))
        as [tgs ogs] eqn:Hgroups.
      cbn [trace outcome] in Ht. injection Ht as <- ->.
      rewrite (IH tgs eq_refl rest). cbn [trace outcome].
      by rewrite app_assoc.
    + by rewrite (m_bind_raise _ _ e) in Ht.
Qed.
End ReplicationReport.

(** X19. [print_replication_groups] asks for the details of the groups
    that have a truthy 'rdfgNumber', one request each and in list
    order, and prints seven lines for each of them; a group with no
    number, or with the number 0, is passed over without a request or
    a line. An empty list gives the single line "No replication groups
    found". *)
Theorem replication_report_asks_numbered_groups
    (c : UniVmaxReport.client) (array_id : string) (groups : list json) :
  Forall (λ g, isinstance_dict g = true) groups →
  (∀ n, n ∈ UniVmaxReport.numbered groups → UniVmaxReport.details_ok c n) →
  ∃ t,
    UniVmaxReport.print_replication_groups (JList groups) c array_id
    = MkM (UniVmaxReport.EPrint
             [UniVmaxReport.Text
                (UniVmaxReport.nl +:+ "Replication Groups Status:")]
           :: UniVmaxReport.EPrint
                [UniVmaxReport.Text (UniVmaxReport.py_mul "=" 50)]
           :: t)
          (Ok tt)
    ∧ filter (λ e, UniVmaxReport.is_get e = true) t
      = (λ n, UniVmaxReport.EGet (UniVmaxReport.details_url c array_id n))
        <$> UniVmaxReport.numbered groups
    ∧ (groups = [] →
       t = [UniVmaxReport.EPrint
              [UniVmaxReport.Text "No replication groups found"]])
    ∧ (groups ≠ [] →
       length (filter (λ e, UniVmaxReport.is_print e = true) t)
       = 7 * length (UniVmaxReport.numbered groups)).
Proof.
  intros Hdicts Hok.
  destruct (groups_printed c array_id groups Hdicts Hok)
    as (t & Ht & Hgets & Hprints).
  unfold UniVmaxReport.print_replication_groups.
  destruct groups as [|group groups].
  - eexists. split; [by apply heading_then|]. by repeat split.
  - exists t. split; [|by repeat split].
    apply heading_then. cbn [truthy length Nat.eqb negb py_iter].
    by rewrite bind_lift_val.
Qed.

(** The statement at three groups, the second with the number 0: two
    requests, for the groups 5 and 7. *)
Lemma replication_report_asks_numbered_groups_witness :
  filter (λ e, UniVmaxReport.is_get e = true)
    (trace (UniVmaxReport.print_replication_groups
              (JList [JDict [("rdfgNumber", JInt 5)];
                      JDict [("rdfgNumber", JInt 0)];
                      JDict [("rdfgNumber", JInt 7)]])
              (UniVmaxReport.sample_client
                 (Responds (Response 200 (Some (JDict [])))))
              "000123456789"))
  = [UniVmaxReport.EGet
       (UniVmaxReport.details_url
          (UniVmaxReport.sample_client
             (Responds (Response 200 (Some (JDict [])))))
          "000123456789" (JInt 5));
     UniVmaxReport.EGet
       (UniVmaxReport.details_url
          (UniVmaxReport.sample_client
             (Responds (Response 200 (Some (JDict [])))))
          "000123456789" (JInt 7))].
Proof.
  destruct (replication_report_asks_numbered_groups
              (UniVmaxReport.sample_client
                 (Responds (Response 200 (Some (JDict [])))))
              "000123456789"
              [JDict [("rdfgNumber", JInt 5)];
               JDict [("rdfgNumber", JInt 0)];
               JDict [("rdfgNumber", JInt 7)]])
    as (t & Ht & Hgets & _).
  - by repeat constructor.
  - intros n _. eexists _, _. repeat split; reflexivity.
  - rewrite Ht. cbn [trace].
    rewrite filter_cons_False by done. rewrite filter_cons_False by done.
    exact Hgets.
Defined.

(** X20. A details request that raises, in the session or on a status
    from 400 to 599, ends [print_replication_groups] with that
    exception: the groups before are printed, nothing is printed for
    the group asked about, and the groups after it are neither asked
    about nor printed. *)
Theorem replication_report_stops_at_failed_details
    (c : UniVmaxReport.client) (array_id : string)
    (before : list json) (group : json) (rest : list json)
    (number : json) (e : exn) :
  Forall (λ g, isinstance_dict g = true) before →
  (∀ n, n ∈ UniVmaxReport.numbered before → UniVmaxReport.details_ok c n) →
  isinstance_dict group = true →
  UniVmaxReport.numbered [group] = [number] →
  UniVmaxReport.details_fail c number e →
  ∃ t,
    UniVmaxReport.print_replication_groups
      (JList (before ++ group :: rest)) c array_id
    = MkM (UniVmaxReport.EPrint
             [UniVmaxReport.Text
                (UniVmaxReport.nl +:+ "Replication Groups Status:")]
           :: UniVmaxReport.EPrint
                [UniVmaxReport.Text (UniVmaxReport.py_mul "=" 50)]
           :: t
           ++ [UniVmaxReport.EGet
                 (UniVmaxReport.details_url c array_id number)])
          (Raise e)
    ∧ filter (λ e, UniVmaxReport.is_get e = true) t
      = (λ n, UniVmaxReport.EGet (UniVmaxReport.details_url c array_id n))
        <$> UniVmaxReport.numbered before
    ∧ length (filter (λ e, UniVmaxReport.is_print e = true) t)
      = 7 * length (UniVmaxReport.numbered before).
Proof.
  intros Hdicts Hok Hg Hone Hfail.
  destruct (groups_passed c array_id before Hdicts Hok)
    as (t & Ht & Hgets & Hprints).
  exists t. split; [|done].
  unfold UniVmaxReport.print_replication_groups. apply heading_then.
  replace (truthy (JList (before ++ group :: rest))) with true.
  2:{ cbn [truthy]. rewrite length_app. cbn [length].
      by rewrite Nat.add_succ_r. }
  cbn [negb py_iter]. rewrite bind_lift_val, Ht. cbn [for_each].
  rewrite (group_failed c array_id group number e Hg Hone Hfail).
  by rewrite (m_bind_raise _ _ e).
Qed.

(** The statement at two groups and a server that answers 404: the
    report ends at the first request. *)
Lemma replication_report_stops_at_failed_details_witness :
  outcome
    (UniVmaxReport.print_replication_groups
       (JList [JDict [("rdfgNumber", JInt 5)]; JDict [("rdfgNumber", JInt 7)]])
       (UniVmaxReport.sample_client (Responds (Response 404 None)))
       "000123456789")
  = Raise (Exn "HTTPError" (pretty 404%Z +:+ " Error"))
  ∧ length
      (trace
         (UniVmaxReport.print_replication_groups
            (JList [JDict [("rdfgNumber", JInt 5)];
                    JDict [("rdfgNumber", JInt 7)]])
            (UniVmaxReport.sample_client (Responds (Response 404 None)))
            "000123456789"))
    = 3.
Proof.
  destruct (replication_report_stops_at_failed_details
              (UniVmaxReport.sample_client (Responds (Response 404 None)))
              "000123456789" [] (JDict [("rdfgNumber", JInt 5)])
              [JDict [("rdfgNumber", JInt 7)]] (JInt 5)
              (Exn "HTTPError" (pretty 404%Z +:+ " Error")))
    as (t & Ht & _ & _).
  - constructor.
  - intros n Hn. by apply elem_of_nil in Hn.
  - reflexivity.
  - reflexivity.
  - right. eexists. split; reflexivity.
  - cbn [app] in Ht. split; [by rewrite Ht | reflexivity].
Defined.

Section StorageGroupReport.
Import UniVmaxReport.

(** A storage group without 'rdfgs': five lines, the fourth with no
    RDF group. *)
Lemma storage_group_printed kvs :
  assoc "rdfgs" kvs = None →
  print_storage_group (JDict kvs)
  = MkM [EPrint [Text (nl +:+ "Storage Group: ");
                 Str (default JNull (assoc "storageGroupId" kvs))];
         EPrint [Text "  SRP: "; Str (default (JStr "N/A") (assoc "srp" kvs))];
         EPrint [Text "  Service Level: ";
                 Str (default (JStr "N/A") (assoc "service_level" kvs))];
         EPrint [Text "  RDF Groups: "; Joined ", " []];
         EPrint [Text "  Replication Mode: ";
                 Str (default (JStr "N/A") (assoc "replication_mode" kvs))]]
        (Ok tt).
Proof.
  intros Hk. unfold print_storage_group. cbn [py_get].
  rewrite bind_lift_val. apply emit_then.
  rewrite bind_lift_val. apply emit_then.
  rewrite bind_lift_val. apply emit_then.
  rewrite Hk. rewrite bind_lift_val. cbn [default from_option py_iter].
  rewrite bind_lift_val. apply emit_then.
  rewrite bind_lift_val. reflexivity.
Qed.

(** A storage group whose 'rdfgs' is null: three lines, then the
    iteration raises. *)
Lemma storage_group_null kvs :
  assoc "rdfgs" kvs = Some JNull →
  print_storage_group (JDict kvs)
  = MkM [EPrint [Text (nl +:+ "Storage Group: ");
                 Str (default JNull (assoc "storageGroupId" kvs))];
         EPrint [Text "  SRP: "; Str (default (JStr "N/A") (assoc "srp" kvs))];
         EPrint [Text "  Service Level: ";
                 Str (default (JStr "N/A") (assoc "service_level" kvs))]]
        (Raise (TypeError "'NoneType' object is not iterable")).
Proof.
  intros Hk. unfold print_storage_group. cbn [py_get].
  rewrite bind_lift_val. apply emit_then.
  rewrite bind_lift_val. apply emit_then.
  rewrite bind_lift_val. apply emit_then.
  rewrite Hk. rewrite bind_lift_val. reflexivity.
Qed.
End StorageGroupReport.

(** X21. The defaults the reports give to [get] stand in for a missing
    key only, not for a null value. [print_health_status] on a mapping
    without 'health' prints the status "Unknown" and 0 alerts, but on
    one whose 'health' is null it raises AttributeError right after the
    heading. [print_storage_groups_with_replication] prints an empty
    list of RDF groups for a storage group without 'rdfgs', but raises
    TypeError, three lines into the group, for one whose 'rdfgs' is
    null. *)
Theorem report_defaults_are_for_missing_keys
    (kvs : list (string * json)) :
  (assoc "health" kvs = None →
   UniVmaxReport.print_health_status (JDict kvs)
   = MkM [UniVmaxReport.EPrint
            [UniVmaxReport.Text
               (UniVmaxReport.nl +:+ "Array Health Status:")];
          UniVmaxReport.EPrint
            [UniVmaxReport.Text (UniVmaxReport.py_mul "=" 50)];
          UniVmaxReport.EPrint
            [UniVmaxReport.Text "Overall Health Status: ";
             UniVmaxReport.Str (JStr "Unknown")];
          UniVmaxReport.EPrint
            [UniVmaxReport.Text "Number of Active Alerts: ";
             UniVmaxReport.Str (JInt 0)]]
         (Ok tt))
  ∧ (assoc "health" kvs = Some JNull →
     UniVmaxReport.print_health_status (JDict kvs)
     = MkM [UniVmaxReport.EPrint
              [UniVmaxReport.Text
                 (UniVmaxReport.nl +:+ "Array Health Status:")];
            UniVmaxReport.EPrint
              [UniVmaxReport.Text (UniVmaxReport.py_mul "=" 50)]]
           (Raise (Exn "AttributeError"
                     "'NoneType' object has no attribute 'get'")))
  ∧ (assoc "rdfgs" kvs = None →
     outcome (UniVmaxReport.print_storage_groups_with_replication
                (JList [JDict kvs])) = Ok tt
     ∧ UniVmaxReport.EPrint
         [UniVmaxReport.Text "  RDF Groups: "; UniVmaxReport.Joined ", " []]
       ∈ trace (UniVmaxReport.print_storage_groups_with_replication
                  (JList [JDict kvs])))
  ∧ (assoc "rdfgs" kvs = Some JNull →
     outcome (UniVmaxReport.print_storage_groups_with_replication
                (JList [JDict kvs]))
     = Raise (TypeError "'NoneType' object is not iterable")
     ∧ length (trace (UniVmaxReport.print_storage_groups_with_replication
                        (JList [JDict kvs]))) = 5).
Proof.
  split; [|split; [|split]].
  - intros Hk. unfold UniVmaxReport.print_health_status.
    apply heading_then. cbn [py_get]. rewrite Hk. reflexivity.
  - intros Hk. unfold UniVmaxReport.print_health_status.
    apply heading_then. cbn [py_get]. rewrite Hk. reflexivity.
  - intros Hk.
    unfold UniVmaxReport.print_storage_groups_with_replication.
    cbn [truthy length Nat.eqb negb py_iter].
    erewrite heading_then.
    2:{ rewrite bind_lift_val. cbn [for_each].
        rewrite (storage_group_printed kvs Hk). reflexivity. }
    split; [reflexivity|].
    do 5 apply list_elem_of_further. apply list_elem_of_here.
  - intros Hk.
    unfold UniVmaxReport.print_storage_groups_with_replication.
    cbn [truthy length Nat.eqb negb py_iter].
    erewrite heading_then.
    2:{ rewrite bind_lift_val. cbn [for_each].
        rewrite (storage_group_null kvs Hk). reflexivity. }
    split; reflexivity.
Qed.

(** The statement at an answer that is an empty mapping and at one
    whose 'health' is null; at a storage group with only a name, and at
    one whose 'rdfgs' is null. *)
Lemma report_defaults_are_for_missing_keys_witness :
  outcome (UniVmaxReport.print_health_status (JDict [])) = Ok tt
  ∧ outcome (UniVmaxReport.print_health_status (JDict [("health", JNull)]))
    = Raise (Exn "AttributeError" "'NoneType' object has no attribute 'get'")
  ∧ outcome (UniVmaxReport.print_storage_groups_with_replication
               (JList [JDict [("storageGroupId", JStr "SG1")]])) = Ok tt
  ∧ outcome (UniVmaxReport.print_storage_groups_with_replication
               (JList [JDict [("storageGroupId", JStr "SG1");
                              ("rdfgs", JNull)]]))
    = Raise (TypeError "'NoneType' object is not iterable").
Proof.
  split; [|split; [|split]].
  - destruct (report_defaults_are_for_missing_keys []) as (H & _).
    by rewrite (H eq_refl).
  - destruct (report_defaults_are_for_missing_keys [("health", JNull)])
      as (_ & H & _).
    by rewrite (H eq_refl).
  - destruct (report_defaults_are_for_missing_keys
                [("storageGroupId", JStr "SG1")]) as (_ & _ & H & _).
    by destruct (H eq_refl) as [-> _].
  - destruct (report_defaults_are_for_missing_keys
                [("storageGroupId", JStr "SG1"); ("rdfgs", JNull)])
      as (_ & _ & _ & H).
    by destruct (H eq_refl) as [-> _].
Defined.
